(** * Cross-chain fusion order orchestration: a shallow embedding

    The TypeScript sources embedded here are
    - [utils/fusionUtils.ts]: [retry], [validateOrderParams],
      [generateSecretsAndHashLock];
    - [adapters/ChainAdapterFactory.ts]: the adapter registry;
    - [orders/fusionOrders.ts]: [GeneralizedFusionOrderManager];
    - [interfaces/IChainAdapter.ts]: the connection state of
      [BaseChainAdapter];
    - [core/OrderBuilder.ts]: [OrderBuilder].

    Conventions.  JavaScript numbers that the code uses as integers (chain
    ids, retry counts, unix times, fill indices) are [Z]; [NaN], infinities
    and fractions are left out.  Strings are [string] (ASCII); a [Map] is a
    [gmap]; an array is a [list].  A function
    that performs effects is a state transformer returning an [Outcome]:
    either a returned value or a thrown JavaScript value.  An [await] is
    sequencing: one call runs to completion before the next starts. *)

From Stdlib Require Import ZArith List String Ascii Lia.
From stdpp Require Import base decidable option list strings gmap pretty.

Local Open Scope Z_scope.

(** ** Thrown values and outcomes *)

(** The values this code throws or sees thrown. [Rejection] stands for a
    failure raised by an external collaborator (the settlement SDK or a chain
    adapter); [status] is its [response?.status] when it has one. *)
Inductive Thrown : Type :=
| JSUndefined
| JSError (message : string)
| JSTypeError (message : string)
| JSSyntaxError (message : string)
| Rejection (status : option Z) (message : string).

Inductive Outcome (A : Type) : Type :=
| Return (a : A)
| Throw (e : Thrown).
Arguments Return {A} a.
Arguments Throw {A} e.

#[global] Instance Thrown_eq_dec : EqDecision Thrown.
Proof. solve_decision. Defined.

(** A computation over a state [S]. *)
Definition M (S A : Type) : Type := S -> Outcome A * S.

Definition ret {S A} (a : A) : M S A := fun s => (Return a, s).

Definition throw {S A} (e : Thrown) : M S A := fun s => (Throw e, s).

Definition bind {S A B} (c : M S A) (k : A -> M S B) : M S B :=
  fun s =>
    match c s with
    | (Return a, s') => k a s'
    | (Throw e, s') => (Throw e, s')
    end.

(** [try { c } catch (error) { handler error }] *)
Definition try_catch {S A} (c : M S A) (handler : Thrown -> M S A) : M S A :=
  fun s =>
    match c s with
    | (Return a, s') => (Return a, s')
    | (Throw e, s') => handler e s'
    end.

Definition gets {S A} (f : S -> A) : M S A := fun s => (Return (f s), s).

Definition modify {S} (f : S -> S) : M S unit := fun s => (Return tt, f s).

Declare Scope js_scope.
Delimit Scope js_scope with js.
Notation "x <- c ;; k" := (bind c (fun x => k))
  (at level 100, c at next level, right associativity) : js_scope.
Notation "c ;;; k" := (bind c (fun _ => k))
  (at level 100, right associativity) : js_scope.
Local Open Scope js_scope.

(** The platform services the utilities read: the wall clock ([Date.now()],
    milliseconds), timers ([setTimeout] behind [sleep]), the random source
    ([crypto.randomBytes(32)] rendered as 64 hex digits) and the two hash
    functions of the SDK and of ethers, which are pure. *)
Class Platform (S : Type) : Type := {
  Date_now : S -> Z;
  elapse : Z -> S -> S;
  randomBytes32_hex : S -> string * S;
  HashLock_hashSecret : string -> string;
  solidityPackedKeccak256_uint64_bytes32 : Z -> string -> string
}.

(** ** JavaScript built-ins used by the sources *)

Module JS.

(** [WhiteSpace] and [LineTerminator] code points of the ASCII range. *)
Definition is_white_space (c : ascii) : bool :=
  match nat_of_ascii c with
  | 9%nat | 10%nat | 11%nat | 12%nat | 13%nat | 32%nat => true
  | _ => false
  end.

Fixpoint trim_start (cs : list ascii) : list ascii :=
  match cs with
  | c :: cs' => if is_white_space c then trim_start cs' else cs
  | [] => []
  end.

Definition trim (cs : list ascii) : list ascii :=
  rev (trim_start (rev (trim_start cs))).

(** Value of a digit in bases up to 16. *)
Definition digit_value (c : ascii) : option Z :=
  let n := Z.of_nat (nat_of_ascii c) in
  if (48 <=? n) && (n <=? 57) then Some (n - 48)
  else if (97 <=? n) && (n <=? 102) then Some (n - 87)
  else if (65 <=? n) && (n <=? 70) then Some (n - 55)
  else None.

Fixpoint parse_digits (radix : Z) (cs : list ascii) (acc : Z) : option Z :=
  match cs with
  | [] => Some acc
  | c :: cs' =>
      match digit_value c with
      | Some d =>
          if d <? radix then parse_digits radix cs' (acc * radix + d) else None
      | None => None
      end
  end.

Definition parse_nonempty (radix : Z) (cs : list ascii) : option Z :=
  match cs with
  | [] => None
  | _ => parse_digits radix cs 0
  end.

(** [StringToBigInt]: optional white space around either nothing (zero), a
    signed run of decimal digits, or an unsigned 0x / 0o / 0b literal. *)
Definition StringToBigInt (str : string) : option Z :=
  match trim (list_ascii_of_string str) with
  | [] => Some 0
  | "+"%char :: ds => parse_nonempty 10 ds
  | "-"%char :: ds => Z.opp <$> parse_nonempty 10 ds
  | "0"%char :: "x"%char :: ds | "0"%char :: "X"%char :: ds =>
      parse_nonempty 16 ds
  | "0"%char :: "o"%char :: ds | "0"%char :: "O"%char :: ds =>
      parse_nonempty 8 ds
  | "0"%char :: "b"%char :: ds | "0"%char :: "B"%char :: ds =>
      parse_nonempty 2 ds
  | ds => parse_nonempty 10 ds
  end.

(** [BigInt(value)] for a value that is a string or [undefined]. *)
Definition BigInt {S} (value : option string) : M S Z :=
  match value with
  | None => throw (JSTypeError "Cannot convert undefined to a BigInt")
  | Some str =>
      match StringToBigInt str with
      | Some n => ret n
      | None => throw (JSSyntaxError ("Cannot convert " +:+ str +:+ " to a BigInt"))
      end
  end.

(** [Number.prototype.toString()] on an integer (below 1e21 in magnitude). *)
Definition Number_toString (n : Z) : string := pretty n.

End JS.

(** A chain identifier, [string | number]. *)
Inductive ChainId : Type :=
| CNum (n : Z)
| CStr (s : string).

#[global] Instance ChainId_eq_dec : EqDecision ChainId.
Proof. solve_decision. Defined.

#[global] Instance ChainId_countable : Countable ChainId.
Proof.
  refine (inj_countable'
            (fun c => match c with CNum n => inl n | CStr s => inr s end)
            (fun x => match x with inl n => CNum n | inr s => CStr s end) _).
  intros []; reflexivity.
Defined.

(** [chainId.toString()], also what a template literal prints. *)
Definition ChainId_toString (chainId : ChainId) : string :=
  match chainId with
  | CNum n => JS.Number_toString n
  | CStr s => s
  end.

(** The SDK's hash-lock commitment, kept symbolic: which static constructor
    built it and from what. *)
Inductive HashLock : Type :=
| forSingleFill (secret : option string)
| forMultipleFills (leaves : list string).

(** [HashLock.forMultipleFills(leaves)] of the SDK starts with the assertion
    [leaves.length > 2] and throws when it fails; the [AssertionError] is
    an [Error], of which the message is kept. *)
Definition HashLock_forMultipleFills {S : Type} (leaves : list string) : M S HashLock :=
  if (2 <? length leaves)%nat
  then ret (forMultipleFills leaves)
  else throw (JSError
                "leaves array must be greater than 2. Or use HashLock.forSingleFill").

(** * utils/fusionUtils.ts *)

Module fusionUtils.

Inductive TokenStandard : Type :=
| ERC20 | FA1_2 | FA2 | APTOS_COIN | SUI_COIN | NATIVE.

Record UniversalAsset : Type := {
  chainId : ChainId;
  address : string;
  symbol : string;
  decimals : Z;
  standard : TokenStandard
}.

Inductive OrderStatus : Type :=
| CREATED | PENDING | PARTIALLY_FILLED | EXECUTED | CANCELLED | EXPIRED | FAILED.

#[global] Instance OrderStatus_eq_dec : EqDecision OrderStatus.
Proof. solve_decision. Defined.

Record OrderFill : Type := {
  idx : Z;
  fill_amount : string;
  txHash : string;
  timestamp : Z;
  resolver : string
}.

Record UniversalOrder : Type := {
  orderHash : string;
  srcChain : ChainId;
  dstChain : ChainId;
  srcAsset : UniversalAsset;
  dstAsset : UniversalAsset;
  amount : string;
  minReturn : string;
  maker : string;
  taker : option string;
  deadline : Z;
  status : OrderStatus;
  fills : list OrderFill;
  secrets : option (list string);
  secretHashes : option (list string);
  hashLock : option HashLock
}.

(** [Partial<UniversalOrder>], restricted to the properties that
    [validateOrderParams] reads; [None] is an absent ([undefined]) property. *)
Record PartialUniversalOrder : Type := {
  p_srcChain : option ChainId;
  p_dstChain : option ChainId;
  p_srcAsset : option UniversalAsset;
  p_dstAsset : option UniversalAsset;
  p_amount : option string;
  p_maker : option string;
  p_deadline : option Z
}.

Definition as_partial (order : UniversalOrder) : PartialUniversalOrder :=
  {| p_srcChain := Some (srcChain order);
     p_dstChain := Some (dstChain order);
     p_srcAsset := Some (srcAsset order);
     p_dstAsset := Some (dstAsset order);
     p_amount := Some (amount order);
     p_maker := Some (maker order);
     p_deadline := Some (deadline order) |}.

(** The values a validated property can hold, and [!value]. *)
Inductive FieldValue : Type :=
| VChain (c : ChainId)
| VAsset (a : UniversalAsset)
| VString (s : string)
| VNumber (n : Z).

Definition falsy (v : option FieldValue) : bool :=
  match v with
  | None => true
  | Some (VChain (CNum n)) => n =? 0
  | Some (VChain (CStr s)) => bool_decide (s = "")
  | Some (VAsset _) => false
  | Some (VString s) => bool_decide (s = "")
  | Some (VNumber n) => n =? 0
  end.

(** [order[field as keyof UniversalOrder]] *)
Definition get_field (order : PartialUniversalOrder) (field : string)
  : option FieldValue :=
  if decide (field = "srcChain") then VChain <$> p_srcChain order
  else if decide (field = "dstChain") then VChain <$> p_dstChain order
  else if decide (field = "srcAsset") then VAsset <$> p_srcAsset order
  else if decide (field = "dstAsset") then VAsset <$> p_dstAsset order
  else if decide (field = "amount") then VString <$> p_amount order
  else if decide (field = "maker") then VString <$> p_maker order
  else if decide (field = "deadline") then VNumber <$> p_deadline order
  else None.

Definition required : list string :=
  ["srcChain"; "dstChain"; "srcAsset"; "dstAsset"; "amount"; "maker"; "deadline"].

Record SecretsAndHashLock : Type := {
  gen_secrets : list string;
  gen_secretHashes : list string;
  gen_hashLock : HashLock
}.

Section Utils.
Context {S : Type} `{Platform S}.

(** [sleep(ms)]: resolves after [ms] milliseconds; never rejects. *)
Definition sleep (ms : Z) : M S unit := modify (elapse ms).

(** [getRandomBytes32()] *)
Definition getRandomBytes32 : M S string :=
  fun s => let '(hex, s') := randomBytes32_hex s in (Return ("0x" +:+ hex), s').

Section Retry.
Context {T : Type}.
Variable operation : M S T.
Variables maxRetries delay : Z.

(** [retry] (fusionUtils.ts, lines 177-196).  [retry_loop] is the body of
    [for (let i = 0; i < maxRetries; i++)], with [remaining] the number of
    iterations still to run and [lastError] the local variable ([None]
    while unassigned); falling out of the loop is [throw lastError!]. *)
Fixpoint retry_loop (remaining : nat) (i : Z) (lastError : option Thrown)
  : M S T :=
  match remaining with
  | O => throw (default JSUndefined lastError)
  | Datatypes.S remaining' =>
      fun s =>
        match operation s with
        | (Return v, s') => (Return v, s')
        | (Throw error, s') =>
            let s'' :=
              if i <? maxRetries - 1
              then snd (sleep (delay * 2 ^ i) s')
              else s' in
            retry_loop remaining' (i + 1) (Some error) s''
        end
  end.

Definition retry : M S T := retry_loop (Z.to_nat maxRetries) 0 None.
End Retry.

(** The [for (const field of required)] loop of [validateOrderParams]. *)
Fixpoint check_required (order : PartialUniversalOrder) (fields : list string)
  : M S unit :=
  match fields with
  | [] => ret tt
  | field :: rest =>
      if falsy (get_field order field)
      then throw (JSError ("Missing required field: " +:+ field))
      else check_required order rest
  end.

(** [validateOrderParams] (fusionUtils.ts, lines 107-127). *)
Definition validateOrderParams (order : PartialUniversalOrder) : M S bool :=
  check_required order required ;;;
  amountBN <- JS.BigInt (p_amount order) ;;
  if amountBN <=? 0 then throw (JSError "Amount must be positive")
  else
    now <- gets Date_now ;;
    if match p_deadline order with
       | Some d => d <=? now / 1000
       | None => false
       end
    then throw (JSError "Deadline must be in the future")
    else ret true.

(** [Array.from({ length: n }).map(() => getRandomBytes32())] *)
Fixpoint random_secrets (n : nat) : M S (list string) :=
  match n with
  | O => ret []
  | Datatypes.S n' =>
      x <- getRandomBytes32 ;;
      xs <- random_secrets n' ;;
      ret (x :: xs)
  end.

(** [generateSecretsAndHashLock] (fusionUtils.ts, lines 16-33). *)
Definition generateSecretsAndHashLock (secretsCount : Z)
  : M S SecretsAndHashLock :=
  secrets <- random_secrets (Z.to_nat secretsCount) ;;
  let secretHashes := map HashLock_hashSecret secrets in
  hashLock <-
    (if decide (secretsCount = 1)
     then ret (forSingleFill (secrets !! 0%nat))
     else HashLock_forMultipleFills
            (imap (fun i secretHash =>
                     solidityPackedKeccak256_uint64_bytes32 (Z.of_nat i) secretHash)
                  secretHashes)) ;;
  ret {| gen_secrets := secrets;
         gen_secretHashes := secretHashes;
         gen_hashLock := hashLock |}.

End Utils.

End fusionUtils.

(** * adapters/ChainAdapterFactory.ts *)

(** An adapter instance is a JavaScript object; what the code compares and
    caches is its identity.  [AdapterRef] is that identity: the position of
    the object in the heap, in allocation order. *)
Definition AdapterRef : Type := nat.

Module ChainAdapterFactory.
Import fusionUtils.

(** The adapter classes are imported from files outside the embedded ones; an
    instance is represented by the constructor call that made it. *)
Inductive AdapterObject : Type :=
| EVMChainAdapter (chainId : Z) (chainName : string) (nativeAsset : UniversalAsset)
| AptosChainAdapter
| SuiChainAdapter
| TezosChainAdapter
| CustomAdapter (className : string).

Definition Heap : Type := list AdapterObject.

(** [new C(...)] for an adapter class: allocates a fresh object. *)
Definition new_object (o : AdapterObject) : M Heap AdapterRef :=
  fun heap => (Return (length heap), heap ++ [o]).

(** The function values that can be registered.  [registerAdapter] takes
    [adapterFactory: () => IChainAdapter] and stores it, cast to [any], in a
    map of [new () => IChainAdapter]; [createAdapter] applies [new] to it.
    An arrow function [() => e] has no [[Construct]] internal method, so
    [new] on it throws a [TypeError]; a class or a [function] has one, and
    [new] on it yields the object its body produces. *)
Inductive Callable : Type :=
| ArrowFunction (body : M Heap AdapterRef)
| Constructor (body : M Heap AdapterRef).

(** [new AdapterClass()] *)
Definition new_ (AdapterClass : Callable) : M Heap AdapterRef :=
  match AdapterClass with
  | ArrowFunction _ => throw (JSTypeError "AdapterClass is not a constructor")
  | Constructor body => body
  end.

(** The two private maps of the class. *)
Record ChainAdapterFactory : Type := {
  adapters : gmap string Callable;
  instances : gmap string AdapterRef
}.

Record World : Type := {
  this : ChainAdapterFactory;
  heap : Heap
}.

(** [createAdapter] (ChainAdapterFactory.ts, lines 67-85). *)
Definition createAdapter (chainId : ChainId) : M World AdapterRef :=
  fun w =>
    let key := ChainId_toString chainId in
    match instances (this w) !! key with
    | Some cached => (Return cached, w)
    | None =>
        match adapters (this w) !! key with
        | None =>
            (Throw (JSError ("No adapter registered for chain ID: "
                             +:+ ChainId_toString chainId)), w)
        | Some AdapterClass =>
            match new_ AdapterClass (heap w) with
            | (Return adapter, heap') =>
                (Return adapter,
                 {| this := {| adapters := adapters (this w);
                               instances := <[key := adapter]> (instances (this w)) |};
                    heap := heap' |})
            | (Throw e, heap') => (Throw e, {| this := this w; heap := heap' |})
            end
        end
    end.

(** [registerAdapter] (ChainAdapterFactory.ts, lines 97-105). *)
Definition registerAdapter (chainId : ChainId) (adapterFactory : Callable)
  : M World unit :=
  fun w =>
    let key := ChainId_toString chainId in
    let adapters' := <[key := adapterFactory]> (adapters (this w)) in
    let instances' :=
      if decide (is_Some (instances (this w) !! key))
      then delete key (instances (this w))
      else instances (this w) in
    (Return tt,
     {| this := {| adapters := adapters'; instances := instances' |};
        heap := heap w |}).

Definition clearCache : M World unit :=
  modify (fun w => {| this := {| adapters := adapters (this w); instances := ∅ |};
                      heap := heap w |}).

Definition zero_address : string := "0x0000000000000000000000000000000000000000".

(** [registerDefaultAdapters] (lines 22-62): every default factory is an
    arrow function. *)
Definition registerDefaultAdapters : M World unit :=
  registerAdapter (CNum 128123)
    (ArrowFunction (new_object (EVMChainAdapter 128123 "Etherlink"
       {| chainId := CNum 128123; address := zero_address; symbol := "XTZ";
          decimals := 18; standard := NATIVE |}))) ;;;
  registerAdapter (CNum 137)
    (ArrowFunction (new_object (EVMChainAdapter 137 "Polygon"
       {| chainId := CNum 137; address := zero_address; symbol := "MATIC";
          decimals := 18; standard := NATIVE |}))) ;;;
  registerAdapter (CStr "aptos-mainnet") (ArrowFunction (new_object AptosChainAdapter)) ;;;
  registerAdapter (CStr "sui-mainnet") (ArrowFunction (new_object SuiChainAdapter)) ;;;
  registerAdapter (CStr "tezos-mainnet") (ArrowFunction (new_object TezosChainAdapter)).

(** [new ChainAdapterFactory()] on a given heap: both maps start empty and
    the constructor registers the defaults. *)
Definition constructor (h : Heap) : World :=
  snd (registerDefaultAdapters
         {| this := {| adapters := ∅; instances := ∅ |}; heap := h |}).

(** [export const chainAdapterFactory = new ChainAdapterFactory()] *)
Definition chainAdapterFactory : World := constructor [].

End ChainAdapterFactory.

(** * orders/fusionOrders.ts *)

Module fusionOrders.
Import fusionUtils.

Record QuoteParams : Type := {
  srcChainId : ChainId;
  dstChainId : ChainId;
  srcTokenAddress : string;
  dstTokenAddress : string;
  qp_amount : string;
  enableEstimate : option bool;
  walletAddress : string
}.

(** What the settlement SDK hands back and takes, as far as this code looks
    into it. *)
Record Quote : Type := {
  quote_ref : nat;
  getPreset_secretsCount : Z
}.

Record PlaceOrderParams : Type := {
  po_walletAddress : string;
  po_hashLock : HashLock;
  po_secretHashes : list string
}.

(** An element of [fillsObject.fills]; all but [idx] are read through
    [(fill as any)] and may be absent. *)
Record ReadyFill : Type := {
  ready_idx : Z;
  ready_amount : option string;
  ready_txHash : option string;
  ready_resolver : option string
}.

(** [value || fallback] on an optional string. *)
Definition or_else (value : option string) (fallback : string) : string :=
  match value with
  | Some s => if decide (s = "") then fallback else s
  | None => fallback
  end.

(** Handle returned by [setInterval]. *)
Definition Timeout : Type := nat.

(** The calls that leave the process, in the order they were made. *)
Inductive Call : Type :=
| CallGetQuote (params : QuoteParams)
| CallPlaceOrder (quote : Quote) (params : PlaceOrderParams)
| CallGetOrderStatus (orderHash : string)
| CallGetReadyToAcceptSecretFills (orderHash : string)
| CallSubmitSecret (orderHash : string) (secret : option string)
| CallAdapterCancelOrder (adapter : AdapterRef) (orderHash : string).

Definition is_settlement_call (c : Call) : bool :=
  match c with
  | CallAdapterCancelOrder _ _ => false
  | _ => true
  end.

(** The external collaborators over their own state [X]: the settlement
    SDK ([this.sdk]) and the connected chain adapters. *)
Record Collaborators (X : Type) : Type := {
  sdk_getQuote : QuoteParams -> M X Quote;
  sdk_placeOrder : Quote -> PlaceOrderParams -> M X string;
  sdk_getOrderStatus : string -> M X string;
  sdk_getReadyToAcceptSecretFills : string -> M X (list ReadyFill);
  sdk_submitSecret : string -> option string -> M X unit;
  adapter_cancelOrder : AdapterRef -> string -> M X unit
}.
Arguments sdk_getQuote {X}.
Arguments sdk_placeOrder {X}.
Arguments sdk_getOrderStatus {X}.
Arguments sdk_getReadyToAcceptSecretFills {X}.
Arguments sdk_submitSecret {X}.
Arguments adapter_cancelOrder {X}.

(** The private fields of [GeneralizedFusionOrderManager] and the one
    configuration entry the embedded methods read. *)
Record Manager : Type := {
  adapters : gmap ChainId AdapterRef;
  activeOrders : gmap string UniversalOrder;
  orderSecrets : gmap string (list string);
  pollingIntervals : gmap string Timeout;
  config_maxRetries : option Z
}.

(** The whole state a method runs in: the collaborators' state, the log of
    calls made to them, the live interval timers (handle to the order each
    one ticks for), the next free handle, and the manager object. *)
Record State (X : Type) : Type := {
  ext : X;
  calls : list Call;
  timers : gmap Timeout string;
  next_timer : Timeout;
  this : Manager
}.
Arguments ext {X}.
Arguments calls {X}.
Arguments timers {X}.
Arguments next_timer {X}.
Arguments this {X}.

Section Setters.
Context {X : Type}.

Definition with_ext (f : X -> X) (st : State X) : State X :=
  {| ext := f (ext st); calls := calls st; timers := timers st;
     next_timer := next_timer st; this := this st |}.

Definition with_this (f : Manager -> Manager) (st : State X) : State X :=
  {| ext := ext st; calls := calls st; timers := timers st;
     next_timer := next_timer st; this := f (this st) |}.

Definition with_activeOrders
  (f : gmap string UniversalOrder -> gmap string UniversalOrder) (m : Manager)
  : Manager :=
  {| adapters := adapters m; activeOrders := f (activeOrders m);
     orderSecrets := orderSecrets m; pollingIntervals := pollingIntervals m;
     config_maxRetries := config_maxRetries m |}.

Definition with_orderSecrets
  (f : gmap string (list string) -> gmap string (list string)) (m : Manager)
  : Manager :=
  {| adapters := adapters m; activeOrders := activeOrders m;
     orderSecrets := f (orderSecrets m); pollingIntervals := pollingIntervals m;
     config_maxRetries := config_maxRetries m |}.

Definition with_pollingIntervals
  (f : gmap string Timeout -> gmap string Timeout) (m : Manager) : Manager :=
  {| adapters := adapters m; activeOrders := activeOrders m;
     orderSecrets := orderSecrets m; pollingIntervals := f (pollingIntervals m);
     config_maxRetries := config_maxRetries m |}.

Definition set_status (s : OrderStatus) (o : UniversalOrder) : UniversalOrder :=
  {| orderHash := orderHash o; srcChain := srcChain o; dstChain := dstChain o;
     srcAsset := srcAsset o; dstAsset := dstAsset o; amount := amount o;
     minReturn := minReturn o; maker := maker o; taker := taker o;
     deadline := deadline o; status := s; fills := fills o;
     secrets := secrets o; secretHashes := secretHashes o;
     hashLock := hashLock o |}.

Definition set_orderHash (h : string) (o : UniversalOrder) : UniversalOrder :=
  {| orderHash := h; srcChain := srcChain o; dstChain := dstChain o;
     srcAsset := srcAsset o; dstAsset := dstAsset o; amount := amount o;
     minReturn := minReturn o; maker := maker o; taker := taker o;
     deadline := deadline o; status := status o; fills := fills o;
     secrets := secrets o; secretHashes := secretHashes o;
     hashLock := hashLock o |}.

(** [order.fills.push(fill)] *)
Definition push_fill (fill : OrderFill) (o : UniversalOrder) : UniversalOrder :=
  {| orderHash := orderHash o; srcChain := srcChain o; dstChain := dstChain o;
     srcAsset := srcAsset o; dstAsset := dstAsset o; amount := amount o;
     minReturn := minReturn o; maker := maker o; taker := taker o;
     deadline := deadline o; status := status o; fills := fills o ++ [fill];
     secrets := secrets o; secretHashes := secretHashes o;
     hashLock := hashLock o |}.

(** A call to a collaborator: runs on the collaborators' state and is
    appended to the log, whether it returns or throws. *)
Definition call {A} (c : Call) (f : M X A) : M (State X) A :=
  fun st =>
    let '(r, x') := f (ext st) in
    (r, {| ext := x'; calls := calls st ++ [c]; timers := timers st;
           next_timer := next_timer st; this := this st |}).

(** [setInterval(callback, ms)] with a callback ticking for [orderHash]. *)
Definition setInterval (orderHash : string) : M (State X) Timeout :=
  fun st =>
    (Return (next_timer st),
     {| ext := ext st; calls := calls st;
        timers := <[next_timer st := orderHash]> (timers st);
        next_timer := Datatypes.S (next_timer st); this := this st |}).

Definition clearInterval (intervalId : Timeout) : M (State X) unit :=
  modify (fun st =>
    {| ext := ext st; calls := calls st;
       timers := delete intervalId (timers st);
       next_timer := next_timer st; this := this st |}).

End Setters.

(** The platform seen from a method is the platform of the outside world. *)
#[global] Instance State_Platform {X} `{Platform X} : Platform (State X) := {|
  Date_now := fun st => Date_now (ext st);
  elapse := fun ms => with_ext (elapse ms);
  randomBytes32_hex := fun st =>
    let '(hex, x') := randomBytes32_hex (ext st) in (hex, with_ext (fun _ => x') st);
  HashLock_hashSecret := HashLock_hashSecret (S := X);
  solidityPackedKeccak256_uint64_bytes32 :=
    solidityPackedKeccak256_uint64_bytes32 (S := X)
|}.

Section GeneralizedFusionOrderManager.
Context {X : Type} `{Platform X}.
Variable sdk : Collaborators X.

(** [retry(operation, this.config.maxRetries)]: an [undefined] argument
    takes the default of the parameter, [3]; [delay] defaults to [1000]. *)
Definition retry_configured {A} (operation : M (State X) A) : M (State X) A :=
  maxRetries <- gets (fun st => config_maxRetries (this st)) ;;
  retry operation (default 3 maxRetries) 1000.

(** [getQuote] (fusionOrders.ts, lines 94-108). *)
Definition getQuote (params : QuoteParams) : M (State X) Quote :=
  retry_configured (call (CallGetQuote params) (sdk_getQuote sdk params)).

(** [startOrderMonitoring] (lines 194-207). *)
Definition startOrderMonitoring (orderHash : string) : M (State X) unit :=
  intervalId <- setInterval orderHash ;;
  modify (with_this (with_pollingIntervals (insert orderHash intervalId))).

(** [stopOrderMonitoring] (lines 276-283). *)
Definition stopOrderMonitoring (orderHash : string) : M (State X) unit :=
  intervalId <- gets (fun st => pollingIntervals (this st) !! orderHash) ;;
  match intervalId with
  | Some intervalId =>
      clearInterval intervalId ;;;
      modify (with_this (with_pollingIntervals (delete orderHash)))
  | None => ret tt
  end.

(** [order.status = s].  The object read from [activeOrders] before the
    [await] is the one stored under [orderHash], so the assignment updates
    the stored order. *)
Definition assign_status (orderHash : string) (s : OrderStatus) : M (State X) unit :=
  modify (with_this (with_activeOrders (alter (set_status s) orderHash))).

(** [checkOrderStatus] (lines 212-231). *)
Definition checkOrderStatus (orderHash : string) : M (State X) unit :=
  order <- gets (fun st => activeOrders (this st) !! orderHash) ;;
  match order with
  | None => ret tt
  | Some _ =>
      try_catch
        (orderStatus <- call (CallGetOrderStatus orderHash)
                             (sdk_getOrderStatus sdk orderHash) ;;
         if decide (orderStatus = "executed") then
           assign_status orderHash EXECUTED ;;;
           stopOrderMonitoring orderHash
         else if decide (orderStatus = "cancelled") then
           assign_status orderHash CANCELLED ;;;
           stopOrderMonitoring orderHash
         else ret tt)
        (fun error => ret tt)
  end.

(** [secrets[fill.idx]]: [undefined] outside the array. *)
Definition secret_at (secrets : list string) (i : Z) : option string :=
  if i <? 0 then None else secrets !! Z.to_nat i.

(** The record pushed for a ready fill, stamped with the current time. *)
Definition fill_record (fill : ReadyFill) (now : Z) : OrderFill :=
  {| idx := ready_idx fill;
     fill_amount := or_else (ready_amount fill) "0";
     txHash := or_else (ready_txHash fill) "";
     timestamp := now / 1000;
     resolver := or_else (ready_resolver fill) "" |}.

(** The body of [for (const fill of fillsObject.fills)]. *)
Definition process_fill (orderHash : string) (secrets : list string)
  (fill : ReadyFill) : M (State X) unit :=
  try_catch
    (call (CallSubmitSecret orderHash (secret_at secrets (ready_idx fill)))
          (sdk_submitSecret sdk orderHash (secret_at secrets (ready_idx fill))) ;;;
     order <- gets (fun st => activeOrders (this st) !! orderHash) ;;
     match order with
     | Some _ =>
         now <- gets Date_now ;;
         modify (with_this (with_activeOrders
                   (alter (push_fill (fill_record fill now)) orderHash)))
     | None => ret tt
     end)
    (fun error => ret tt).

Fixpoint process_fills (orderHash : string) (secrets : list string)
  (fills : list ReadyFill) : M (State X) unit :=
  match fills with
  | [] => ret tt
  | fill :: rest =>
      process_fill orderHash secrets fill ;;;
      process_fills orderHash secrets rest
  end.

(** [processOrderFills] (lines 236-271).  The outer handler reads
    [error.response] before anything else, which throws when the value
    caught is [undefined]. *)
Definition processOrderFills (orderHash : string) : M (State X) unit :=
  secrets <- gets (fun st => orderSecrets (this st) !! orderHash) ;;
  match secrets with
  | None => ret tt
  | Some secrets =>
      try_catch
        (fillsObject <- call (CallGetReadyToAcceptSecretFills orderHash)
                             (sdk_getReadyToAcceptSecretFills sdk orderHash) ;;
         if (0 <? length fillsObject)%nat
         then process_fills orderHash secrets fillsObject
         else ret tt)
        (fun error =>
           match error with
           | JSUndefined =>
               throw (JSTypeError
                        "Cannot read properties of undefined (reading 'response')")
           | _ => ret tt
           end)
  end.

(** One firing of the interval callback of [startOrderMonitoring]
    (lines 197-204). *)
Definition tick (orderHash : string) : M (State X) unit :=
  try_catch
    (checkOrderStatus orderHash ;;;
     processOrderFills orderHash)
    (fun error => ret tt).

(** [createOrder] (lines 113-189). *)
Definition createOrder (params : QuoteParams) : M (State X) string :=
  srcAdapter <- gets (fun st => adapters (this st) !! srcChainId params) ;;
  dstAdapter <- gets (fun st => adapters (this st) !! dstChainId params) ;;
  if negb (bool_decide (is_Some srcAdapter)) || negb (bool_decide (is_Some dstAdapter))
  then throw (JSError ("Unsupported chain pair: "
                       +:+ ChainId_toString (srcChainId params) +:+ " → "
                       +:+ ChainId_toString (dstChainId params)))
  else
    quote <- getQuote params ;;
    let secretsCount := getPreset_secretsCount quote in
    generated <- generateSecretsAndHashLock secretsCount ;;
    now <- gets Date_now ;;
    let order :=
      {| orderHash := "";
         srcChain := srcChainId params;
         dstChain := dstChainId params;
         srcAsset := {| chainId := srcChainId params;
                        address := srcTokenAddress params;
                        symbol := "SRC"; decimals := 18; standard := ERC20 |};
         dstAsset := {| chainId := dstChainId params;
                        address := dstTokenAddress params;
                        symbol := "DST"; decimals := 18; standard := ERC20 |};
         amount := qp_amount params;
         minReturn := "0";
         maker := walletAddress params;
         taker := None;
         deadline := now / 1000 + 3600;
         status := CREATED;
         fills := [];
         secrets := Some (gen_secrets generated);
         secretHashes := Some (gen_secretHashes generated);
         hashLock := Some (gen_hashLock generated) |} in
    validateOrderParams (as_partial order) ;;;
    let placement :=
      {| po_walletAddress := walletAddress params;
         po_hashLock := gen_hashLock generated;
         po_secretHashes := gen_secretHashes generated |} in
    quoteResponse <- retry_configured
                       (call (CallPlaceOrder quote placement)
                             (sdk_placeOrder sdk quote placement)) ;;
    let orderHash := quoteResponse in
    let order := set_status PENDING (set_orderHash orderHash order) in
    modify (with_this (with_activeOrders (insert orderHash order))) ;;;
    modify (with_this (with_orderSecrets (insert orderHash (gen_secrets generated)))) ;;;
    startOrderMonitoring orderHash ;;;
    ret orderHash.

(** [cancelOrder] (lines 288-308). *)
Definition cancelOrder (orderHash : string) : M (State X) unit :=
  order <- gets (fun st => activeOrders (this st) !! orderHash) ;;
  match order with
  | None => throw (JSError ("Order not found: " +:+ orderHash))
  | Some order =>
      srcAdapter <- gets (fun st => adapters (this st) !! srcChain order) ;;
      match srcAdapter with
      | None => throw (JSError ("No adapter for source chain: "
                                +:+ ChainId_toString (srcChain order)))
      | Some srcAdapter =>
          try_catch
            (call (CallAdapterCancelOrder srcAdapter orderHash)
                  (adapter_cancelOrder sdk srcAdapter orderHash) ;;;
             assign_status orderHash CANCELLED ;;;
             stopOrderMonitoring orderHash)
            (fun error => throw error)
      end
  end.

Definition getOrder (orderHash : string) : M (State X) (option UniversalOrder) :=
  gets (fun st => activeOrders (this st) !! orderHash).

End GeneralizedFusionOrderManager.

End fusionOrders.

(** * Instrumentation and test doubles *)

(** An operation wrapped so that the outcome of every invocation is appended
    to a history kept next to the state.  The platform does not see the
    history. *)
Module Recording.

Definition recording {S T} (operation : M S T) : M (S * list (Outcome T)) T :=
  fun '(s, history) =>
    let '(r, s') := operation s in (r, (s', history ++ [r])).

#[global] Instance Recorded_Platform {S L} `{Platform S} : Platform (S * L) := {|
  Date_now := fun '(s, _) => Date_now s;
  elapse := fun ms '(s, l) => (elapse ms s, l);
  randomBytes32_hex := fun '(s, l) =>
    let '(hex, s') := randomBytes32_hex s in (hex, (s', l));
  HashLock_hashSecret := HashLock_hashSecret (S := S);
  solidityPackedKeccak256_uint64_bytes32 :=
    solidityPackedKeccak256_uint64_bytes32 (S := S)
|}.

Definition is_throw {T} (r : Outcome T) : Prop :=
  match r with Throw _ => True | Return _ => False end.

End Recording.

(** A simulated outside world: a clock in milliseconds, a counter driving the
    random source, and the number of settlement calls answered so far. *)
Module Sim.
Import fusionUtils fusionOrders.

Record World : Type := {
  clock : Z;
  entropy : nat;
  answered : nat
}.

(** 64 hex digits naming the [n]-th draw. *)
Definition hex64 (n : nat) : string :=
  let digits := pretty (Z.of_nat n) in
  String.concat "" (replicate (64 - String.length digits) "0") +:+ digits.

#[global] Instance Sim_Platform : Platform World := {|
  Date_now := clock;
  elapse := fun ms w =>
    {| clock := clock w + ms; entropy := entropy w; answered := answered w |};
  randomBytes32_hex := fun w =>
    (hex64 (entropy w),
     {| clock := clock w; entropy := Datatypes.S (entropy w); answered := answered w |});
  HashLock_hashSecret := fun secret => "hash(" +:+ secret +:+ ")";
  solidityPackedKeccak256_uint64_bytes32 := fun i secretHash =>
    "keccak(" +:+ pretty i +:+ "," +:+ secretHash +:+ ")"
|}.

(** An answer that may depend on how many calls were answered before. *)
Definition answer {A} (script : nat -> Outcome A) : M World A :=
  fun w =>
    (script (answered w),
     {| clock := clock w; entropy := entropy w;
        answered := Datatypes.S (answered w) |}).

(** A settlement double whose every entry point follows a script. *)
Definition scripted
  (quote : nat -> Outcome Quote) (placed : nat -> Outcome string)
  (reported : nat -> Outcome string) (ready : nat -> Outcome (list ReadyFill))
  (submitted : nat -> Outcome unit) (cancelled : nat -> Outcome unit)
  : Collaborators World :=
  {| sdk_getQuote := fun _ => answer quote;
     sdk_placeOrder := fun _ _ => answer placed;
     sdk_getOrderStatus := fun _ => answer reported;
     sdk_getReadyToAcceptSecretFills := fun _ => answer ready;
     sdk_submitSecret := fun _ _ => answer submitted;
     adapter_cancelOrder := fun _ _ => answer cancelled |}.

Definition unavailable : Thrown := Rejection (Some 503) "service unavailable".

Definition start : World := {| clock := 1700000000000; entropy := 0; answered := 0 |}.

(** Fails on its first two invocations, then succeeds. *)
Definition flaky : M World string :=
  answer (fun n => if (n <? 2)%nat then Throw unavailable else Return "ok").

Definition always_failing : M World string :=
  answer (fun n => Throw (Rejection (Some 503) (pretty (Z.of_nat n)))).

Definition usdc (c : ChainId) : UniversalAsset :=
  {| chainId := c; address := "0xaf88d065e77c8cC2239327C5EDb6E08f4c7C32D4";
     symbol := "USDC"; decimals := 6; standard := ERC20 |}.

(** A stored order on Arbitrum to Base, as [createOrder] leaves it. *)
Definition order (hash : string) (s : OrderStatus) (fs : list OrderFill)
  : UniversalOrder :=
  {| orderHash := hash; srcChain := CNum 42161; dstChain := CNum 8453;
     srcAsset := usdc (CNum 42161); dstAsset := usdc (CNum 8453);
     amount := "1000000"; minReturn := "0"; maker := "0xMaker"; taker := None;
     deadline := 1700003600; status := s; fills := fs;
     secrets := Some ["0x" +:+ hex64 0];
     secretHashes := Some ["hash(0x" +:+ hex64 0 +:+ ")"];
     hashLock := Some (forSingleFill (Some ("0x" +:+ hex64 0))) |}.

(** A manager connected to Arbitrum (adapter 0) and Base (adapter 1). *)
Definition manager (orders : gmap string UniversalOrder)
  (secrets : gmap string (list string)) (polling : gmap string Timeout)
  : Manager :=
  {| adapters := {[ CNum 42161 := 0%nat; CNum 8453 := 1%nat ]};
     activeOrders := orders; orderSecrets := secrets;
     pollingIntervals := polling; config_maxRetries := Some 3 |}.

(** A state monitoring one order ["0xorder"] through timer 0. *)
Definition monitoring (s : OrderStatus) (fs : list OrderFill) : State World :=
  {| ext := start; calls := [];
     timers := {[ 0%nat := "0xorder" ]}; next_timer := 1%nat;
     this := manager {[ "0xorder" := order "0xorder" s fs ]}
                     {[ "0xorder" := ["0x" +:+ hex64 0] ]}
                     {[ "0xorder" := 0%nat ]} |}.

(** A manager with no order yet. *)
Definition idle : State World :=
  {| ext := start; calls := []; timers := ∅; next_timer := 0%nat;
     this := manager ∅ ∅ ∅ |}.

Definition ready0 : ReadyFill :=
  {| ready_idx := 0; ready_amount := Some "500"; ready_txHash := Some "0xabc";
     ready_resolver := Some "R1" |}.

Definition swap (amt : string) : QuoteParams :=
  {| srcChainId := CNum 42161; dstChainId := CNum 8453;
     srcTokenAddress := "0xaf88d065e77c8cC2239327C5EDb6E08f4c7C32D4";
     dstTokenAddress := "0x833589fCD6eDb6E08f4c7C32D4f71b54bdA02913";
     qp_amount := amt; enableEstimate := None; walletAddress := "0xMaker" |}.

Definition quote1 : Quote := {| quote_ref := 7; getPreset_secretsCount := 1 |}.

(** A settlement double that always quotes one secret, places the order as
    ["0xorder"], reports the given status and ready fills, accepts every
    secret, and whose adapters answer cancellation with [cancelled]. *)
Definition service (reported : string) (ready : list ReadyFill)
  (cancelled : Outcome unit) : Collaborators World :=
  scripted (fun _ => Return quote1) (fun _ => Return "0xorder")
           (fun _ => Return reported) (fun _ => Return ready)
           (fun _ => Return tt) (fun _ => cancelled).

(** The same double, except that it reports ["executed"] for its first
    three answers (the calls of one tick with one ready fill) and
    ["cancelled"] from then on. *)
Definition reversing (ready : list ReadyFill) : Collaborators World :=
  scripted (fun _ => Return quote1) (fun _ => Return "0xorder")
           (fun n => Return (if (n <? 3)%nat then "executed" else "cancelled"))
           (fun _ => Return ready) (fun _ => Return tt) (fun _ => Return tt).

(** The outside world after [n] answered calls, no time having passed. *)
Definition after (n : nat) : World :=
  {| clock := 1700000000000; entropy := 0; answered := n |}.

(** An order with every validated property present, a deadline one hour
    after [start], and the given amount. *)
Definition intent (amt : string) : PartialUniversalOrder :=
  {| p_srcChain := Some (CNum 42161); p_dstChain := Some (CNum 8453);
     p_srcAsset := Some (usdc (CNum 42161)); p_dstAsset := Some (usdc (CNum 8453));
     p_amount := Some amt; p_maker := Some "0xMaker";
     p_deadline := Some 1700003600 |}.

End Sim.

(** Registrations for the adapter registry that are not the defaults. *)
Module SimRegistry.
Import ChainAdapterFactory.

(** A factory written as a [function] expression or a class. *)
Definition custom (className : string) : Callable :=
  Constructor (new_object (CustomAdapter className)).

(** The singleton after [registerAdapter(1, custom "Mainnet")]. *)
Definition with_mainnet : World :=
  snd (registerAdapter (CNum 1) (custom "Mainnet") chainAdapterFactory).

(** ... and after a first [createAdapter(1)]. *)
Definition with_mainnet_cached : World :=
  snd (createAdapter (CNum 1) with_mainnet).

End SimRegistry.

(** * Properties of the retry policy *)

Module RetryFacts.
Import fusionUtils Recording.

Section Facts.
Context {S T : Type} `{Platform S}.
Variable operation : M S T.
Variable delay : Z.

(** The error a run of failures leaves in [lastError]. *)
Definition final_error (attempts : list (Outcome T)) (lastError : option Thrown)
  : option Thrown :=
  foldl (fun acc r => match r with Throw e => Some e | Return _ => acc end)
        lastError attempts.

Lemma final_error_last attempts lastError :
  attempts <> [] -> Forall is_throw attempts ->
  exists e, last attempts = Some (Throw e)
            /\ final_error attempts lastError = Some e.
Proof.
  revert lastError.
  induction attempts as [|r rest IH]; intros lastError Hne Hall; [done|].
  inversion Hall as [|? ? Hr Hrest]; subst.
  destruct r as [v|e]; [contradiction|].
  destruct rest as [|r' rest'].
  - exists e. split; reflexivity.
  - destruct (IH (Some e)) as (e' & Hlast & Hfin); [done|assumption|].
    exists e'. split; [exact Hlast|exact Hfin].
Qed.

(** The loop, run on the recording operation, extends the history by one
    entry per invocation; if all of them are failures, it ran every
    remaining iteration and threw what [lastError] then held. *)
Lemma retry_loop_recording maxRetries remaining :
  forall i lastError s history r s' history',
    retry_loop (recording operation) maxRetries delay remaining i lastError
               (s, history) = (r, (s', history')) ->
    exists attempts,
      history' = history ++ attempts
      /\ (Forall is_throw attempts ->
          length attempts = remaining
          /\ r = Throw (default JSUndefined (final_error attempts lastError))).
Proof.
  induction remaining as [|k IH]; intros i lastError s history r s' history' Hrun.
  - cbn in Hrun. injection Hrun as <- <- <-.
    exists []. rewrite app_nil_r. auto.
  - cbn in Hrun. destruct (operation s) as [[v|e] s1] eqn:Hop.
    + injection Hrun as <- <- <-.
      exists [Return v]. split; [reflexivity|].
      intros Hall. inversion Hall as [|? ? Hv _]. contradiction.
    + destruct (i <? maxRetries - 1); cbn in Hrun;
        apply IH in Hrun as (attempts & -> & Hrest);
        exists (Throw e :: attempts);
        (split; [by rewrite <- app_assoc|]);
        intros Hall; inversion Hall as [|? ? _ Hall']; subst;
        destruct (Hrest Hall') as [Hlen ->]; cbn; auto.
Qed.

End Facts.

(** C4. [retry] with [maxRetries = 3] on an operation whose first two
    invocations fail and whose third succeeds returns that third result; and
    for every [maxRetries >= 1], a run of [retry] in which every invocation
    of the operation failed made exactly [maxRetries] invocations and threw
    the error of the last one. *)
Theorem retry_returns_or_exhausts
  {S T : Type} `{Platform S} (operation : M S T) (delay : Z) :
  (forall s0 e1 s1 e2 s2 v s3,
      operation s0 = (Throw e1, s1) ->
      operation (elapse (delay * 2 ^ 0) s1) = (Throw e2, s2) ->
      operation (elapse (delay * 2 ^ 1) s2) = (Return v, s3) ->
      retry operation 3 delay s0 = (Return v, s3))
  /\
  (forall maxRetries s r s' history,
      1 <= maxRetries ->
      retry (recording operation) maxRetries delay (s, []) = (r, (s', history)) ->
      Forall is_throw history ->
      length history = Z.to_nat maxRetries
      /\ exists e, last history = Some (Throw e) /\ r = Throw e).
Proof.
  split.
  - intros s0 e1 s1 e2 s2 v s3 H1 H2 H3.
    unfold retry. change (Z.to_nat 3) with 3%nat.
    cbn [retry_loop]. rewrite H1.
    change (0 <? 3 - 1) with true. cbv zeta. unfold sleep, modify. cbn [snd].
    rewrite H2.
    change (0 + 1 <? 3 - 1) with true. change (0 + 1) with 1. cbn [snd].
    rewrite H3. reflexivity.
  - intros maxRetries s r s' history Hpos Hrun Hall.
    unfold retry in Hrun.
    apply retry_loop_recording in Hrun as (attempts & Heq & Hspec).
    cbn in Heq. subst history.
    destruct (Hspec Hall) as [Hlen ->]. split; [exact Hlen|].
    destruct (final_error_last attempts None) as (e & Hlast & Hfin).
    + intros ->. cbn in Hlen. lia.
    + exact Hall.
    + exists e. rewrite Hfin. auto.
Qed.

Lemma retry_returns_or_exhausts_witness :
  retry Sim.flaky 3 1000 Sim.start
  = (Return "ok", {| Sim.clock := 1700000003000; Sim.entropy := 0; Sim.answered := 3 |})
  /\ (length [Throw (Rejection (Some 503) "0"); Throw (Rejection (Some 503) "1");
              Throw (Rejection (Some 503) "2") : Outcome string] = Z.to_nat 3
      /\ exists e,
          last [Throw (Rejection (Some 503) "0"); Throw (Rejection (Some 503) "1");
                Throw (Rejection (Some 503) "2") : Outcome string] = Some (Throw e)
          /\ Throw (Rejection (Some 503) "2") = Throw (A := string) e).
Proof.
  split.
  - apply (proj1 (retry_returns_or_exhausts Sim.flaky 1000)
             Sim.start
             Sim.unavailable
             {| Sim.clock := 1700000000000; Sim.entropy := 0; Sim.answered := 1 |}
             Sim.unavailable
             {| Sim.clock := 1700000001000; Sim.entropy := 0; Sim.answered := 2 |});
      reflexivity.
  - apply (proj2 (retry_returns_or_exhausts Sim.always_failing 1000)
             3 Sim.start (Throw (Rejection (Some 503) "2"))
             {| Sim.clock := 1700000003000; Sim.entropy := 0; Sim.answered := 3 |}).
    + lia.
    + reflexivity.
    + repeat constructor.
Defined.

End RetryFacts.

(** * Properties of order validation *)

Module ValidationFacts.
Import fusionUtils.

(** The conditions under which [validateOrderParams] throws, given the
    current time in milliseconds: a required property is absent or falsy
    (zero or the empty string), the amount is not an integer literal, the
    amount is at most zero, or the deadline is not after the current second. *)
Definition rejected (order : PartialUniversalOrder) (now : Z) : Prop :=
  (exists field, field ∈ required /\ falsy (get_field order field) = true)
  \/ (exists str, p_amount order = Some str /\ JS.StringToBigInt str = None)
  \/ (exists str n, p_amount order = Some str
                    /\ JS.StringToBigInt str = Some n /\ n <= 0)
  \/ (exists d, p_deadline order = Some d /\ d <= now / 1000).

(** The three conditions as the specification words them: a required
    property is missing, the amount is a number that is not positive, the
    deadline is not strictly in the future. *)
Definition field_missing (order : PartialUniversalOrder) : Prop :=
  p_srcChain order = None \/ p_dstChain order = None
  \/ p_srcAsset order = None \/ p_dstAsset order = None
  \/ p_amount order = None \/ p_maker order = None \/ p_deadline order = None.

Definition amount_not_positive (order : PartialUniversalOrder) : Prop :=
  exists str n, p_amount order = Some str
                /\ JS.StringToBigInt str = Some n /\ n <= 0.

Definition deadline_not_future (order : PartialUniversalOrder) (now : Z) : Prop :=
  exists d, p_deadline order = Some d /\ d <= now / 1000.

(** The errors [validateOrderParams] raises itself, the specification's
    [InvalidOrder]. *)
Definition InvalidOrder (e : Thrown) : Prop :=
  (exists field, field ∈ required
                 /\ e = JSError ("Missing required field: " +:+ field))
  \/ e = JSError "Amount must be positive"
  \/ e = JSError "Deadline must be in the future".

Section Facts.
Context {S : Type} `{Platform S}.

Lemma check_required_passes order fields (s : S) :
  (forall field, field ∈ fields -> falsy (get_field order field) = false) ->
  check_required order fields s = (Return tt, s).
Proof.
  induction fields as [|field rest IH]; intros Hall; [reflexivity|].
  cbn. rewrite (Hall field) by apply list_elem_of_here.
  apply IH. intros f Hf. apply Hall. by apply list_elem_of_further.
Qed.

Lemma check_required_throws order fields (s : S) :
  (exists field, field ∈ fields /\ falsy (get_field order field) = true) ->
  exists field, field ∈ fields
                /\ check_required order fields s
                   = (Throw (JSError ("Missing required field: " +:+ field)), s).
Proof.
  induction fields as [|field rest IH]; intros (f & Hin & Hf).
  - by apply elem_of_nil in Hin.
  - cbn. destruct (falsy (get_field order field)) eqn:Hfield.
    + exists field. split; [apply list_elem_of_here|reflexivity].
    + apply elem_of_cons in Hin as [->|Hin]; [congruence|].
      destruct IH as (f' & Hin' & Hrun); [by exists f|].
      exists f'. split; [by apply list_elem_of_further|exact Hrun].
Qed.

Lemma required_decision order :
  (exists field, field ∈ required /\ falsy (get_field order field) = true)
  \/ (forall field, field ∈ required -> falsy (get_field order field) = false).
Proof.
  destruct (decide (Exists (fun f => falsy (get_field order f) = true) required))
    as [Hex|Hno].
  - left. by apply Exists_exists in Hex.
  - right. intros field Hin.
    destruct (falsy (get_field order field)) eqn:Hf; [|reflexivity].
    exfalso. apply Hno, Exists_exists. by exists field.
Qed.

(** What [validateOrderParams] computes, branch by branch. *)
Lemma validateOrderParams_cases order (s : S) :
  (rejected order (Date_now s)
   /\ exists e, validateOrderParams order s = (Throw e, s))
  \/ (~ rejected order (Date_now s)
      /\ validateOrderParams order s = (Return true, s)).
Proof.
  unfold validateOrderParams, bind.
  destruct (required_decision order) as [Hmiss|Hpresent].
  { left. split; [by left|].
    destruct (check_required_throws order required s Hmiss) as (f & _ & ->).
    eauto. }
  rewrite check_required_passes by exact Hpresent.
  assert (Hamount : falsy (get_field order "amount") = false)
    by (apply Hpresent; unfold required; set_solver).
  assert (Hdeadline : falsy (get_field order "deadline") = false)
    by (apply Hpresent; unfold required; set_solver).
  change (get_field order "amount") with (VString <$> p_amount order) in Hamount.
  change (get_field order "deadline") with (VNumber <$> p_deadline order)
    in Hdeadline.
  destruct (p_amount order) as [str|] eqn:Hstr; [|discriminate].
  destruct (p_deadline order) as [d|] eqn:Hd; [|discriminate].
  cbn. destruct (JS.StringToBigInt str) as [n|] eqn:Hparse.
  2:{ left. split; [right; left; by exists str|]. cbn. eauto. }
  cbn. destruct (n <=? 0) eqn:Hn.
  { left. split; [|cbn; eauto].
    right; right; left. exists str, n. repeat split; [done..|lia]. }
  cbn. unfold gets. destruct (d <=? Date_now s / 1000) eqn:Hdl.
  { left. split; [|cbn; eauto].
    right; right; right. exists d. split; [done|lia]. }
  right. split; [|reflexivity].
  intros [(f & Hin & Hf)|[(str' & Hs & Hp)|[(str' & n' & Hs & Hp & Hle)|(d' & Hd' & Hle)]]].
  - rewrite Hpresent in Hf by exact Hin. discriminate.
  - congruence.
  - assert (n' = n) by congruence. subst. lia.
  - assert (d' = d) by congruence. subst. lia.
Qed.

(** An order whose amount is ["0"] is refused with [InvalidOrder]. *)
Lemma validateOrderParams_zero_amount order (s : S) :
  p_amount order = Some "0" ->
  exists e, validateOrderParams order s = (Throw e, s) /\ InvalidOrder e.
Proof.
  intros Hzero. unfold validateOrderParams, bind.
  destruct (required_decision order) as [Hmiss|Hpresent].
  - destruct (check_required_throws order required s Hmiss) as (f & Hin & ->).
    eexists. split; [reflexivity|]. left. by exists f.
  - rewrite check_required_passes by exact Hpresent.
    rewrite Hzero. cbn. eexists. split; [reflexivity|]. right. by left.
Qed.

(** So is an order whose amount reads as any integer that is not
    positive. *)
Lemma validateOrderParams_nonpositive_amount order (s : S) str n :
  p_amount order = Some str ->
  JS.StringToBigInt str = Some n ->
  n <= 0 ->
  exists e, validateOrderParams order s = (Throw e, s) /\ InvalidOrder e.
Proof.
  intros Hstr Hparse Hle. unfold validateOrderParams, bind.
  destruct (required_decision order) as [Hmiss|Hpresent].
  - destruct (check_required_throws order required s Hmiss) as (f & Hin & ->).
    eexists. split; [reflexivity|]. left. by exists f.
  - rewrite check_required_passes by exact Hpresent.
    rewrite Hstr. cbn. rewrite Hparse. cbn.
    replace (n <=? 0) with true by (symmetry; apply Z.leb_le; lia).
    eexists. split; [reflexivity|]. right. by left.
Qed.

End Facts.

(** C9, as the code has it.  [validateOrderParams] throws exactly when a
    required property is absent or falsy, or the amount is not an integer
    literal, or the amount is at most zero, or the deadline is not after the
    current second; otherwise it returns [true].  It never changes the
    state. *)
Theorem validateOrderParams_throws_iff_rejected
  {S : Type} `{Platform S} (order : PartialUniversalOrder) (s : S) :
  ((exists e, validateOrderParams order s = (Throw e, s))
   <-> rejected order (Date_now s))
  /\ (validateOrderParams order s = (Return true, s)
      <-> ~ rejected order (Date_now s)).
Proof.
  destruct (validateOrderParams_cases order s) as [[Hrej (e & Hrun)]|[Hok Hrun]].
  - split; split.
    + intros _. exact Hrej.
    + intros _. by exists e.
    + rewrite Hrun. discriminate.
    + intros Hno. contradiction.
  - split; split.
    + intros (e & He). rewrite Hrun in He. discriminate.
    + intros Hrej. contradiction.
    + intros _. exact Hok.
    + intros _. exact Hrun.
Qed.

(** C9, as stated, fails: with every required property present, the amount
    ["1.5"] and a deadline one hour ahead, none of the three stated conditions
    holds, and [validateOrderParams] throws all the same. *)
Lemma validateOrderParams_decimal_amount_throws :
  validateOrderParams (Sim.intent "1.5") Sim.start
  = (Throw (JSSyntaxError "Cannot convert 1.5 to a BigInt"), Sim.start)
  /\ ~ (field_missing (Sim.intent "1.5")
        \/ amount_not_positive (Sim.intent "1.5")
        \/ deadline_not_future (Sim.intent "1.5") (Date_now Sim.start)).
Proof.
  split; [reflexivity|].
  intros [Hmiss|[(str & n & Hs & Hp & _)|(d & Hd & Hle)]].
  - unfold field_missing in Hmiss. cbn in Hmiss.
    repeat destruct Hmiss as [Hmiss|Hmiss]; discriminate.
  - cbn in Hs. injection Hs as <-. vm_compute in Hp. discriminate.
  - cbn in Hd. injection Hd as <-. vm_compute in Hle. by apply Hle.
Qed.

End ValidationFacts.

(** * Properties of secret generation *)

Module SecretsFacts.
Import fusionUtils.

Section Facts.
Context {S : Type} `{Platform S}.

(** Drawing [n] secrets always returns, with exactly [n] of them. *)
Lemma random_secrets_returns (n : nat) (s : S) :
  exists xs s', random_secrets n s = (Return xs, s') /\ length xs = n.
Proof.
  revert s. induction n as [|n IH]; intros s.
  - exists [], s. split; reflexivity.
  - cbn. unfold bind, getRandomBytes32.
    destruct (randomBytes32_hex s) as [hex s1].
    destruct (IH s1) as (xs & s2 & -> & Hlen).
    exists (("0x" +:+ hex) :: xs), s2. cbn. split; [reflexivity|]. by rewrite Hlen.
Qed.

(** The commitment requested for [secrets] when [secretsCount] were asked
    for. *)
Definition commitment (secretsCount : Z) (secrets : list string) : HashLock :=
  if decide (secretsCount = 1)
  then forSingleFill (secrets !! 0%nat)
  else forMultipleFills
         (imap (fun i secretHash =>
                  solidityPackedKeccak256_uint64_bytes32 (Z.of_nat i) secretHash)
               (map HashLock_hashSecret secrets)).

(** [generateSecretsAndHashLock] draws its secrets, then returns for one
    secret and for three or more, and throws the SDK's assertion error for
    two and for none. *)
Lemma generateSecretsAndHashLock_run (secretsCount : Z) (s : S) :
  exists secrets s',
    random_secrets (Z.to_nat secretsCount) s = (Return secrets, s')
    /\ length secrets = Z.to_nat secretsCount
    /\ generateSecretsAndHashLock secretsCount s
       = if decide (secretsCount = 1 \/ 3 <= secretsCount)
         then (Return {| gen_secrets := secrets;
                         gen_secretHashes := map HashLock_hashSecret secrets;
                         gen_hashLock := commitment secretsCount secrets |}, s')
         else (Throw (JSError
                        "leaves array must be greater than 2. Or use HashLock.forSingleFill"),
               s').
Proof.
  destruct (random_secrets_returns (Z.to_nat secretsCount) s)
    as (secrets & s' & Hdrawn & Hlen).
  exists secrets, s'. split; [exact Hdrawn|]. split; [exact Hlen|].
  unfold generateSecretsAndHashLock, bind, commitment. rewrite Hdrawn.
  destruct (decide (secretsCount = 1)) as [->|Hne].
  - by rewrite decide_True by (by left).
  - unfold HashLock_forMultipleFills. rewrite length_imap, length_map, Hlen.
    destruct (decide (secretsCount = 1 \/ 3 <= secretsCount)) as [[?|Hmany]|Hfew];
      [done| |].
    + by replace (2 <? Z.to_nat secretsCount)%nat with true
        by (symmetry; apply Nat.ltb_lt; lia).
    + by replace (2 <? Z.to_nat secretsCount)%nat with false
        by (symmetry; apply Nat.ltb_ge; lia).
Qed.

End Facts.

(** C8, as the code has it.  For [secretsCount = 1] and for every
    [secretsCount >= 3], [generateSecretsAndHashLock] returns [secretsCount]
    secrets and [secretsCount] hashes, the [i]-th hash being the hash of the
    [i]-th secret; for [secretsCount = 1] the commitment is [forSingleFill]
    of the one secret, and for [secretsCount >= 3] it is [forMultipleFills] of
    one leaf per index [i], the packed hash of [i] and the [i]-th secret
    hash.  For [secretsCount = 2] the two secrets are drawn, the SDK refuses
    the two leaves, and [generateSecretsAndHashLock] throws its assertion
    error. *)
Theorem generateSecretsAndHashLock_shape
  {S : Type} `{Platform S} (secretsCount : Z) (s : S) :
  1 <= secretsCount ->
  (secretsCount <> 2 ->
   exists r s',
     generateSecretsAndHashLock secretsCount s = (Return r, s')
     /\ length (gen_secrets r) = Z.to_nat secretsCount
     /\ length (gen_secretHashes r) = Z.to_nat secretsCount
     /\ (forall i : nat,
           gen_secretHashes r !! i = HashLock_hashSecret <$> gen_secrets r !! i)
     /\ (secretsCount = 1 ->
         exists secret, gen_secrets r = [secret]
                        /\ gen_hashLock r = forSingleFill (Some secret))
     /\ (1 < secretsCount ->
         exists leaves,
           gen_hashLock r = forMultipleFills leaves
           /\ length leaves = Z.to_nat secretsCount
           /\ forall i : nat,
               leaves !! i
               = solidityPackedKeccak256_uint64_bytes32 (Z.of_nat i)
                   <$> gen_secretHashes r !! i))
  /\ (secretsCount = 2 ->
      exists secrets s',
        random_secrets 2 s = (Return secrets, s')
        /\ generateSecretsAndHashLock secretsCount s
           = (Throw (JSError
                       "leaves array must be greater than 2. Or use HashLock.forSingleFill"),
              s')).
Proof.
  intros Hpos. unfold generateSecretsAndHashLock, bind.
  destruct (random_secrets_returns (Z.to_nat secretsCount) s)
    as (secrets & s' & Hdrawn & Hlen).
  split.
  - intros Hnot2. rewrite Hdrawn.
    destruct (decide (secretsCount = 1)) as [->|Hmany].
    + change (Z.to_nat 1) with 1%nat in Hlen.
      destruct secrets as [|secret [|? ?]]; try discriminate.
      eexists _, s'. split; [reflexivity|]. cbn.
      split_and!; try reflexivity.
      * intros [|i]; reflexivity.
      * intros _. by exists secret.
      * lia.
    + unfold HashLock_forMultipleFills.
      rewrite length_imap, length_map, Hlen.
      replace (2 <? Z.to_nat secretsCount)%nat with true
        by (symmetry; apply Nat.ltb_lt; lia).
      eexists _, s'. split; [reflexivity|]. cbn.
      split; [exact Hlen|].
      split; [by rewrite length_map|].
      split; [intros i; apply list_lookup_fmap|].
      split; [intros ->; contradiction|].
      intros _. eexists. split; [reflexivity|].
      split; [by rewrite length_imap, length_map|].
      intros i. by rewrite list_lookup_imap.
  - intros ->. change (Z.to_nat 2) with 2%nat in *.
    exists secrets, s'. split; [exact Hdrawn|]. rewrite Hdrawn.
    destruct (decide (2 = 1)) as [Habs|_]; [discriminate|].
    unfold HashLock_forMultipleFills. by rewrite length_imap, length_map, Hlen.
Qed.

Lemma generateSecretsAndHashLock_shape_witness :
  (exists r s',
      generateSecretsAndHashLock 3 Sim.start = (Return r, s')
      /\ length (gen_secrets r) = Z.to_nat 3
      /\ length (gen_secretHashes r) = Z.to_nat 3
      /\ (forall i : nat,
            gen_secretHashes r !! i = HashLock_hashSecret <$> gen_secrets r !! i)
      /\ (3 = 1 ->
          exists secret, gen_secrets r = [secret]
                         /\ gen_hashLock r = forSingleFill (Some secret))
      /\ (1 < 3 ->
          exists leaves,
            gen_hashLock r = forMultipleFills leaves
            /\ length leaves = Z.to_nat 3
            /\ forall i : nat,
                leaves !! i
                = solidityPackedKeccak256_uint64_bytes32 (Z.of_nat i)
                    <$> gen_secretHashes r !! i))
  /\ (exists secrets s',
         random_secrets 2 Sim.start = (Return secrets, s')
         /\ generateSecretsAndHashLock 2 Sim.start
            = (Throw (JSError
                        "leaves array must be greater than 2. Or use HashLock.forSingleFill"),
               s')).
Proof.
  split.
  - apply (generateSecretsAndHashLock_shape 3 Sim.start); lia.
  - apply (generateSecretsAndHashLock_shape 2 Sim.start); [lia|reflexivity].
Defined.

(** C8, as stated, fails at [secretsCount = 2]: no secrets, hashes or
    commitment are returned; the call throws. *)
Lemma generateSecretsAndHashLock_two_throws :
  (exists e s', generateSecretsAndHashLock 2 Sim.start = (Throw e, s'))
  /\ ~ exists r s', generateSecretsAndHashLock 2 Sim.start = (Return r, s').
Proof.
  split.
  - eexists _, _. vm_compute. reflexivity.
  - intros (r & s' & Hrun). vm_compute in Hrun. discriminate.
Qed.

End SecretsFacts.

(** * Properties of the adapter registry *)

Module RegistryFacts.
Import ChainAdapterFactory.

(** Every cached instance was built by a registered factory. *)
Definition cache_backed (w : World) : Prop :=
  forall key, is_Some (instances (this w) !! key) -> is_Some (adapters (this w) !! key).

(** A second [createAdapter] for the same id returns the instance the first
    one returned and changes nothing. *)
Lemma createAdapter_cached chainId w adapter w' :
  createAdapter chainId w = (Return adapter, w') ->
  createAdapter chainId w' = (Return adapter, w').
Proof.
  unfold createAdapter. intros Hrun.
  destruct (instances (this w) !! ChainId_toString chainId) as [cached|] eqn:Hc.
  - injection Hrun as <- <-. by rewrite Hc.
  - destruct (adapters (this w) !! ChainId_toString chainId) as [cls|]; [|discriminate].
    destruct (new_ cls (heap w)) as [[a|e] heap']; [|discriminate].
    injection Hrun as <- <-. cbn. by rewrite lookup_insert_eq.
Qed.

(** [registerAdapter] installs the factory and empties the cache slot. *)
Lemma registerAdapter_effect chainId factory w :
  exists w',
    registerAdapter chainId factory w = (Return tt, w')
    /\ adapters (this w') !! ChainId_toString chainId = Some factory
    /\ instances (this w') !! ChainId_toString chainId = None
    /\ heap w' = heap w.
Proof.
  eexists. split; [reflexivity|]. cbn.
  split; [apply lookup_insert_eq|]. split; [|reflexivity].
  destruct (decide (is_Some (instances (this w) !! ChainId_toString chainId)))
    as [Hs|Hn].
  - apply lookup_delete_eq.
  - by apply eq_None_not_Some.
Qed.

(** After [registerAdapter], [createAdapter] applies [new] to the factory
    just registered: it returns what that yields, or throws what it throws. *)
Lemma createAdapter_after_register chainId factory w w1 :
  registerAdapter chainId factory w = (Return tt, w1) ->
  fst (createAdapter chainId w1) = fst (new_ factory (heap w1)).
Proof.
  intros Hreg.
  destruct (registerAdapter_effect chainId factory w) as (w' & Hrun & Hf & Hi & _).
  rewrite Hrun in Hreg. injection Hreg as <-.
  unfold createAdapter. rewrite Hi, Hf.
  by destruct (new_ factory (heap w')) as [[a|e] heap'].
Qed.

(** A freshly allocated object is none of the objects allocated before. *)
Lemma new_object_fresh o (h : Heap) :
  exists a, new_object o h = (Return a, h ++ [o]) /\ h !! a = None
            /\ (h ++ [o]) !! a = Some o.
Proof.
  exists (length h). split; [reflexivity|]. split.
  - apply lookup_ge_None. lia.
  - rewrite lookup_app_r by lia. by rewrite Nat.sub_diag.
Qed.

(** An id with no registered factory is refused. *)
Lemma createAdapter_unregistered chainId w :
  cache_backed w ->
  adapters (this w) !! ChainId_toString chainId = None ->
  createAdapter chainId w
  = (Throw (JSError ("No adapter registered for chain ID: "
                     +:+ ChainId_toString chainId)), w).
Proof.
  intros Hinv Hnone. unfold createAdapter.
  destruct (instances (this w) !! ChainId_toString chainId) eqn:Hc.
  - destruct (Hinv (ChainId_toString chainId)) as [cls Hcls]; [by rewrite Hc|].
    congruence.
  - by rewrite Hnone.
Qed.

(** [new] on an arrow function throws, whatever its body. *)
Lemma createAdapter_arrow chainId body w :
  instances (this w) !! ChainId_toString chainId = None ->
  adapters (this w) !! ChainId_toString chainId = Some (ArrowFunction body) ->
  createAdapter chainId w
  = (Throw (JSTypeError "AdapterClass is not a constructor"), w).
Proof.
  intros Hc Hf. unfold createAdapter. rewrite Hc, Hf. cbn. by destruct w.
Qed.

(** C7, on the registry the module exports.  Polygon (137) is registered by
    default, with an arrow function as its factory; [createAdapter(137)]
    applies [new] to it and throws a [TypeError].  No instance is returned
    or cached, so a second call does the same. *)
Theorem createAdapter_default_chain_throws :
  createAdapter (CNum 137) chainAdapterFactory
  = (Throw (JSTypeError "AdapterClass is not a constructor"), chainAdapterFactory)
  /\ instances (this chainAdapterFactory) !! "137" = None
  /\ is_Some (adapters (this chainAdapterFactory) !! "137").
Proof.
  split; [|split].
  - vm_compute. reflexivity.
  - vm_compute. reflexivity.
  - eexists. vm_compute. reflexivity.
Qed.

(** C10. A numeric chain id and its decimal string are the same key:
    [createAdapter] and [registerAdapter] do the same under either form; an
    instance created under one form is the one returned under the other;
    and a registration under one form decides what [createAdapter] under the
    other form builds next. *)
Theorem chain_id_string_form (n : Z) (w : World) :
  createAdapter (CNum n) w = createAdapter (CStr (JS.Number_toString n)) w
  /\ (forall factory,
        registerAdapter (CNum n) factory w
        = registerAdapter (CStr (JS.Number_toString n)) factory w)
  /\ (forall adapter w',
        createAdapter (CNum n) w = (Return adapter, w') ->
        createAdapter (CStr (JS.Number_toString n)) w' = (Return adapter, w'))
  /\ (forall adapter w',
        createAdapter (CStr (JS.Number_toString n)) w = (Return adapter, w') ->
        createAdapter (CNum n) w' = (Return adapter, w'))
  /\ (forall factory w1,
        registerAdapter (CStr (JS.Number_toString n)) factory w = (Return tt, w1) ->
        instances (this w1) !! ChainId_toString (CNum n) = None
        /\ fst (createAdapter (CNum n) w1) = fst (new_ factory (heap w1)))
  /\ (forall factory w1,
        registerAdapter (CNum n) factory w = (Return tt, w1) ->
        instances (this w1) !! ChainId_toString (CStr (JS.Number_toString n)) = None
        /\ fst (createAdapter (CStr (JS.Number_toString n)) w1)
           = fst (new_ factory (heap w1))).
Proof.
  assert (Hsame : createAdapter (CNum n) = createAdapter (CStr (JS.Number_toString n)))
    by reflexivity.
  split; [reflexivity|]. split; [reflexivity|].
  split; [|split; [|split]].
  - intros adapter w' Hrun. rewrite <- Hsame. by apply createAdapter_cached with w.
  - intros adapter w' Hrun. rewrite Hsame. by apply createAdapter_cached with w.
  - intros factory w1 Hreg. split.
    + destruct (registerAdapter_effect (CStr (JS.Number_toString n)) factory w)
        as (w' & Hrun & _ & Hi & _).
      rewrite Hrun in Hreg. by injection Hreg as <-.
    + rewrite Hsame. by apply createAdapter_after_register with w.
  - intros factory w1 Hreg. split.
    + destruct (registerAdapter_effect (CNum n) factory w)
        as (w' & Hrun & _ & Hi & _).
      rewrite Hrun in Hreg. by injection Hreg as <-.
    + rewrite <- Hsame. by apply createAdapter_after_register with w.
Qed.

Lemma chain_id_string_form_witness :
  createAdapter (CStr "1") SimRegistry.with_mainnet_cached
  = (Return 0%nat, SimRegistry.with_mainnet_cached)
  /\ (instances (this SimRegistry.with_mainnet) !! "1" = None
      /\ fst (createAdapter (CNum 1) SimRegistry.with_mainnet)
         = fst (new_ (SimRegistry.custom "Mainnet") (heap SimRegistry.with_mainnet))).
Proof.
  split.
  - apply (proj1 (proj2 (proj2 (chain_id_string_form 1 SimRegistry.with_mainnet)))).
    vm_compute. reflexivity.
  - apply (proj1 (proj2 (proj2 (proj2 (proj2
             (chain_id_string_form 1 chainAdapterFactory)))))
             (SimRegistry.custom "Mainnet")).
    vm_compute. reflexivity.
Defined.

End RegistryFacts.

(** * Properties of the order manager *)

Module ManagerFacts.
Import fusionUtils fusionOrders.




Definition terminal (s : OrderStatus) : Prop := s = EXECUTED \/ s = CANCELLED.

#[local] Arguments stopOrderMonitoring : simpl never.
#[local] Arguments checkOrderStatus : simpl never.
#[local] Arguments processOrderFills : simpl never.
#[local] Arguments process_fill : simpl never.
#[local] Arguments getQuote : simpl never.
#[local] Arguments retry_configured : simpl never.
#[local] Arguments validateOrderParams : simpl never.
#[local] Arguments generateSecretsAndHashLock : simpl never.

Section Facts.
Context {X : Type} `{Platform X}.
Variable sdk : Collaborators X.

(** The state [stopOrderMonitoring] leaves. *)
Definition stopped (orderHash : string) (st : State X) : State X :=
  match pollingIntervals (this st) !! orderHash with
  | Some id =>
      {| ext := ext st; calls := calls st; timers := delete id (timers st);
         next_timer := next_timer st;
         this := with_pollingIntervals (delete orderHash) (this st) |}
  | None => st
  end.

Lemma stopOrderMonitoring_run orderHash st :
  stopOrderMonitoring orderHash st = (Return tt, stopped orderHash st).
Proof.
  unfold stopOrderMonitoring, stopped, bind, gets.
  by destruct (pollingIntervals (this st) !! orderHash).
Qed.



Lemma stopped_activeOrders orderHash st :
  activeOrders (this (stopped orderHash st)) = activeOrders (this st).
Proof. unfold stopped. by destruct (pollingIntervals (this st) !! orderHash). Qed.

Lemma stopped_orderSecrets orderHash st :
  orderSecrets (this (stopped orderHash st)) = orderSecrets (this st).
Proof. unfold stopped. by destruct (pollingIntervals (this st) !! orderHash). Qed.

End Facts.

(** [OrderStatus] as the enum declares it: the string each member stands
    for, which is also what the settlement service reports. *)
Definition OrderStatus_value (s : OrderStatus) : string :=
  match s with
  | CREATED => "created"
  | PENDING => "pending"
  | PARTIALLY_FILLED => "partially_filled"
  | EXECUTED => "executed"
  | CANCELLED => "cancelled"
  | EXPIRED => "expired"
  | FAILED => "failed"
  end.

(** The order with [new] pushed onto its fills, one record after another. *)
Definition append_fills (new : list OrderFill) (o : UniversalOrder) : UniversalOrder :=
  foldl (fun acc f => push_fill f acc) o new.

(** The readiness query for [orderHash] answers [ready], whenever asked. *)
Definition always_ready {X} (sdk : Collaborators X) (orderHash : string)
  (ready : list ReadyFill) : Prop :=
  forall x, exists x',
    sdk_getReadyToAcceptSecretFills sdk orderHash x = (Return ready, x').

(** Every secret submitted for [orderHash] is accepted. *)
Definition accepting {X} (sdk : Collaborators X) (orderHash : string) : Prop :=
  forall secret x, exists x', sdk_submitSecret sdk orderHash secret x = (Return tt, x').

(** The readiness query for [orderHash] reports no fill or fails. *)
Definition quiet {X} (sdk : Collaborators X) (orderHash : string) : Prop :=
  forall x, match fst (sdk_getReadyToAcceptSecretFills sdk orderHash x) with
            | Return (_ :: _) => False
            | _ => True
            end.

Lemma set_status_same o : set_status (status o) o = o.
Proof. by destruct o. Qed.




Lemma status_append_fills new o : status (append_fills new o) = status o.
Proof.
  revert o. induction new as [|f new IH]; intros o; [reflexivity|].
  change (append_fills (f :: new) o) with (append_fills new (push_fill f o)).
  by rewrite IH.
Qed.

Section Ticks.
Context {X : Type} `{Platform X}.
Variable sdk : Collaborators X.
Variable orderHash : string.

(** The status check on a stored order always returns; the order keeps
    everything but its status, which changes only to a reported terminal
    status; the stored secrets are untouched. *)
Lemma checkOrderStatus_effect st o :
  activeOrders (this st) !! orderHash = Some o ->
  exists st' s',
    checkOrderStatus sdk orderHash st = (Return tt, st')
    /\ activeOrders (this st') !! orderHash = Some (set_status s' o)
    /\ orderSecrets (this st') = orderSecrets (this st)
    /\ (s' = status o
        \/ (terminal s'
            /\ exists x', sdk_getOrderStatus sdk orderHash (ext st)
                          = (Return (OrderStatus_value s'), x'))).
Proof.
  intros Horder.
  unfold checkOrderStatus, bind, gets, try_catch, call. rewrite Horder.
  destruct (sdk_getOrderStatus sdk orderHash (ext st)) as [[reported|e] x'] eqn:Hrep.
  - destruct (decide (reported = "executed")) as [->|Hne];
      [|destruct (decide (reported = "cancelled")) as [->|Hnc]].
    + unfold assign_status, modify. rewrite stopOrderMonitoring_run.
      eexists _, EXECUTED. split; [reflexivity|].
      rewrite stopped_activeOrders, stopped_orderSecrets. cbn.
      rewrite lookup_alter_eq, Horder.
      split; [reflexivity|]. split; [reflexivity|].
      right. split; [by left|by exists x'].
    + unfold assign_status, modify. rewrite stopOrderMonitoring_run.
      eexists _, CANCELLED. split; [reflexivity|].
      rewrite stopped_activeOrders, stopped_orderSecrets. cbn.
      rewrite lookup_alter_eq, Horder.
      split; [reflexivity|]. split; [reflexivity|].
      right. split; [by right|by exists x'].
    + eexists _, (status o). split; [reflexivity|].
      rewrite set_status_same. cbn. auto.
  - eexists _, (status o). split; [reflexivity|].
    rewrite set_status_same. cbn. auto.
Qed.

(** One ready fill: the secret is submitted; if that returns, one record
    with the fill's index is pushed; if it throws, nothing is. *)
Lemma process_fill_effect secrets fill st o :
  activeOrders (this st) !! orderHash = Some o ->
  exists st' new,
    process_fill sdk orderHash secrets fill st = (Return tt, st')
    /\ activeOrders (this st') !! orderHash = Some (append_fills new o)
    /\ orderSecrets (this st') = orderSecrets (this st)
    /\ map idx new `sublist_of` [ready_idx fill]
    /\ (accepting sdk orderHash -> map idx new = [ready_idx fill]).
Proof.
  intros Horder. unfold process_fill, try_catch, bind, call, gets, modify.
  destruct (sdk_submitSecret sdk orderHash (secret_at secrets (ready_idx fill)) (ext st))
    as [[[]|e] x'] eqn:Hsubmit.
  - cbn [this]. rewrite Horder.
    eexists _, [_]. split; [reflexivity|]. cbn.
    rewrite lookup_alter_eq, Horder. split_and!; [reflexivity..|done].
  - eexists _, []. split; [reflexivity|]. cbn.
    split_and!; [done|reflexivity|apply sublist_nil_l|].
    intros Hacc. destruct (Hacc (secret_at secrets (ready_idx fill)) (ext st)) as [x'' Hx].
    congruence.
Qed.

Lemma process_fills_effect secrets ready :
  forall st o,
    activeOrders (this st) !! orderHash = Some o ->
    exists st' new,
      process_fills sdk orderHash secrets ready st = (Return tt, st')
      /\ activeOrders (this st') !! orderHash = Some (append_fills new o)
      /\ orderSecrets (this st') = orderSecrets (this st)
      /\ map idx new `sublist_of` map ready_idx ready
      /\ (accepting sdk orderHash -> map idx new = map ready_idx ready).
Proof.
  induction ready as [|fill rest IH]; intros st o Horder.
  - exists st, []. split_and!; [done..|apply sublist_nil_l|done].
  - destruct (process_fill_effect secrets fill st o Horder)
      as (st1 & new1 & Hrun1 & Hlook1 & Hsec1 & Hsub1 & Hacc1).
    destruct (IH st1 _ Hlook1) as (st2 & new2 & Hrun2 & Hlook2 & Hsec2 & Hsub2 & Hacc2).
    exists st2, (new1 ++ new2).
    split; [|split; [|split; [|split]]].
    + cbn [process_fills]. unfold bind. by rewrite Hrun1.
    + rewrite Hlook2. unfold append_fills. by rewrite foldl_app.
    + congruence.
    + rewrite map_app. change (map ready_idx (fill :: rest))
        with ([ready_idx fill] ++ map ready_idx rest).
      by apply sublist_app.
    + intros Hacc. rewrite map_app, (Hacc1 Hacc), (Hacc2 Hacc). reflexivity.
Qed.

(** The fill processing of a tick on a stored order, whether it returns or
    throws (it throws only from its outer handler, when the query threw
    [undefined]), only pushes records onto the order's fills: none when the
    query reports no fill or fails, otherwise records for a subsequence of
    the reported indices, for all of them when every submission is
    accepted. *)
Lemma processOrderFills_effect st o :
  activeOrders (this st) !! orderHash = Some o ->
  exists r st' new,
    processOrderFills sdk orderHash st = (r, st')
    /\ activeOrders (this st') !! orderHash = Some (append_fills new o)
    /\ orderSecrets (this st') = orderSecrets (this st)
    /\ (quiet sdk orderHash -> new = [])
    /\ (forall ready, always_ready sdk orderHash ready ->
                      map idx new `sublist_of` map ready_idx ready)
    /\ (forall ready secrets,
          always_ready sdk orderHash ready -> accepting sdk orderHash ->
          orderSecrets (this st) !! orderHash = Some secrets ->
          map idx new = map ready_idx ready).
Proof.
  intros Horder. unfold processOrderFills, bind, gets, try_catch, call.
  destruct (orderSecrets (this st) !! orderHash) as [secrets|] eqn:Hsecrets.
  2:{ exists (Return tt), st, []. split_and!; [done..| |discriminate]. intros; apply sublist_nil_l. }
  destruct (sdk_getReadyToAcceptSecretFills sdk orderHash (ext st))
    as [[ready|e] x'] eqn:Hready.
  - destruct ready as [|fill rest].
    + cbn. eexists _, _, []. split; [reflexivity|]. cbn.
      split_and!; [done..| |].
      * intros; apply sublist_nil_l.
      * intros ready secrets' Hall _ _. destruct (Hall (ext st)) as [x'' Hx].
        rewrite Hready in Hx. by injection Hx as <- _.
    + change (0 <? length (fill :: rest))%nat with true. cbv iota.
      set (st1 := {| ext := x';
                     calls := calls st ++ [CallGetReadyToAcceptSecretFills orderHash];
                     timers := timers st; next_timer := next_timer st;
                     this := this st |}).
      destruct (process_fills_effect secrets (fill :: rest) st1 o Horder)
        as (st2 & new & Hrun & Hlook & Hsec & Hsub & Hacc).
      exists (Return tt), st2, new. rewrite Hrun.
      split; [reflexivity|]. split; [exact Hlook|]. split; [exact Hsec|].
      split; [|split].
      * intros Hquiet. specialize (Hquiet (ext st)). rewrite Hready in Hquiet.
        contradiction.
      * intros ready Hall. destruct (Hall (ext st)) as [x'' Hx].
        rewrite Hready in Hx. injection Hx as <- _. exact Hsub.
      * intros ready secrets' Hall Haccept _. destruct (Hall (ext st)) as [x'' Hx].
        rewrite Hready in Hx. injection Hx as <- _. by apply Hacc.
  - destruct e; (eexists _, _, []; split; [reflexivity|]; cbn;
      split_and!; [done..| |];
      [intros; apply sublist_nil_l|
       intros ready secrets' Hall _ _; destruct (Hall (ext st)) as [x'' Hx];
       rewrite Hready in Hx; discriminate]).
Qed.

(** A whole tick on a stored order. *)
Lemma tick_effect st o :
  activeOrders (this st) !! orderHash = Some o ->
  exists st' s' new,
    tick sdk orderHash st = (Return tt, st')
    /\ activeOrders (this st') !! orderHash
       = Some (append_fills new (set_status s' o))
    /\ orderSecrets (this st') = orderSecrets (this st)
    /\ (s' = status o
        \/ (terminal s'
            /\ exists x', sdk_getOrderStatus sdk orderHash (ext st)
                          = (Return (OrderStatus_value s'), x')))
    /\ (quiet sdk orderHash -> new = [])
    /\ (forall ready, always_ready sdk orderHash ready ->
                      map idx new `sublist_of` map ready_idx ready)
    /\ (forall ready secrets,
          always_ready sdk orderHash ready -> accepting sdk orderHash ->
          orderSecrets (this st) !! orderHash = Some secrets ->
          map idx new = map ready_idx ready).
Proof.
  intros Horder.
  destruct (checkOrderStatus_effect st o Horder) as (st1 & s' & Hrun1 & Hlook1 & Hsec1 & Hs).
  destruct (processOrderFills_effect st1 _ Hlook1)
    as (r2 & st2 & new & Hrun2 & Hlook2 & Hsec2 & Hquiet & Hsub & Hacc).
  exists st2, s', new.
  split; [unfold tick, try_catch, bind; rewrite Hrun1, Hrun2; by destruct r2 as [[]|?]|].
  split; [exact Hlook2|]. split; [congruence|]. split; [exact Hs|].
  split; [exact Hquiet|]. split; [exact Hsub|].
  intros ready secrets Hall Haccept Hsecrets.
  apply (Hacc ready secrets Hall Haccept). by rewrite Hsec1.
Qed.

End Ticks.













Section Creation.
Context {X : Type} `{Platform X}.
Variable sdk : Collaborators X.

(** Retrying a call to a collaborator touches neither the manager nor the
    timers, and logs the same call once per attempt; it made at least one
    attempt if it returned. *)
Lemma retry_loop_call_frame {A} (c : Call) (f : M X A) maxRetries delay remaining :
  forall i lastError st r st',
    retry_loop (call c f) maxRetries delay remaining i lastError st = (r, st') ->
    this st' = this st /\ timers st' = timers st
    /\ exists k, calls st' = calls st ++ replicate k c
                 /\ (forall a, r = Return a -> (0 < k)%nat).
Proof.
  induction remaining as [|n IH]; intros i lastError st r st' Hrun.
  - cbn in Hrun. injection Hrun as <- <-.
    split; [reflexivity|]. split; [reflexivity|].
    exists 0%nat. cbn. rewrite app_nil_r. split; [reflexivity|discriminate].
  - cbn [retry_loop] in Hrun. unfold call at 1 in Hrun.
    destruct (f (ext st)) as [[v|e] x'].
    + injection Hrun as <- <-. cbn.
      split; [reflexivity|]. split; [reflexivity|].
      exists 1%nat. split; [reflexivity|]. intros; lia.
    + cbv zeta in Hrun.
      destruct (i <? maxRetries - 1); apply IH in Hrun as (Hthis & Htimers & k & Hcalls & Hk);
        cbn in Hthis, Htimers, Hcalls;
        (split; [exact Hthis|]); (split; [exact Htimers|]);
        exists (Datatypes.S k); (split; [by rewrite Hcalls, <- app_assoc|]);
        intros; lia.
Qed.

Lemma getQuote_frame params st r st' :
  getQuote sdk params st = (r, st') ->
  this st' = this st /\ timers st' = timers st
  /\ exists k, calls st' = calls st ++ replicate k (CallGetQuote params)
               /\ (forall a, r = Return a -> (0 < k)%nat).
Proof.
  unfold getQuote, retry_configured, bind, gets, retry.
  apply retry_loop_call_frame.
Qed.

Lemma random_secrets_frame (n : nat) :
  forall st : State X,
    exists xs st',
      random_secrets n st = (Return xs, st')
      /\ this st' = this st /\ timers st' = timers st /\ calls st' = calls st.
Proof.
  induction n as [|n IH]; intros st.
  - exists [], st. by split_and!.
  - cbn [random_secrets]. unfold bind, getRandomBytes32. cbn [randomBytes32_hex State_Platform].
    destruct (randomBytes32_hex (ext st)) as [hex x'].
    destruct (IH (with_ext (fun _ => x') st)) as (xs & st' & -> & Hthis & Htimers & Hcalls).
    eexists _, st'. split; [reflexivity|]. by split_and!.
Qed.

(** Secret generation touches neither the manager, the timers nor the call
    log, whether it returns or throws. *)
Lemma generateSecretsAndHashLock_frame secretsCount (st : State X) :
  exists r st',
    generateSecretsAndHashLock secretsCount st = (r, st')
    /\ this st' = this st /\ timers st' = timers st /\ calls st' = calls st
    /\ (secretsCount = 1 \/ 3 <= secretsCount -> exists generated, r = Return generated)
    /\ (~ (secretsCount = 1 \/ 3 <= secretsCount) ->
        r = Throw (JSError
                     "leaves array must be greater than 2. Or use HashLock.forSingleFill")).
Proof.
  destruct (SecretsFacts.generateSecretsAndHashLock_run secretsCount st)
    as (secrets & st' & Hdrawn & _ & ->).
  destruct (random_secrets_frame (Z.to_nat secretsCount) st)
    as (xs & st'' & Hdrawn' & Hframe).
  rewrite Hdrawn in Hdrawn'. injection Hdrawn' as <- <-.
  destruct (decide (secretsCount = 1 \/ 3 <= secretsCount)) as [Hok|Hno];
    eexists _, st'; (split; [reflexivity|]);
    destruct Hframe as (? & ? & ?); split_and!; try done; eauto.
Qed.

(** What a returning [createOrder] went through. *)
Lemma createOrder_returns params (st : State X) h st' :
  createOrder sdk params st = (Return h, st') ->
  exists quote st1 generated st2 order,
    getQuote sdk params st = (Return quote, st1)
    /\ generateSecretsAndHashLock (getPreset_secretsCount quote) st1
       = (Return generated, st2)
    /\ activeOrders (this st') !! h = Some order
    /\ deadline order = Date_now (ext st2) / 1000 + 3600.
Proof.
  unfold createOrder, bind, gets.
  destruct (adapters (this st) !! srcChainId params) as [src|].
  2:{ rewrite (bool_decide_eq_false_2 (is_Some None)) by (by intros [? ?]).
      discriminate. }
  rewrite (bool_decide_eq_true_2 (is_Some (Some src))) by eauto.
  destruct (adapters (this st) !! dstChainId params) as [dst|].
  2:{ rewrite (bool_decide_eq_false_2 (is_Some None)) by (by intros [? ?]).
      discriminate. }
  rewrite (bool_decide_eq_true_2 (is_Some (Some dst))) by eauto.
  cbn [negb orb].
  destruct (getQuote sdk params st) as [[quote|e] st1] eqn:Hquote; [|discriminate].
  destruct (generateSecretsAndHashLock (getPreset_secretsCount quote) st1)
    as [[generated|e] st2] eqn:Hgenerated; [|discriminate].
  match goal with
  | |- context [validateOrderParams ?o st2] =>
      destruct (ValidationFacts.validateOrderParams_cases o st2)
        as [[_ (e & Hval)]|[_ Hval]]; rewrite Hval
  end; [discriminate|].
  match goal with
  | |- context [retry_configured ?op st2] =>
      destruct (retry_configured op st2) as [[h'|e] st3]
  end; [|discriminate].
  unfold startOrderMonitoring, setInterval, modify, bind, ret. cbn.
  intros [= <- <-].
  eexists quote, st1, generated, st2, _.
  split; [reflexivity|]. split; [exact Hgenerated|]. cbn.
  split; [apply lookup_insert_eq|reflexivity].
Qed.

End Creation.

(** C2, as the code has it.  [createOrder] with the amount ["0"], or any
    amount that reads as an integer that is not positive, never returns: it
    throws, leaves the manager (stored orders and secrets
    included) and the timers as they were, and the only calls it makes to a
    collaborator are quote requests, so no order is placed.  When both
    adapters are present and the quote request returns, at least one quote
    request has been made by then, and the error is an [InvalidOrder] error
    of [validateOrderParams] if the quote asks for one secret or for three
    or more; if it asks for two or for none, secret generation has already
    thrown the SDK's assertion error.  [createOrder] takes no deadline: the
    order it stores when it returns has the deadline 3600 seconds after the
    clock as read once the quote and the secrets are there. *)
Theorem createOrder_zero_amount
  {X : Type} `{Platform X} (sdk : Collaborators X)
  (params : QuoteParams) (st : State X) :
  (forall n,
   JS.StringToBigInt (qp_amount params) = Some n -> n <= 0 ->
   exists e st' k,
     createOrder sdk params st = (Throw e, st')
     /\ this st' = this st /\ timers st' = timers st
     /\ calls st' = calls st ++ replicate k (CallGetQuote params)
     /\ (forall quote st1,
           is_Some (adapters (this st) !! srcChainId params) ->
           is_Some (adapters (this st) !! dstChainId params) ->
           getQuote sdk params st = (Return quote, st1) ->
           (0 < k)%nat
           /\ (getPreset_secretsCount quote = 1 \/ 3 <= getPreset_secretsCount quote ->
               ValidationFacts.InvalidOrder e)
           /\ (~ (getPreset_secretsCount quote = 1 \/ 3 <= getPreset_secretsCount quote) ->
               e = JSError
                     "leaves array must be greater than 2. Or use HashLock.forSingleFill")))
  /\ (forall h st',
        createOrder sdk params st = (Return h, st') ->
        exists quote st1 generated st2 order,
          getQuote sdk params st = (Return quote, st1)
          /\ generateSecretsAndHashLock (getPreset_secretsCount quote) st1
             = (Return generated, st2)
          /\ activeOrders (this st') !! h = Some order
          /\ deadline order = Date_now (ext st2) / 1000 + 3600).
Proof.
  split; [|apply createOrder_returns].
  intros n Hparse Hle. unfold createOrder, bind, gets.
  destruct (adapters (this st) !! srcChainId params) as [src|] eqn:Hsrc.
  2:{ rewrite (bool_decide_eq_false_2 (is_Some None)) by (by intros [? ?]).
      cbn. eexists _, st, 0%nat. split; [reflexivity|]. cbn. rewrite app_nil_r.
      split_and!; [done..|]. intros ? ? [? ?]. discriminate. }
  rewrite (bool_decide_eq_true_2 (is_Some (Some src))) by eauto.
  destruct (adapters (this st) !! dstChainId params) as [dst|] eqn:Hdst.
  2:{ rewrite (bool_decide_eq_false_2 (is_Some None)) by (by intros [? ?]).
      cbn. eexists _, st, 0%nat. split; [reflexivity|]. cbn. rewrite app_nil_r.
      split_and!; [done..|]. intros ? ? _ [? ?]. discriminate. }
  rewrite (bool_decide_eq_true_2 (is_Some (Some dst))) by eauto.
  cbn [negb orb].
  destruct (getQuote sdk params st) as [[quote|e] st1] eqn:Hquote.
  2:{ destruct (getQuote_frame sdk params st _ _ Hquote) as (Hthis & Htimers & k & Hcalls & _).
      exists e, st1, k. split; [reflexivity|]. split_and!; [done..|]. discriminate. }
  destruct (getQuote_frame sdk params st _ _ Hquote) as (Hthis & Htimers & k & Hcalls & Hk).
  destruct (generateSecretsAndHashLock_frame (getPreset_secretsCount quote) st1)
    as (r & st2 & -> & Hthis2 & Htimers2 & Hcalls2 & Hgood & Hbad).
  destruct r as [generated|e].
  - match goal with
    | |- context [validateOrderParams ?o st2] =>
        destruct (ValidationFacts.validateOrderParams_nonpositive_amount
                    o st2 (qp_amount params) n)
          as (e & -> & Hinvalid); [reflexivity|exact Hparse|exact Hle|]
    end.
    exists e, st2, k. split; [reflexivity|].
    split; [congruence|]. split; [congruence|]. split; [congruence|].
    intros quote' st1' _ _ [= <- <-]. split; [by apply (Hk quote)|].
    split; [intros _; exact Hinvalid|].
    intros Hno. specialize (Hbad Hno). discriminate.
  - exists e, st2, k. split; [reflexivity|].
    split; [congruence|]. split; [congruence|]. split; [congruence|].
    intros quote' st1' _ _ [= <- <-]. split; [by apply (Hk quote)|].
    split.
    + intros Hok. destruct (Hgood Hok) as [generated Habs]. discriminate.
    + intros Hno. specialize (Hbad Hno). by injection Hbad.
Qed.

Lemma createOrder_zero_amount_witness :
  (exists e st' k,
      createOrder (Sim.service "pending" [] (Return tt)) (Sim.swap "0") Sim.idle
      = (Throw e, st')
      /\ this st' = this Sim.idle /\ timers st' = timers Sim.idle
      /\ calls st' = calls Sim.idle ++ replicate k (CallGetQuote (Sim.swap "0"))
      /\ (forall quote st1,
            is_Some (adapters (this Sim.idle) !! srcChainId (Sim.swap "0")) ->
            is_Some (adapters (this Sim.idle) !! dstChainId (Sim.swap "0")) ->
            getQuote (Sim.service "pending" [] (Return tt)) (Sim.swap "0") Sim.idle
            = (Return quote, st1) ->
            (0 < k)%nat
            /\ (getPreset_secretsCount quote = 1 \/ 3 <= getPreset_secretsCount quote ->
                ValidationFacts.InvalidOrder e)
            /\ (~ (getPreset_secretsCount quote = 1
                   \/ 3 <= getPreset_secretsCount quote) ->
                e = JSError
                      "leaves array must be greater than 2. Or use HashLock.forSingleFill")))
  /\ (exists quote st1 generated st2 order,
         getQuote (Sim.service "pending" [] (Return tt)) (Sim.swap "1000000") Sim.idle
         = (Return quote, st1)
         /\ generateSecretsAndHashLock (getPreset_secretsCount quote) st1
            = (Return generated, st2)
         /\ activeOrders
              (this (snd (createOrder (Sim.service "pending" [] (Return tt))
                            (Sim.swap "1000000") Sim.idle))) !! "0xorder"
            = Some order
         /\ deadline order = Date_now (ext st2) / 1000 + 3600).
Proof.
  split.
  - apply (proj1 (createOrder_zero_amount (Sim.service "pending" [] (Return tt))
                    (Sim.swap "0") Sim.idle) 0).
    + reflexivity.
    + lia.
  - apply (proj2 (createOrder_zero_amount (Sim.service "pending" [] (Return tt))
                    (Sim.swap "1000000") Sim.idle) "0xorder").
    vm_compute. reflexivity.
Defined.

(** C2, as stated, fails: with both adapters connected, [createOrder] with
    the amount ["0"] throws "Amount must be positive" only after the
    settlement service has answered a quote request. *)
Lemma createOrder_zero_amount_requests_quote :
  exists st',
    createOrder (Sim.service "pending" [] (Return tt)) (Sim.swap "0") Sim.idle
    = (Throw (JSError "Amount must be positive"), st')
    /\ calls st' = [CallGetQuote (Sim.swap "0")]
    /\ length (List.filter is_settlement_call (calls st')) = 1%nat
    /\ length (List.filter is_settlement_call (calls st')) <> 0%nat.
Proof.
  eexists. split; [vm_compute; reflexivity|].
  split; [reflexivity|]. split; [reflexivity|]. discriminate.
Qed.

End ManagerFacts.

(** * Further properties of the retry policy *)

(** A state paired with the log of the sleeps made on it.  The platform is
    the one underneath, except that [elapse] also writes its argument to the
    log. *)
Module Backoff.

Record Slept (S : Type) : Type := {
  inner : S;
  slept : list Z
}.
Arguments inner {S}.
Arguments slept {S}.

#[global] Instance Slept_Platform {S} `{Platform S} : Platform (Slept S) := {|
  Date_now := fun w => Date_now (inner w);
  elapse := fun ms w => {| inner := elapse ms (inner w); slept := slept w ++ [ms] |};
  randomBytes32_hex := fun w =>
    let '(hex, s') := randomBytes32_hex (inner w) in
    (hex, {| inner := s'; slept := slept w |});
  HashLock_hashSecret := HashLock_hashSecret (S := S);
  solidityPackedKeccak256_uint64_bytes32 :=
    solidityPackedKeccak256_uint64_bytes32 (S := S)
|}.

(** An operation on [S] run on the logged state; it does not sleep. *)
Definition logged {S T} (operation : M S T) : M (Slept S) T :=
  fun w =>
    let '(r, s') := operation (inner w) in (r, {| inner := s'; slept := slept w |}).

(** The operation fails whatever the state. *)
Definition always_fails {S T} (operation : M S T) : Prop :=
  forall s, exists e s', operation s = (Throw e, s').

End Backoff.

Module RetryMore.
Import fusionUtils Recording Backoff.

Section Facts.
Context {S T : Type} `{Platform S}.
Variable operation : M S T.
Variable delay : Z.

(** The loop on the recording operation: the invocations it adds are a run
    of failures, closed by the success it returns if it returns; if it
    throws, it used every remaining iteration. *)
Lemma retry_loop_history maxRetries remaining :
  forall i lastError s history r s' history',
    retry_loop (recording operation) maxRetries delay remaining i lastError
               (s, history) = (r, (s', history')) ->
    exists attempts,
      history' = history ++ attempts
      /\ (length attempts <= remaining)%nat
      /\ match r with
         | Return v =>
             exists failures, attempts = failures ++ [Return v]
                              /\ Forall is_throw failures
         | Throw e =>
             Forall is_throw attempts /\ length attempts = remaining
             /\ e = default JSUndefined (RetryFacts.final_error attempts lastError)
         end.
Proof.
  induction remaining as [|k IH]; intros i lastError s history r s' history' Hrun.
  - cbn in Hrun. injection Hrun as <- <- <-.
    exists []. rewrite app_nil_r. split; [reflexivity|]. split; [reflexivity|].
    split; [constructor|]. split; reflexivity.
  - cbn in Hrun. destruct (operation s) as [[v|e] s1] eqn:Hop.
    + injection Hrun as <- <- <-.
      exists [Return v]. split; [reflexivity|]. split; [cbn; lia|].
      exists []. split; [reflexivity|constructor].
    + destruct (i <? maxRetries - 1); cbn in Hrun;
        apply IH in Hrun as (attempts & -> & Hlen & Hshape);
        exists (Throw e :: attempts);
        (split; [by rewrite <- app_assoc|]);
        (split; [cbn; lia|]);
        (destruct r as [v|e'];
         [destruct Hshape as (failures & -> & Hfail);
          exists (Throw e :: failures); split; [reflexivity|];
          constructor; [exact I|exact Hfail]
         |destruct Hshape as (Hall & Hk & ->);
          split; [constructor; [exact I|exact Hall]|];
          split; [cbn; by rewrite Hk|reflexivity]]).
Qed.

(** With an operation that always fails, the loop sleeps [delay * 2 ^ j]
    after iteration [j], for every iteration but the one with
    [j = maxRetries - 1]. *)
Lemma retry_loop_sleeps maxRetries remaining :
  always_fails operation ->
  forall i lastError w,
    i + Z.of_nat remaining = maxRetries -> 0 <= i ->
    slept (snd (retry_loop (logged operation) maxRetries delay remaining i
                           lastError w))
    = slept w
      ++ map (fun j => delay * 2 ^ j) (seqZ i (Z.of_nat remaining - 1)).
Proof.
  intros Hfails.
  induction remaining as [|k IH]; intros i lastError w Hsum Hi.
  - cbn. rewrite seqZ_nil by lia. by rewrite app_nil_r.
  - cbn [retry_loop]. unfold logged at 1.
    destruct (Hfails (inner w)) as (e & s' & ->). cbv zeta.
    destruct (i <? maxRetries - 1) eqn:Hlast.
    + apply Z.ltb_lt in Hlast.
      rewrite IH by lia. cbn [snd sleep modify elapse Slept_Platform slept].
      rewrite (seqZ_cons i) by lia. cbn [map].
      rewrite <- app_assoc. cbn [app].
      by replace (Z.pred (Z.of_nat (Datatypes.S k) - 1)) with (Z.of_nat k - 1) by lia.
    + apply Z.ltb_ge in Hlast.
      rewrite IH by lia. cbn [slept].
      rewrite !seqZ_nil by lia. reflexivity.
Qed.

End Facts.

(** X1. With [maxRetries <= 0] the loop body never runs: [retry] does not
    invoke the operation, does not sleep, and throws [undefined] (the
    unassigned [lastError]). *)
Theorem retry_without_attempts
  {S T : Type} `{Platform S} (operation : M S T) (maxRetries delay : Z)
  (s : S) :
  maxRetries <= 0 ->
  retry (recording operation) maxRetries delay (s, [])
  = (Throw JSUndefined, (s, [])).
Proof.
  intros Hle. unfold retry.
  replace (Z.to_nat maxRetries) with 0%nat by lia. reflexivity.
Qed.

Lemma retry_without_attempts_witness :
  retry (recording Sim.flaky) 0 1000 (Sim.start, [])
  = (Throw JSUndefined, (Sim.start, [])).
Proof. apply (retry_without_attempts Sim.flaky 0 1000 Sim.start). lia. Defined.

(** X2. Whatever the operation does, a run of [retry] invokes it at most
    [maxRetries] times and stops at the first success: if [retry] returns
    [v], the invocations are failures followed by the one that returned [v];
    if [retry] throws, every invocation failed, there were exactly
    [maxRetries] of them (none if [maxRetries <= 0]), and the error thrown
    is the last invocation's. *)
Theorem retry_stops_at_first_success
  {S T : Type} `{Platform S} (operation : M S T) (maxRetries delay : Z)
  (s s' : S) (r : Outcome T) (history : list (Outcome T)) :
  retry (recording operation) maxRetries delay (s, []) = (r, (s', history)) ->
  (length history <= Z.to_nat maxRetries)%nat
  /\ match r with
     | Return v =>
         exists failures, history = failures ++ [Return v]
                          /\ Forall is_throw failures
     | Throw e =>
         Forall is_throw history
         /\ length history = Z.to_nat maxRetries
         /\ (history = [] -> e = JSUndefined)
         /\ (forall e', last history = Some (Throw e') -> e = e')
     end.
Proof.
  intros Hrun. unfold retry in Hrun.
  apply retry_loop_history in Hrun as (attempts & Heq & Hlen & Hshape).
  cbn in Heq. subst history. split; [exact Hlen|].
  destruct r as [v|e]; [exact Hshape|].
  destruct Hshape as (Hall & Hk & ->). split; [exact Hall|]. split; [exact Hk|].
  split.
  - intros ->. reflexivity.
  - intros e' Hlast.
    destruct (RetryFacts.final_error_last attempts None) as (e0 & Hlast0 & ->).
    + intros ->. discriminate.
    + exact Hall.
    + cbn. congruence.
Qed.

Lemma retry_stops_at_first_success_witness :
  (length [Throw Sim.unavailable; Throw Sim.unavailable; Return "ok"] <= Z.to_nat 5)%nat
  /\ exists failures,
      [Throw Sim.unavailable; Throw Sim.unavailable; Return "ok"]
      = failures ++ [Return "ok"]
      /\ Forall is_throw failures.
Proof.
  apply (retry_stops_at_first_success Sim.flaky 5 1000 Sim.start
           {| Sim.clock := 1700000003000; Sim.entropy := 0; Sim.answered := 3 |}
           (Return "ok")).
  reflexivity.
Defined.

(** X3. Exponential backoff.  When the operation fails on every attempt and
    [maxRetries >= 1], [retry] sleeps [maxRetries - 1] times, for [delay],
    [2 * delay], [4 * delay], ... in that order: [delay * 2 ^ j] after
    attempt [j], and not at all after the last attempt. *)
Theorem retry_backoff_schedule
  {S T : Type} `{Platform S} (operation : M S T) (maxRetries delay : Z)
  (s : S) :
  always_fails operation ->
  1 <= maxRetries ->
  slept (snd (retry (logged operation) maxRetries delay
                    {| inner := s; slept := [] |}))
  = map (fun j => delay * 2 ^ j) (seqZ 0 (maxRetries - 1)).
Proof.
  intros Hfails Hpos. unfold retry.
  rewrite (retry_loop_sleeps operation delay maxRetries) by (assumption || lia).
  cbn [slept app]. by rewrite Z2Nat.id by lia.
Qed.

Lemma retry_backoff_schedule_witness :
  slept (snd (retry (logged Sim.always_failing) 4 1000
                    {| inner := Sim.start; slept := [] |}))
  = map (fun j => 1000 * 2 ^ j) (seqZ 0 (4 - 1)).
Proof.
  apply (retry_backoff_schedule Sim.always_failing 4 1000 Sim.start).
  - intros s. eexists _, _. reflexivity.
  - lia.
Defined.

End RetryMore.

(** * utils/fusionUtils.ts: amounts *)

Module fusionUtils_amounts.

(** [BigInt(str)] as a value or a thrown error; it reads no state. *)
Definition BigInt_of_string (str : string) : Outcome Z :=
  fst (JS.BigInt (S := unit) (Some str) tt).

(** [BigInt(10 ** decimals)] where the power is an integer that a double
    holds exactly, which is the case for the integers [0 <= decimals <= 22];
    other exponents are not embedded ([None]). *)
Definition BigInt_pow10 (decimals : Z) : option Z :=
  if (0 <=? decimals) && (decimals <=? 22) then Some (10 ^ decimals) else None.

(** [bigint.toString()] *)
Definition BigInt_toString (n : Z) : string := pretty n.

(** [formatAmount] (fusionUtils.ts, lines 152-156).  BigInt division
    truncates towards zero. *)
Definition formatAmount (amount : string) (decimals : Z) : option (Outcome string) :=
  match BigInt_of_string amount with
  | Throw e => Some (Throw e)
  | Return amountBN =>
      match BigInt_pow10 decimals with
      | None => None
      | Some divisor =>
          Some (Return (BigInt_toString (Z.quot (amountBN * 10 ^ 18) divisor)))
      end
  end.

(** [parseAmount] (fusionUtils.ts, lines 161-165). *)
Definition parseAmount (amount : string) (decimals : Z) : option (Outcome string) :=
  match BigInt_of_string amount with
  | Throw e => Some (Throw e)
  | Return amountBN =>
      match BigInt_pow10 decimals with
      | None => None
      | Some multiplier =>
          Some (Return (BigInt_toString (Z.quot (amountBN * multiplier) (10 ^ 18))))
      end
  end.

End fusionUtils_amounts.

Module AmountFacts.
Import fusionUtils_amounts.

(** A decimal digit character. *)
Definition dec_digit (c : ascii) : Prop :=
  exists d : N, (d < 10)%N /\ c = pretty_N_char d.

Lemma digit_value_pretty (d : N) :
  (d < 10)%N -> JS.digit_value (pretty_N_char d) = Some (Z.of_N d).
Proof.
  intros Hd.
  assert (d = 0 \/ d = 1 \/ d = 2 \/ d = 3 \/ d = 4 \/ d = 5 \/ d = 6 \/ d = 7
          \/ d = 8 \/ d = 9)%N as Hcases by lia.
  repeat destruct Hcases as [->|Hcases]; try reflexivity. subst. reflexivity.
Qed.

Lemma dec_digit_not_space c : dec_digit c -> JS.is_white_space c = false.
Proof.
  intros (d & Hd & ->).
  assert (d = 0 \/ d = 1 \/ d = 2 \/ d = 3 \/ d = 4 \/ d = 5 \/ d = 6 \/ d = 7
          \/ d = 8 \/ d = 9)%N as Hcases by lia.
  repeat destruct Hcases as [->|Hcases]; try reflexivity. subst. reflexivity.
Qed.

(** The digits [pretty] puts in front of [s]: they are decimal digits, there
    is at least one for a positive number, and read back in base ten they
    extend an accumulator by the number. *)
Lemma pretty_N_go_digits (x : N) :
  forall s, exists ds,
    list_ascii_of_string (pretty_N_go x s) = ds ++ list_ascii_of_string s
    /\ Forall dec_digit ds
    /\ ((0 < x)%N -> ds <> [])
    /\ forall rest acc,
        JS.parse_digits 10 (ds ++ rest) acc
        = JS.parse_digits 10 rest (acc * 10 ^ Z.of_nat (length ds) + Z.of_N x).
Proof.
  induction x as [x IH] using (well_founded_ind N.lt_wf_0). intros s.
  destruct (decide (0 < x)%N) as [Hpos|Hzero].
  - rewrite pretty_N_go_step by exact Hpos.
    destruct (IH (x `div` 10)%N) with (s := String (pretty_N_char (x `mod` 10)) s)
      as (ds & Hchars & Hdigits & _ & Hvalue).
    { apply N.div_lt; lia. }
    exists (ds ++ [pretty_N_char (x `mod` 10)%N]).
    split; [rewrite Hchars; cbn; by rewrite <- app_assoc|].
    split.
    { apply Forall_app. split; [exact Hdigits|].
      constructor; [|constructor].
      exists (x `mod` 10)%N. split; [apply N.mod_lt; lia|reflexivity]. }
    split; [by destruct ds|].
    intros rest acc. rewrite <- app_assoc. rewrite Hvalue. cbn [app JS.parse_digits].
    rewrite digit_value_pretty by (apply N.mod_lt; lia).
    assert (Hlt : (Z.of_N (x `mod` 10) <? 10) = true).
    { apply Z.ltb_lt. pose proof (N.mod_lt x 10). lia. }
    rewrite Hlt. f_equal.
    rewrite length_app, Nat2Z.inj_add. cbn [length].
    rewrite Z.pow_add_r by lia.
    rewrite (N.div_mod x 10) at 3 by lia.
    rewrite N2Z.inj_add, N2Z.inj_mul. change (Z.of_nat 1) with 1.
    change (Z.of_N 10) with 10. rewrite Z.pow_1_r. ring.
  - assert (x = 0%N) as -> by lia. rewrite pretty_N_go_0.
    exists []. split; [reflexivity|]. split; [constructor|].
    split; [lia|]. intros rest acc. cbn. f_equal. lia.
Qed.

Lemma trim_start_digits cs :
  match cs with [] => True | c :: _ => JS.is_white_space c = false end ->
  JS.trim_start cs = cs.
Proof. destruct cs as [|c cs]; [reflexivity|]. cbn. by intros ->. Qed.

(** Trimming leaves alone a text with no white space at either end. *)
Lemma trim_no_space cs :
  Forall (fun c => JS.is_white_space c = false) cs -> JS.trim cs = cs.
Proof.
  intros Hall. unfold JS.trim.
  rewrite (trim_start_digits cs) by (destruct Hall; cbn; auto).
  rewrite trim_start_digits.
  - apply rev_involutive.
  - assert (Hrev : Forall (fun c => JS.is_white_space c = false) (rev cs)).
    { apply Forall_forall. intros c Hc. rewrite Forall_forall in Hall.
      apply Hall. apply list_elem_of_In. apply in_rev. by apply list_elem_of_In. }
    destruct Hrev; cbn; auto.
Qed.

(** A non-empty run of decimal digits is read in base ten. *)
Lemma StringToBigInt_of_digits (str : string) :
  list_ascii_of_string str <> [] ->
  Forall dec_digit (list_ascii_of_string str) ->
  JS.StringToBigInt str = JS.parse_nonempty 10 (list_ascii_of_string str).
Proof.
  intros Hne Hall. unfold JS.StringToBigInt.
  rewrite trim_no_space
    by (eapply Forall_impl; [exact Hall|apply dec_digit_not_space]).
  destruct (list_ascii_of_string str) as [|c1 cs]; [done|].
  inversion Hall as [|? ? (d1 & Hd1 & ->) Hrest]; subst.
  assert (d1 = 0 \/ d1 = 1 \/ d1 = 2 \/ d1 = 3 \/ d1 = 4 \/ d1 = 5 \/ d1 = 6
          \/ d1 = 7 \/ d1 = 8 \/ d1 = 9)%N as Hcases by lia.
  destruct Hcases as [->|Hcases].
  - destruct cs as [|c2 cs]; [reflexivity|].
    inversion Hrest as [|? ? (d2 & Hd2 & ->) _]; subst.
    assert (d2 = 0 \/ d2 = 1 \/ d2 = 2 \/ d2 = 3 \/ d2 = 4 \/ d2 = 5 \/ d2 = 6
            \/ d2 = 7 \/ d2 = 8 \/ d2 = 9)%N as Hcases2 by lia.
    repeat destruct Hcases2 as [->|Hcases2]; try reflexivity. subst. reflexivity.
  - repeat destruct Hcases as [->|Hcases]; try reflexivity. subst. reflexivity.
Qed.

(** Reading back the decimal text of a natural number. *)
Lemma StringToBigInt_digits (x : N) :
  (0 < x)%N ->
  exists ds,
    list_ascii_of_string (pretty_N_go x "") = ds
    /\ ds <> [] /\ Forall dec_digit ds
    /\ JS.parse_nonempty 10 ds = Some (Z.of_N x).
Proof.
  intros Hpos.
  destruct (pretty_N_go_digits x "") as (ds & Hchars & Hdigits & Hne & Hvalue).
  cbn in Hchars. rewrite app_nil_r in Hchars.
  exists ds. split; [exact Hchars|]. split; [by apply Hne|]. split; [exact Hdigits|].
  specialize (Hvalue [] 0). rewrite app_nil_r in Hvalue.
  unfold JS.parse_nonempty. destruct ds as [|c ds]; [by destruct Hne|].
  rewrite Hvalue. cbn. f_equal.
Qed.

(** [BigInt(n.toString())] is [n]. *)
Lemma StringToBigInt_toString (n : Z) :
  JS.StringToBigInt (BigInt_toString n) = Some n.
Proof.
  unfold BigInt_toString, pretty, pretty_Z.
  destruct n as [|p|p]; [reflexivity| |].
  - unfold pretty, pretty_positive, pretty, pretty_N.
    destruct (decide (N.pos p = 0%N)) as [Hz|_]; [discriminate|].
    destruct (StringToBigInt_digits (N.pos p)) as (ds & Hchars & Hne & Hdigits & Hval);
      [lia|].
    rewrite StringToBigInt_of_digits; rewrite Hchars; assumption.
  - unfold pretty, pretty_positive, pretty, pretty_N.
    destruct (decide (N.pos p = 0%N)) as [Hz|_]; [discriminate|].
    destruct (StringToBigInt_digits (N.pos p)) as (ds & Hchars & Hne & Hdigits & Hval);
      [lia|].
    unfold JS.StringToBigInt.
    change (list_ascii_of_string ("-" +:+ pretty_N_go (N.pos p) ""))
      with ("-"%char :: list_ascii_of_string (pretty_N_go (N.pos p) "")).
    rewrite Hchars.
    rewrite trim_no_space.
    + cbn [fmap option_fmap option_map]. rewrite Hval. reflexivity.
    + constructor; [reflexivity|].
      eapply Forall_impl; [exact Hdigits|apply dec_digit_not_space].
Qed.

Lemma BigInt_of_string_toString (n : Z) :
  BigInt_of_string (BigInt_toString n) = Return n.
Proof.
  unfold BigInt_of_string, JS.BigInt. by rewrite StringToBigInt_toString.
Qed.

Lemma BigInt_of_string_value str n :
  JS.StringToBigInt str = Some n -> BigInt_of_string str = Return n.
Proof. intros Hn. unfold BigInt_of_string, JS.BigInt. by rewrite Hn. Qed.

Lemma BigInt_pow10_exact decimals :
  0 <= decimals <= 22 -> BigInt_pow10 decimals = Some (10 ^ decimals).
Proof.
  intros [Hlo Hhi]. unfold BigInt_pow10.
  apply Z.leb_le in Hlo, Hhi. by rewrite Hlo, Hhi.
Qed.

Lemma pow10_pos k : 0 <= k -> 0 < 10 ^ k.
Proof. intros. apply Z.pow_pos_nonneg; lia. Qed.

(** X4. For a token with at most 18 decimals, [parseAmount] undoes
    [formatAmount]: formatting an integer amount to 18 decimals and parsing
    the result back gives the amount, printed in decimal. *)
Theorem parseAmount_formatAmount (amount : string) (n decimals : Z) :
  JS.StringToBigInt amount = Some n ->
  0 <= decimals <= 18 ->
  exists formatted,
    formatAmount amount decimals = Some (Return formatted)
    /\ parseAmount formatted decimals = Some (Return (BigInt_toString n)).
Proof.
  intros Hn Hd. unfold formatAmount, parseAmount.
  rewrite (BigInt_of_string_value _ _ Hn), BigInt_pow10_exact by lia.
  eexists. split; [reflexivity|].
  rewrite BigInt_of_string_toString. do 3 f_equal.
  replace 18 with ((18 - decimals) + decimals) at 1 by lia.
  rewrite Z.pow_add_r by lia. rewrite Z.mul_assoc.
  rewrite Z.quot_mul by (pose proof (pow10_pos decimals); lia).
  rewrite <- Z.mul_assoc, <- Z.pow_add_r by lia.
  replace (18 - decimals + decimals) with 18 by lia.
  apply Z.quot_mul. pose proof (pow10_pos 18). lia.
Qed.

Lemma parseAmount_formatAmount_witness :
  exists formatted,
    formatAmount "1000000" 6 = Some (Return formatted)
    /\ parseAmount formatted 6 = Some (Return (BigInt_toString 1000000)).
Proof.
  apply (parseAmount_formatAmount "1000000" 1000000 6); [reflexivity|lia].
Defined.

(** X5. For a token with 18 to 22 decimals, [formatAmount] divides and the
    round trip loses the low digits: formatting and parsing back gives the
    amount minus its remainder modulo [10 ^ (decimals - 18)]. *)
Theorem parseAmount_formatAmount_truncates (amount : string) (n decimals : Z) :
  JS.StringToBigInt amount = Some n ->
  18 <= decimals <= 22 ->
  exists formatted,
    formatAmount amount decimals = Some (Return formatted)
    /\ parseAmount formatted decimals
       = Some (Return (BigInt_toString (n - Z.rem n (10 ^ (decimals - 18))))).
Proof.
  intros Hn Hd. unfold formatAmount, parseAmount.
  rewrite (BigInt_of_string_value _ _ Hn), BigInt_pow10_exact by lia.
  eexists. split; [reflexivity|].
  rewrite BigInt_of_string_toString. do 3 f_equal.
  pose proof (pow10_pos 18) as H18. pose proof (pow10_pos (decimals - 18)) as Hk.
  replace decimals with ((decimals - 18) + 18) at 1 2 by lia.
  rewrite Z.pow_add_r by lia.
  rewrite Z.quot_mul_cancel_r by lia.
  rewrite Z.mul_assoc, Z.quot_mul by lia.
  pose proof (Z.quot_rem' n (10 ^ (decimals - 18))). lia.
Qed.

Lemma parseAmount_formatAmount_truncates_witness :
  exists formatted,
    formatAmount "12345" 20 = Some (Return formatted)
    /\ parseAmount formatted 20
       = Some (Return (BigInt_toString (12345 - Z.rem 12345 (10 ^ (20 - 18))))).
Proof.
  apply (parseAmount_formatAmount_truncates "12345" 12345 20); [reflexivity|lia].
Defined.

(** X6. In the other direction, for a token with at most 18 decimals,
    [parseAmount] divides: parsing an 18-decimal amount and formatting it
    again gives the amount minus its remainder modulo
    [10 ^ (18 - decimals)]. *)
Theorem formatAmount_parseAmount_truncates (amount : string) (n decimals : Z) :
  JS.StringToBigInt amount = Some n ->
  0 <= decimals <= 18 ->
  exists parsed,
    parseAmount amount decimals = Some (Return parsed)
    /\ formatAmount parsed decimals
       = Some (Return (BigInt_toString (n - Z.rem n (10 ^ (18 - decimals))))).
Proof.
  intros Hn Hd. unfold formatAmount, parseAmount.
  rewrite (BigInt_of_string_value _ _ Hn), BigInt_pow10_exact by lia.
  eexists. split; [reflexivity|].
  rewrite BigInt_of_string_toString. do 3 f_equal.
  pose proof (pow10_pos decimals) as Hdpos.
  pose proof (pow10_pos (18 - decimals)) as Hk.
  replace 18 with ((18 - decimals) + decimals) at 1 2 by lia.
  rewrite Z.pow_add_r by lia.
  rewrite Z.quot_mul_cancel_r by lia.
  rewrite Z.mul_assoc, Z.quot_mul by lia.
  pose proof (Z.quot_rem' n (10 ^ (18 - decimals))). lia.
Qed.

Lemma formatAmount_parseAmount_truncates_witness :
  exists parsed,
    parseAmount "1999999999999" 6 = Some (Return parsed)
    /\ formatAmount parsed 6
       = Some (Return (BigInt_toString
                         (1999999999999 - Z.rem 1999999999999 (10 ^ (18 - 6))))).
Proof.
  apply (formatAmount_parseAmount_truncates "1999999999999" 1999999999999 6);
    [reflexivity|lia].
Defined.

End AmountFacts.

(** * Further properties of validation and secret generation *)

Module UtilsMore.
Import fusionUtils.

(** X7. The required properties are checked in the order srcChain,
    dstChain, srcAsset, dstAsset, amount, maker, deadline, and the error names
    the first one that is absent or falsy; the amount and the deadline are
    not looked at in that case. *)
Theorem validateOrderParams_names_first_missing
  {S : Type} `{Platform S} (order : PartialUniversalOrder) (s : S)
  (before after : list string) (field : string) :
  required = before ++ field :: after ->
  (forall f, f ∈ before -> falsy (get_field order f) = false) ->
  falsy (get_field order field) = true ->
  validateOrderParams order s
  = (Throw (JSError ("Missing required field: " +:+ field)), s).
Proof.
  intros Hsplit Hbefore Hfield. unfold validateOrderParams, bind.
  rewrite Hsplit. clear Hsplit.
  induction before as [|f before IH]; cbn.
  - by rewrite Hfield.
  - rewrite (Hbefore f) by apply list_elem_of_here.
    apply IH. intros f' Hf'. apply Hbefore. by apply list_elem_of_further.
Qed.

Lemma validateOrderParams_names_first_missing_witness :
  validateOrderParams
    {| p_srcChain := Some (CNum 42161); p_dstChain := Some (CNum 8453);
       p_srcAsset := Some (Sim.usdc (CNum 42161));
       p_dstAsset := Some (Sim.usdc (CNum 8453));
       p_amount := Some "not a number"; p_maker := Some "";
       p_deadline := None |} Sim.start
  = (Throw (JSError "Missing required field: maker"), Sim.start).
Proof.
  apply (validateOrderParams_names_first_missing _ Sim.start
           ["srcChain"; "dstChain"; "srcAsset"; "dstAsset"; "amount"]
           ["deadline"] "maker").
  - reflexivity.
  - intros f Hf. repeat (apply elem_of_cons in Hf as [->|Hf]; [reflexivity|]).
    by apply elem_of_nil in Hf.
  - reflexivity.
Defined.

(** X8. With [secretsCount <= 0], [generateSecretsAndHashLock] draws no
    random value and does not return an empty result: it asks the SDK for
    the multi-fill commitment over no leaf, and throws the assertion error
    of the SDK. *)
Theorem generateSecretsAndHashLock_none
  {S : Type} `{Platform S} (secretsCount : Z) (s : S) :
  secretsCount <= 0 ->
  generateSecretsAndHashLock secretsCount s
  = (Throw (JSError
              "leaves array must be greater than 2. Or use HashLock.forSingleFill"),
     s).
Proof.
  intros Hle. unfold generateSecretsAndHashLock, bind.
  replace (Z.to_nat secretsCount) with 0%nat by lia. cbn.
  destruct (decide (secretsCount = 1)); [lia|reflexivity].
Qed.

Lemma generateSecretsAndHashLock_none_witness :
  generateSecretsAndHashLock 0 Sim.start
  = (Throw (JSError
              "leaves array must be greater than 2. Or use HashLock.forSingleFill"),
     Sim.start).
Proof. apply (generateSecretsAndHashLock_none 0 Sim.start). lia. Defined.

End UtilsMore.

(** * adapters/ChainAdapterFactory.ts: the remaining registry method *)

Module ChainAdapterFactory_info.
Import ChainAdapterFactory.

Record AdapterInfo : Type := {
  info_chainId : ChainId;
  supported : bool
}.

(** [getAdapterInfo] (ChainAdapterFactory.ts, lines 110-116). *)
Definition getAdapterInfo (chainId : ChainId) : M World AdapterInfo :=
  fun w =>
    let key := ChainId_toString chainId in
    (Return {| info_chainId := chainId;
               supported := bool_decide (is_Some (adapters (this w) !! key)) |},
     w).

(** The public methods of the registry, as calls. *)
Inductive Method : Type :=
| CreateAdapter (chainId : ChainId)
| RegisterAdapter (chainId : ChainId) (adapterFactory : Callable)
| GetAdapterInfo (chainId : ChainId)
| ClearCache.

(** The registry after a call, whether the call returned or threw. *)
Definition after_call (w : World) (m : Method) : World :=
  match m with
  | CreateAdapter chainId => snd (createAdapter chainId w)
  | RegisterAdapter chainId adapterFactory =>
      snd (registerAdapter chainId adapterFactory w)
  | GetAdapterInfo chainId => snd (getAdapterInfo chainId w)
  | ClearCache => snd (clearCache w)
  end.

(** The registry after a sequence of calls on a new [ChainAdapterFactory]. *)
Definition after_calls (h : Heap) (ms : list Method) : World :=
  foldl after_call (constructor h) ms.

End ChainAdapterFactory_info.

Module RegistryMore.
Import ChainAdapterFactory ChainAdapterFactory_info RegistryFacts.

Lemma cache_backed_after_call w m : cache_backed w -> cache_backed (after_call w m).
Proof.
  intros Hinv. destruct m as [c|c f|c|]; cbn.
  - unfold createAdapter.
    destruct (instances (this w) !! ChainId_toString c) eqn:Hc; [exact Hinv|].
    destruct (adapters (this w) !! ChainId_toString c) as [cls|] eqn:Hf; [|exact Hinv].
    destruct (new_ cls (heap w)) as [[a|e] heap']; cbn; [|exact Hinv].
    intros key. cbn. destruct (decide (ChainId_toString c = key)) as [<-|Hne].
    + intros _. by rewrite Hf.
    + rewrite lookup_insert_ne by done. apply Hinv.
  - intros key. cbn.
    destruct (decide (ChainId_toString c = key)) as [<-|Hne].
    + intros _. rewrite lookup_insert_eq. eauto.
    + rewrite lookup_insert_ne by done. intros Hsome. apply Hinv.
      destruct (decide (is_Some (instances (this w) !! ChainId_toString c)));
        [by rewrite lookup_delete_ne in Hsome|exact Hsome].
  - exact Hinv.
  - intros key. cbn. rewrite lookup_empty. by intros [? ?].
Qed.

Lemma cache_backed_constructor h : cache_backed (constructor h).
Proof. intros key. vm_compute. by intros [? ?]. Qed.

Lemma registered_after_call w m key :
  is_Some (adapters (this w) !! key) -> is_Some (adapters (this (after_call w m)) !! key).
Proof.
  intros Hreg. destruct m as [c|c f|c|]; cbn; try exact Hreg.
  - unfold createAdapter.
    destruct (instances (this w) !! ChainId_toString c); [exact Hreg|].
    destruct (adapters (this w) !! ChainId_toString c); [|exact Hreg].
    by destruct (new_ _ (heap w)) as [[a|e] heap'].
  - destruct (decide (ChainId_toString c = key)) as [<-|Hne].
    + rewrite lookup_insert_eq. eauto.
    + by rewrite lookup_insert_ne.
Qed.

(** X9. In every state the registry can reach from its construction, each
    cached instance belongs to an id that has a registered factory; so
    [createAdapter] for an id without a factory always throws "No adapter
    registered for chain ID", and leaves the registry as it was. *)
Theorem unregistered_chain_always_refused
  (h : Heap) (ms : list Method) (chainId : ChainId) :
  adapters (this (after_calls h ms)) !! ChainId_toString chainId = None ->
  cache_backed (after_calls h ms)
  /\ createAdapter chainId (after_calls h ms)
     = (Throw (JSError ("No adapter registered for chain ID: "
                        +:+ ChainId_toString chainId)), after_calls h ms).
Proof.
  intros Hnone.
  assert (Hinv : cache_backed (after_calls h ms)).
  { clear Hnone. unfold after_calls. generalize (cache_backed_constructor h).
    generalize (constructor h). induction ms as [|m ms IH]; intros w Hw; [exact Hw|].
    cbn. apply IH. by apply cache_backed_after_call. }
  split; [exact Hinv|]. by apply createAdapter_unregistered.
Qed.

Lemma unregistered_chain_always_refused_witness :
  cache_backed (after_calls [] [RegisterAdapter (CNum 1) (SimRegistry.custom "Mainnet");
                                CreateAdapter (CNum 1); ClearCache])
  /\ createAdapter (CNum 42161)
       (after_calls [] [RegisterAdapter (CNum 1) (SimRegistry.custom "Mainnet");
                        CreateAdapter (CNum 1); ClearCache])
     = (Throw (JSError "No adapter registered for chain ID: 42161"),
        after_calls [] [RegisterAdapter (CNum 1) (SimRegistry.custom "Mainnet");
                        CreateAdapter (CNum 1); ClearCache]).
Proof.
  apply (unregistered_chain_always_refused []
           [RegisterAdapter (CNum 1) (SimRegistry.custom "Mainnet");
            CreateAdapter (CNum 1); ClearCache] (CNum 42161)).
  vm_compute. reflexivity.
Defined.

(** X10. No method unregisters a chain: an id that has a factory keeps
    having one through any sequence of calls (under either form of the id,
    number or decimal string), and [getAdapterInfo] keeps reporting it as
    supported, without creating an instance or changing the registry. *)
Theorem registration_is_permanent
  (w : World) (ms : list Method) (chainId : ChainId) :
  is_Some (adapters (this w) !! ChainId_toString chainId) ->
  is_Some (adapters (this (foldl after_call w ms)) !! ChainId_toString chainId)
  /\ getAdapterInfo chainId (foldl after_call w ms)
     = (Return {| info_chainId := chainId; supported := true |},
        foldl after_call w ms).
Proof.
  intros Hreg.
  assert (Hstill : is_Some (adapters (this (foldl after_call w ms))
                            !! ChainId_toString chainId)).
  { revert w Hreg. induction ms as [|m ms IH]; intros w Hreg; [exact Hreg|].
    cbn. apply IH. by apply registered_after_call. }
  split; [exact Hstill|].
  unfold getAdapterInfo. by rewrite bool_decide_eq_true_2.
Qed.

Lemma registration_is_permanent_witness :
  is_Some (adapters (this (foldl after_call chainAdapterFactory
                             [ClearCache; CreateAdapter (CNum 137);
                              RegisterAdapter (CNum 1) (SimRegistry.custom "Mainnet")]))
           !! ChainId_toString (CStr "137"))
  /\ getAdapterInfo (CStr "137")
       (foldl after_call chainAdapterFactory
          [ClearCache; CreateAdapter (CNum 137);
           RegisterAdapter (CNum 1) (SimRegistry.custom "Mainnet")])
     = (Return {| info_chainId := CStr "137"; supported := true |},
        foldl after_call chainAdapterFactory
          [ClearCache; CreateAdapter (CNum 137);
           RegisterAdapter (CNum 1) (SimRegistry.custom "Mainnet")]).
Proof.
  apply (registration_is_permanent chainAdapterFactory
           [ClearCache; CreateAdapter (CNum 137);
            RegisterAdapter (CNum 1) (SimRegistry.custom "Mainnet")] (CStr "137")).
  eexists. vm_compute. reflexivity.
Defined.

(** X11. Hot swap.  When an id has a cached instance and a new factory that
    allocates its adapter is registered for it, the next [createAdapter]
    returns a newly allocated object, distinct from the instance cached
    before, caches it, and a further call returns that same new object. *)
Theorem registerAdapter_replaces_instance
  (w : World) (chainId : ChainId) (old : AdapterRef) (o : AdapterObject) :
  instances (this w) !! ChainId_toString chainId = Some old ->
  (old < length (heap w))%nat ->
  exists w1 w2 fresh,
    registerAdapter chainId (Constructor (new_object o)) w = (Return tt, w1)
    /\ createAdapter chainId w1 = (Return fresh, w2)
    /\ fresh <> old
    /\ heap w !! fresh = None
    /\ heap w2 !! fresh = Some o
    /\ createAdapter chainId w2 = (Return fresh, w2).
Proof.
  intros Hold Hlt.
  destruct (registerAdapter_effect chainId (Constructor (new_object o)) w)
    as (w1 & Hreg & Hf & Hi & Hheap).
  destruct (new_object_fresh o (heap w)) as (fresh & Hnew & Hnone & Hsome).
  assert (Hrun : createAdapter chainId w1
                 = (Return fresh,
                    {| this := {| adapters := adapters (this w1);
                                  instances := <[ChainId_toString chainId := fresh]>
                                                 (instances (this w1)) |};
                       heap := heap w ++ [o] |})).
  { unfold createAdapter. rewrite Hi, Hf. cbn [new_]. by rewrite Hheap, Hnew. }
  eexists w1, _, fresh. split; [exact Hreg|]. split; [exact Hrun|].
  split.
  { intros ->. apply lookup_ge_None in Hnone. lia. }
  split; [exact Hnone|]. split; [exact Hsome|].
  by apply createAdapter_cached with w1.
Qed.

Lemma registerAdapter_replaces_instance_witness :
  exists w1 w2 fresh,
    registerAdapter (CNum 1) (Constructor (new_object (CustomAdapter "Mock")))
                    SimRegistry.with_mainnet_cached = (Return tt, w1)
    /\ createAdapter (CNum 1) w1 = (Return fresh, w2)
    /\ fresh <> 0%nat
    /\ heap SimRegistry.with_mainnet_cached !! fresh = None
    /\ heap w2 !! fresh = Some (CustomAdapter "Mock")
    /\ createAdapter (CNum 1) w2 = (Return fresh, w2).
Proof.
  apply (registerAdapter_replaces_instance SimRegistry.with_mainnet_cached
           (CNum 1) 0%nat (CustomAdapter "Mock")).
  - vm_compute. reflexivity.
  - vm_compute. lia.
Defined.

(** X12. [clearCache] forgets every instance and no registration: after it,
    [createAdapter] for an id whose factory allocates its adapter builds a
    new object, whatever was cached for that id before. *)
Theorem clearCache_forces_new_instance
  (w : World) (chainId : ChainId) (o : AdapterObject) :
  adapters (this w) !! ChainId_toString chainId = Some (Constructor (new_object o)) ->
  exists w1 w2 fresh,
    clearCache w = (Return tt, w1)
    /\ adapters (this w1) = adapters (this w)
    /\ instances (this w1) = ∅
    /\ createAdapter chainId w1 = (Return fresh, w2)
    /\ heap w !! fresh = None
    /\ heap w2 !! fresh = Some o.
Proof.
  intros Hf.
  destruct (new_object_fresh o (heap w)) as (fresh & Hnew & Hnone & Hsome).
  eexists _, _, fresh. split; [reflexivity|]. cbn.
  split; [reflexivity|]. split; [reflexivity|].
  split; [|split; [exact Hnone|]].
  - unfold createAdapter. cbn. rewrite lookup_empty, Hf. cbn [new_].
    rewrite Hnew. reflexivity.
  - exact Hsome.
Qed.

Lemma clearCache_forces_new_instance_witness :
  exists w1 w2 fresh,
    clearCache SimRegistry.with_mainnet_cached = (Return tt, w1)
    /\ adapters (this w1) = adapters (this SimRegistry.with_mainnet_cached)
    /\ instances (this w1) = ∅
    /\ createAdapter (CNum 1) w1 = (Return fresh, w2)
    /\ heap SimRegistry.with_mainnet_cached !! fresh = None
    /\ heap w2 !! fresh = Some (CustomAdapter "Mainnet").
Proof.
  apply (clearCache_forces_new_instance SimRegistry.with_mainnet_cached (CNum 1)).
  vm_compute. reflexivity.
Defined.

(** X13. Ids with different string forms do not interfere: an instance
    cached for one id is still the one [createAdapter] returns for it after
    a [createAdapter] or a [registerAdapter] for the other id. *)
Theorem other_chain_instance_survives
  (w : World) (chainId other : ChainId) (cached : AdapterRef) (f : Callable) :
  ChainId_toString other <> ChainId_toString chainId ->
  instances (this w) !! ChainId_toString chainId = Some cached ->
  createAdapter chainId (snd (createAdapter other w))
  = (Return cached, snd (createAdapter other w))
  /\ createAdapter chainId (snd (registerAdapter other f w))
     = (Return cached, snd (registerAdapter other f w)).
Proof.
  intros Hne Hc. split.
  - assert (Hkeep : instances (this (snd (createAdapter other w)))
                    !! ChainId_toString chainId = Some cached).
    { unfold createAdapter.
      destruct (instances (this w) !! ChainId_toString other); [exact Hc|].
      destruct (adapters (this w) !! ChainId_toString other); [|exact Hc].
      destruct (new_ _ (heap w)) as [[a|e] heap']; cbn; [|exact Hc].
      by rewrite lookup_insert_ne. }
    unfold createAdapter at 1. by rewrite Hkeep.
  - assert (Hkeep : instances (this (snd (registerAdapter other f w)))
                    !! ChainId_toString chainId = Some cached).
    { cbn. destruct (decide (is_Some (instances (this w) !! ChainId_toString other)));
        [by rewrite lookup_delete_ne|exact Hc]. }
    unfold createAdapter at 1. by rewrite Hkeep.
Qed.

Lemma other_chain_instance_survives_witness :
  createAdapter (CNum 1)
    (snd (createAdapter (CNum 137) SimRegistry.with_mainnet_cached))
  = (Return 0%nat, snd (createAdapter (CNum 137) SimRegistry.with_mainnet_cached))
  /\ createAdapter (CNum 1)
       (snd (registerAdapter (CNum 137) (SimRegistry.custom "Polygon")
                             SimRegistry.with_mainnet_cached))
     = (Return 0%nat,
        snd (registerAdapter (CNum 137) (SimRegistry.custom "Polygon")
                             SimRegistry.with_mainnet_cached)).
Proof.
  apply (other_chain_instance_survives SimRegistry.with_mainnet_cached
           (CNum 1) (CNum 137) 0%nat (SimRegistry.custom "Polygon")).
  - vm_compute. discriminate.
  - vm_compute. reflexivity.
Defined.

End RegistryMore.

(** * Further properties of the order manager *)

Module ManagerMore.
Import fusionUtils fusionOrders ManagerFacts.

#[local] Arguments stopOrderMonitoring : simpl never.
#[local] Arguments checkOrderStatus : simpl never.
#[local] Arguments processOrderFills : simpl never.
#[local] Arguments process_fill : simpl never.
#[local] Arguments getQuote : simpl never.
#[local] Arguments retry_configured : simpl never.
#[local] Arguments validateOrderParams : simpl never.
#[local] Arguments generateSecretsAndHashLock : simpl never.
#[local] Arguments startOrderMonitoring : simpl never.

(** What a tick for [orderHash] leaves alone: every other stored order, the
    absence of the order if it is not stored, the adapters, the stored
    secrets, the configuration, the intervals registered for other orders,
    and every live interval other than the one registered for [orderHash]. *)
Definition others_kept {X} (orderHash : string) (st st' : State X) : Prop :=
  (forall h, h <> orderHash ->
             activeOrders (this st') !! h = activeOrders (this st) !! h)
  /\ (activeOrders (this st) !! orderHash = None ->
      activeOrders (this st') !! orderHash = None)
  /\ adapters (this st') = adapters (this st)
  /\ orderSecrets (this st') = orderSecrets (this st)
  /\ config_maxRetries (this st') = config_maxRetries (this st)
  /\ (forall h, h <> orderHash ->
                pollingIntervals (this st') !! h = pollingIntervals (this st) !! h)
  /\ (forall id, pollingIntervals (this st) !! orderHash <> Some id ->
                 timers st' !! id = timers st !! id).

Section Frames.
Context {X : Type} `{Platform X}.
Variable sdk : Collaborators X.
Variable orderHash : string.

Lemma others_kept_refl (st : State X) : others_kept orderHash st st.
Proof. by repeat split. Qed.

Lemma others_kept_trans (st1 st2 st3 : State X) :
  pollingIntervals (this st2) !! orderHash = pollingIntervals (this st1) !! orderHash
  \/ pollingIntervals (this st2) !! orderHash = None ->
  others_kept orderHash st1 st2 -> others_kept orderHash st2 st3 ->
  others_kept orderHash st1 st3.
Proof.
  intros Hreg (Ho1 & Hn1 & Ha1 & Hs1 & Hc1 & Hp1 & Ht1)
         (Ho2 & Hn2 & Ha2 & Hs2 & Hc2 & Hp2 & Ht2).
  split_and!; try congruence.
  - intros h Hh. rewrite Ho2, Ho1 by done. reflexivity.
  - auto.
  - intros h Hh. rewrite Hp2, Hp1 by done. reflexivity.
  - intros id Hid. rewrite Ht2, Ht1; [reflexivity|exact Hid|].
    destruct Hreg as [->| ->]; [exact Hid|discriminate].
Qed.

(** A change to the external state, the call log or the stored order under
    [orderHash] keeps the others. *)
Lemma others_kept_external (st : State X) x' calls' f :
  others_kept orderHash st
    {| ext := x'; calls := calls'; timers := timers st;
       next_timer := next_timer st;
       this := with_activeOrders (alter f orderHash) (this st) |}.
Proof.
  split_and!; try reflexivity.
  - intros h Hh. cbn. by rewrite lookup_alter_ne.
  - intros Hnone. cbn. by rewrite lookup_alter_eq, Hnone.
Qed.

Lemma others_kept_called (st : State X) x' calls' :
  others_kept orderHash st
    {| ext := x'; calls := calls'; timers := timers st;
       next_timer := next_timer st; this := this st |}.
Proof. by repeat split. Qed.

Lemma stopped_others_kept (st : State X) :
  others_kept orderHash st (stopped orderHash st).
Proof.
  unfold stopped.
  destruct (pollingIntervals (this st) !! orderHash) as [id|] eqn:Hid;
    [|apply others_kept_refl].
  split_and!; try reflexivity.
  - auto.
  - intros h Hh. cbn. by rewrite lookup_delete_ne.
  - intros id' Hid'. cbn. rewrite lookup_delete_ne; [reflexivity|congruence].
Qed.

Lemma stopped_registration (st : State X) :
  pollingIntervals (this (stopped orderHash st)) !! orderHash = None.
Proof.
  unfold stopped.
  destruct (pollingIntervals (this st) !! orderHash) as [id|] eqn:Hid; [|exact Hid].
  cbn. apply lookup_delete_eq.
Qed.

Lemma checkOrderStatus_others_kept (st : State X) :
  exists st',
    checkOrderStatus sdk orderHash st = (Return tt, st')
    /\ others_kept orderHash st st'
    /\ (pollingIntervals (this st') !! orderHash
        = pollingIntervals (this st) !! orderHash
        \/ pollingIntervals (this st') !! orderHash = None).
Proof.
  unfold checkOrderStatus, bind, gets, try_catch, call.
  destruct (activeOrders (this st) !! orderHash) as [o|].
  2:{ exists st. split; [reflexivity|]. split; [apply others_kept_refl|by left]. }
  destruct (sdk_getOrderStatus sdk orderHash (ext st)) as [[reported|e] x'].
  - destruct (decide (reported = "executed")) as [->|Hne];
      [|destruct (decide (reported = "cancelled")) as [->|Hnc]].
    + unfold assign_status, modify. rewrite stopOrderMonitoring_run.
      eexists. split; [reflexivity|]. split; [|right; apply stopped_registration].
      eapply others_kept_trans; [|apply others_kept_external|apply stopped_others_kept].
      by left.
    + unfold assign_status, modify. rewrite stopOrderMonitoring_run.
      eexists. split; [reflexivity|]. split; [|right; apply stopped_registration].
      eapply others_kept_trans; [|apply others_kept_external|apply stopped_others_kept].
      by left.
    + eexists. split; [reflexivity|]. split; [apply others_kept_called|by left].
  - eexists. split; [reflexivity|]. split; [apply others_kept_called|by left].
Qed.

Lemma process_fill_others_kept secrets fill (st : State X) :
  exists st',
    process_fill sdk orderHash secrets fill st = (Return tt, st')
    /\ others_kept orderHash st st'
    /\ pollingIntervals (this st') = pollingIntervals (this st).
Proof.
  unfold process_fill, try_catch, bind, call, gets, modify.
  destruct (sdk_submitSecret sdk orderHash (secret_at secrets (ready_idx fill)) (ext st))
    as [[[]|e] x'].
  - cbn [this]. destruct (activeOrders (this st) !! orderHash).
    + eexists. split; [reflexivity|]. unfold with_this.
      cbn [ext calls timers next_timer this].
      split; [apply others_kept_external|reflexivity].
    + eexists. split; [reflexivity|]. split; [apply others_kept_called|reflexivity].
  - eexists. split; [reflexivity|]. split; [apply others_kept_called|reflexivity].
Qed.

Lemma process_fills_others_kept secrets ready :
  forall st : State X,
    exists st',
      process_fills sdk orderHash secrets ready st = (Return tt, st')
      /\ others_kept orderHash st st'
      /\ pollingIntervals (this st') = pollingIntervals (this st).
Proof.
  induction ready as [|fill rest IH]; intros st.
  - exists st. split; [reflexivity|]. split; [apply others_kept_refl|reflexivity].
  - destruct (process_fill_others_kept secrets fill st) as (st1 & Hrun1 & Hk1 & Hp1).
    destruct (IH st1) as (st2 & Hrun2 & Hk2 & Hp2).
    exists st2. split; [cbn [process_fills]; unfold bind; by rewrite Hrun1|].
    split; [|congruence].
    eapply others_kept_trans; [|exact Hk1|exact Hk2]. left. by rewrite Hp1.
Qed.

Lemma processOrderFills_others_kept (st : State X) :
  exists r st',
    processOrderFills sdk orderHash st = (r, st')
    /\ others_kept orderHash st st'.
Proof.
  unfold processOrderFills, bind, gets, try_catch, call.
  destruct (orderSecrets (this st) !! orderHash) as [secrets|].
  2:{ exists (Return tt), st. split; [reflexivity|apply others_kept_refl]. }
  destruct (sdk_getReadyToAcceptSecretFills sdk orderHash (ext st)) as [[ready|e] x'].
  - destruct ready as [|fill rest].
    + cbn. eexists _, _. split; [reflexivity|apply others_kept_called].
    + change (0 <? length (fill :: rest))%nat with true. cbv iota.
      match goal with
      | |- context [process_fills sdk orderHash secrets (fill :: rest) ?s1] =>
          destruct (process_fills_others_kept secrets (fill :: rest) s1)
            as (st2 & -> & Hk & Hp)
      end.
      exists (Return tt), st2. split; [reflexivity|].
      eapply others_kept_trans; [|apply others_kept_called|exact Hk]. by left.
  - destruct e; (eexists _, _; split; [reflexivity|apply others_kept_called]).
Qed.

Lemma tick_others_kept (st : State X) :
  exists st',
    tick sdk orderHash st = (Return tt, st')
    /\ others_kept orderHash st st'.
Proof.
  destruct (checkOrderStatus_others_kept st) as (st1 & Hrun1 & Hk1 & Hreg).
  destruct (processOrderFills_others_kept st1) as (r2 & st2 & Hrun2 & Hk2).
  exists st2.
  split; [unfold tick, try_catch, bind; rewrite Hrun1, Hrun2; by destruct r2 as [[]|?]|].
  eapply others_kept_trans; [exact Hreg|exact Hk1|exact Hk2].
Qed.

End Frames.

(** X14. Orders are independent.  A tick for one order, whether or not that
    order is stored and whatever the service answers, returns without
    throwing and leaves every other stored order, the stored secrets, the
    adapters, the intervals registered for other orders and every live
    interval except the one registered for this order as they were; it
    never adds an order to the store. *)
Theorem tick_keeps_other_orders
  {X : Type} `{Platform X} (sdk : Collaborators X)
  (orderHash : string) (st : State X) :
  exists st',
    tick sdk orderHash st = (Return tt, st')
    /\ others_kept orderHash st st'.
Proof. apply tick_others_kept. Qed.

(** The manager, the live intervals and the next free handle are as
    before. *)
Definition untouched {X} (st st' : State X) : Prop :=
  this st' = this st /\ timers st' = timers st /\ next_timer st' = next_timer st.

(** The calls [createOrder] can make: quote requests for its parameters and
    order placements. *)
Definition creation_call (params : QuoteParams) (c : Call) : Prop :=
  c = CallGetQuote params \/ exists quote placement, c = CallPlaceOrder quote placement.

Section Creation.
Context {X : Type} `{Platform X}.
Variable sdk : Collaborators X.

Lemma untouched_refl (st : State X) : untouched st st.
Proof. by repeat split. Qed.

Lemma untouched_trans (st1 st2 st3 : State X) :
  untouched st1 st2 -> untouched st2 st3 -> untouched st1 st3.
Proof. intros (? & ? & ?) (? & ? & ?). repeat split; congruence. Qed.

(** Retrying a call to a collaborator touches nothing of the manager and
    logs the call once per attempt, at most once per remaining iteration and
    at least once if it returned. *)
Lemma retry_call_untouched {A} (c : Call) (f : M X A) maxRetries delay remaining :
  forall i lastError st r st',
    retry_loop (call c f) maxRetries delay remaining i lastError st = (r, st') ->
    untouched st st'
    /\ exists k, calls st' = calls st ++ replicate k c
                 /\ (k <= remaining)%nat
                 /\ (forall a, r = Return a -> (0 < k)%nat).
Proof.
  induction remaining as [|n IH]; intros i lastError st r st' Hrun.
  - cbn in Hrun. injection Hrun as <- <-.
    split; [apply untouched_refl|].
    exists 0%nat. cbn. rewrite app_nil_r. split_and!; [done|lia|discriminate].
  - cbn [retry_loop] in Hrun. unfold call at 1 in Hrun.
    destruct (f (ext st)) as [[v|e] x'].
    + injection Hrun as <- <-.
      split; [by repeat split|].
      exists 1%nat. split_and!; [done|lia|intros; lia].
    + cbv zeta in Hrun.
      destruct (i <? maxRetries - 1);
        apply IH in Hrun as ((Hthis & Htimers & Hnext) & k & Hcalls & Hle & Hk);
        cbn in Hthis, Htimers, Hnext, Hcalls;
        (split; [by repeat split|]);
        exists (Datatypes.S k);
        (split_and!; [by rewrite Hcalls, <- app_assoc|lia|intros; lia]).
Qed.

Lemma retry_configured_untouched {A} (c : Call) (f : M X A) st r st' :
  retry_configured (call c f) st = (r, st') ->
  untouched st st'
  /\ exists k, calls st' = calls st ++ replicate k c
               /\ (k <= Z.to_nat (default 3%Z (config_maxRetries (this st))))%nat
               /\ (forall a, r = Return a -> (0 < k)%nat).
Proof.
  unfold retry_configured, bind, gets, retry. apply retry_call_untouched.
Qed.

Lemma random_secrets_untouched (n : nat) :
  forall st : State X,
    exists xs st',
      random_secrets n st = (Return xs, st')
      /\ untouched st st' /\ calls st' = calls st.
Proof.
  induction n as [|n IH]; intros st.
  - exists [], st. split; [reflexivity|]. split; [apply untouched_refl|reflexivity].
  - cbn [random_secrets]. unfold bind, getRandomBytes32.
    cbn [randomBytes32_hex State_Platform].
    destruct (randomBytes32_hex (ext st)) as [hex x'].
    destruct (IH (with_ext (fun _ => x') st)) as (xs & st' & -> & Hsame & Hcalls).
    eexists _, st'. split; [reflexivity|]. split; [exact Hsame|exact Hcalls].
Qed.

Lemma generateSecretsAndHashLock_untouched secretsCount (st : State X) :
  exists r st',
    generateSecretsAndHashLock secretsCount st = (r, st')
    /\ untouched st st' /\ calls st' = calls st
    /\ (forall generated,
          r = Return generated ->
          gen_secretHashes generated
          = map (HashLock_hashSecret (S := X)) (gen_secrets generated)).
Proof.
  destruct (SecretsFacts.generateSecretsAndHashLock_run secretsCount st)
    as (secrets & st' & Hdrawn & _ & ->).
  destruct (random_secrets_untouched (Z.to_nat secretsCount) st)
    as (xs & st'' & Hdrawn' & Hsame & Hcalls).
  rewrite Hdrawn in Hdrawn'. injection Hdrawn' as <- <-.
  destruct (decide (secretsCount = 1 \/ 3 <= secretsCount));
    eexists _, st'; (split; [reflexivity|]); split_and!; try done.
  by intros generated [= <-].
Qed.

(** An order that passes validation has an amount that reads as a positive
    integer. *)
Lemma validated_amount order (s : State X) :
  validateOrderParams order s = (Return true, s) ->
  exists str n, p_amount order = Some str
                /\ JS.StringToBigInt str = Some n /\ 0 < n.
Proof.
  intros Hrun.
  destruct (ValidationFacts.validateOrderParams_cases order s)
    as [[_ (e & He)]|[Hok _]]; [congruence|].
  destruct (p_amount order) as [str|] eqn:Hstr.
  - destruct (JS.StringToBigInt str) as [n|] eqn:Hn.
    + exists str, n. split_and!; [done..|].
      destruct (decide (0 < n)) as [Hpos|Hneg]; [exact Hpos|].
      exfalso. apply Hok. right; right; left. exists str, n. split_and!; [done..|lia].
    + exfalso. apply Hok. right; left. by exists str.
  - exfalso. apply Hok. left. exists "amount". split.
    + unfold required. set_solver.
    + change (get_field order "amount") with (VString <$> p_amount order).
      by rewrite Hstr.
Qed.

(** What [createOrder] does to the state, by outcome. *)
Lemma createOrder_effect params (st : State X) r st' :
  createOrder sdk params st = (r, st') ->
  (exists new, calls st' = calls st ++ new /\ Forall (creation_call params) new)
  /\ match r with
     | Throw _ => untouched st st'
     | Return h =>
         exists order stored,
           activeOrders (this st') = <[h := order]> (activeOrders (this st))
           /\ orderSecrets (this st') = <[h := stored]> (orderSecrets (this st))
           /\ pollingIntervals (this st')
              = <[h := next_timer st]> (pollingIntervals (this st))
           /\ adapters (this st') = adapters (this st)
           /\ config_maxRetries (this st') = config_maxRetries (this st)
           /\ timers st' = <[next_timer st := h]> (timers st)
           /\ next_timer st' = Datatypes.S (next_timer st)
           /\ orderHash order = h /\ status order = PENDING /\ fills order = []
           /\ amount order = qp_amount params
           /\ srcChain order = srcChainId params
           /\ dstChain order = dstChainId params
           /\ maker order = walletAddress params
           /\ secrets order = Some stored
           /\ secretHashes order = Some (map (HashLock_hashSecret (S := X)) stored)
           /\ (exists n, JS.StringToBigInt (qp_amount params) = Some n /\ 0 < n)
           /\ is_Some (adapters (this st) !! srcChainId params)
           /\ is_Some (adapters (this st) !! dstChainId params)
     end.
Proof.
  unfold createOrder, bind, gets.
  destruct (adapters (this st) !! srcChainId params) as [src|] eqn:Hsrc.
  2:{ rewrite (bool_decide_eq_false_2 (is_Some None)) by (by intros [? ?]).
      cbn. intros [= <- <-]. split; [|apply untouched_refl].
      exists []. by rewrite app_nil_r. }
  rewrite (bool_decide_eq_true_2 (is_Some (Some src))) by eauto.
  destruct (adapters (this st) !! dstChainId params) as [dst|] eqn:Hdst.
  2:{ rewrite (bool_decide_eq_false_2 (is_Some None)) by (by intros [? ?]).
      cbn. intros [= <- <-]. split; [|apply untouched_refl].
      exists []. by rewrite app_nil_r. }
  rewrite (bool_decide_eq_true_2 (is_Some (Some dst))) by eauto.
  cbn [negb orb].
  destruct (getQuote sdk params st) as [[quote|e] st1] eqn:Hquote;
    unfold getQuote in Hquote;
    apply retry_configured_untouched in Hquote as (Hsame1 & k1 & Hcalls1 & _ & _).
  2:{ intros [= <- <-]. split; [|exact Hsame1].
      exists (replicate k1 (CallGetQuote params)). split; [exact Hcalls1|].
      apply Forall_replicate. by left. }
  destruct (generateSecretsAndHashLock_untouched (getPreset_secretsCount quote) st1)
    as (generation & st2 & -> & Hsame2 & Hcalls2 & Hhashes).
  destruct generation as [generated|e].
  2:{ intros [= <- <-]. split; [|exact (untouched_trans _ _ _ Hsame1 Hsame2)].
      exists (replicate k1 (CallGetQuote params)). split; [congruence|].
      apply Forall_replicate. by left. }
  specialize (Hhashes generated eq_refl).
  match goal with
  | |- context [validateOrderParams ?o st2] =>
      destruct (ValidationFacts.validateOrderParams_cases o st2)
        as [[_ (e & Hval)]|[_ Hval]];
      [|pose proof (validated_amount o st2 Hval) as (str & n & Hstr & Hn & Hpos)];
      rewrite Hval
  end.
  { intros [= <- <-]. split; [|exact (untouched_trans _ _ _ Hsame1 Hsame2)].
    exists (replicate k1 (CallGetQuote params)). split; [congruence|].
    apply Forall_replicate. by left. }
  cbn in Hstr. injection Hstr as <-.
  match goal with
  | |- context [retry_configured ?op st2] =>
      destruct (retry_configured op st2) as [[h|e] st3] eqn:Hplace
  end;
    apply retry_configured_untouched in Hplace as (Hsame3 & k3 & Hcalls3 & _ & _).
  2:{ intros [= <- <-].
      split; [|exact (untouched_trans _ _ _ (untouched_trans _ _ _ Hsame1 Hsame2) Hsame3)].
      eexists (replicate k1 (CallGetQuote params) ++ replicate k3 _).
      split; [rewrite Hcalls3, Hcalls2, Hcalls1; by rewrite <- app_assoc|].
      apply Forall_app. split; apply Forall_replicate; [by left|right; eauto]. }
  destruct (untouched_trans _ _ _ (untouched_trans _ _ _ Hsame1 Hsame2) Hsame3)
    as (Hthis & Htimers & Hnext).
  unfold startOrderMonitoring, setInterval, modify, bind, ret. cbn.
  intros [= <- <-]. split.
  - eexists (replicate k1 (CallGetQuote params) ++ replicate k3 _).
    cbn. split; [rewrite Hcalls3, Hcalls2, Hcalls1; by rewrite <- app_assoc|].
    apply Forall_app. split; apply Forall_replicate; [by left|right; eauto].
  - eexists _, (gen_secrets generated). cbn. rewrite Hthis, Htimers, Hnext.
    split_and!; try reflexivity.
    + by rewrite Hhashes.
    + by exists n.
    + eauto.
    + eauto.
Qed.

End Creation.

(** X15. [createOrder] for a pair of chains of which one has no adapter in
    the manager throws "Unsupported chain pair" at once: no quote is
    requested, no call is logged, nothing changes. *)
Theorem createOrder_unsupported_pair
  {X : Type} `{Platform X} (sdk : Collaborators X)
  (params : QuoteParams) (st : State X) :
  adapters (this st) !! srcChainId params = None
  \/ adapters (this st) !! dstChainId params = None ->
  createOrder sdk params st
  = (Throw (JSError ("Unsupported chain pair: "
                     +:+ ChainId_toString (srcChainId params) +:+ " → "
                     +:+ ChainId_toString (dstChainId params))), st).
Proof.
  intros Hmissing. unfold createOrder, bind, gets.
  destruct Hmissing as [-> | ->].
  - rewrite (bool_decide_eq_false_2 (is_Some None)) by (by intros [? ?]).
    reflexivity.
  - rewrite (bool_decide_eq_false_2 (is_Some None)) by (by intros [? ?]).
    by rewrite orb_true_r.
Qed.

Lemma createOrder_unsupported_pair_witness :
  createOrder (Sim.service "pending" [] (Return tt))
    {| srcChainId := CStr "42161"; dstChainId := CNum 8453;
       srcTokenAddress := "0xaf88"; dstTokenAddress := "0x8335";
       qp_amount := "1000000"; enableEstimate := None;
       walletAddress := "0xMaker" |} Sim.idle
  = (Throw (JSError "Unsupported chain pair: 42161 → 8453"), Sim.idle).
Proof.
  apply (createOrder_unsupported_pair (Sim.service "pending" [] (Return tt))
           {| srcChainId := CStr "42161"; dstChainId := CNum 8453;
              srcTokenAddress := "0xaf88"; dstTokenAddress := "0x8335";
              qp_amount := "1000000"; enableEstimate := None;
              walletAddress := "0xMaker" |} Sim.idle).
  left. reflexivity.
Defined.

(** X16. A [createOrder] that throws, for whatever reason (no adapter, no
    quote, invalid order, placement refused), leaves no trace in the
    manager: the stored orders and secrets, the registered and the live
    intervals and the next handle are as before.  All it has done is request
    quotes and attempt placements. *)
Theorem createOrder_failure_leaves_no_trace
  {X : Type} `{Platform X} (sdk : Collaborators X)
  (params : QuoteParams) (st st' : State X) (e : Thrown) :
  createOrder sdk params st = (Throw e, st') ->
  untouched st st'
  /\ exists new, calls st' = calls st ++ new /\ Forall (creation_call params) new.
Proof.
  intros Hrun. apply createOrder_effect in Hrun as [Hcalls Hsame].
  split; [exact Hsame|exact Hcalls].
Qed.

Lemma createOrder_failure_leaves_no_trace_witness :
  exists st',
    createOrder (Sim.scripted (fun _ => Return Sim.quote1)
                   (fun _ => Throw Sim.unavailable) (fun _ => Return "pending")
                   (fun _ => Return []) (fun _ => Return tt) (fun _ => Return tt))
      (Sim.swap "1000000") Sim.idle = (Throw Sim.unavailable, st')
    /\ untouched Sim.idle st'
    /\ exists new, calls st' = calls Sim.idle ++ new
                   /\ Forall (creation_call (Sim.swap "1000000")) new.
Proof.
  exists (snd (createOrder
                 (Sim.scripted (fun _ => Return Sim.quote1)
                    (fun _ => Throw Sim.unavailable) (fun _ => Return "pending")
                    (fun _ => Return []) (fun _ => Return tt) (fun _ => Return tt))
                 (Sim.swap "1000000") Sim.idle)).
  split; [vm_compute; reflexivity|].
  apply (createOrder_failure_leaves_no_trace
           (Sim.scripted (fun _ => Return Sim.quote1)
              (fun _ => Throw Sim.unavailable) (fun _ => Return "pending")
              (fun _ => Return []) (fun _ => Return tt) (fun _ => Return tt))
           (Sim.swap "1000000") Sim.idle _ Sim.unavailable).
  vm_compute. reflexivity.
Defined.

(** X17. When [createOrder] returns an order id, the order is stored under
    that id with the id as its hash, status PENDING, no fills, the amount,
    chains and maker of the request and the generated secrets and hashes;
    the secrets are stored under the id; a new live interval is registered
    for the id; the amount reads as a positive integer and both chains have
    adapters; every other stored order is as before. *)
Theorem createOrder_success
  {X : Type} `{Platform X} (sdk : Collaborators X)
  (params : QuoteParams) (st st' : State X) (h : string) :
  createOrder sdk params st = (Return h, st') ->
  exists order stored,
    activeOrders (this st') !! h = Some order
    /\ (forall h', h' <> h ->
                   activeOrders (this st') !! h' = activeOrders (this st) !! h')
    /\ orderSecrets (this st') !! h = Some stored
    /\ pollingIntervals (this st') !! h = Some (next_timer st)
    /\ timers st' !! next_timer st = Some h
    /\ orderHash order = h /\ status order = PENDING /\ fills order = []
    /\ amount order = qp_amount params
    /\ srcChain order = srcChainId params
    /\ dstChain order = dstChainId params
    /\ maker order = walletAddress params
    /\ secrets order = Some stored
    /\ secretHashes order = Some (map (HashLock_hashSecret (S := X)) stored)
    /\ (exists n, JS.StringToBigInt (qp_amount params) = Some n /\ 0 < n)
    /\ is_Some (adapters (this st) !! srcChainId params)
    /\ is_Some (adapters (this st) !! dstChainId params).
Proof.
  intros Hrun. apply createOrder_effect in Hrun as [_ Heffect].
  destruct Heffect as (order & stored & Horders & Hsecrets & Hpolling & _ & _
                       & Htimers & _ & Hfacts).
  exists order, stored.
  rewrite Horders, Hsecrets, Hpolling, Htimers.
  split; [apply lookup_insert_eq|].
  split; [intros h' Hne; by rewrite lookup_insert_ne|].
  split; [apply lookup_insert_eq|].
  split; [apply lookup_insert_eq|].
  split; [apply lookup_insert_eq|exact Hfacts].
Qed.

Lemma createOrder_success_witness :
  exists st' order stored,
    createOrder (Sim.service "pending" [] (Return tt)) (Sim.swap "1000000") Sim.idle
    = (Return "0xorder", st')
    /\ activeOrders (this st') !! "0xorder" = Some order
    /\ orderSecrets (this st') !! "0xorder" = Some stored
    /\ status order = PENDING.
Proof.
  exists (snd (createOrder (Sim.service "pending" [] (Return tt))
                 (Sim.swap "1000000") Sim.idle)).
  destruct (createOrder_success (Sim.service "pending" [] (Return tt))
              (Sim.swap "1000000") Sim.idle
              (snd (createOrder (Sim.service "pending" [] (Return tt))
                      (Sim.swap "1000000") Sim.idle)) "0xorder")
    as (order & stored & Hlook & _ & Hsecrets & _ & _ & _ & Hstatus & _).
  - vm_compute. reflexivity.
  - exists order, stored. split; [vm_compute; reflexivity|]. by split_and!.
Defined.

(** X18. [getQuote] requests a quote at most [maxRetries] times (three times
    when the configuration leaves it undefined), at least once if it returns
    a quote; it makes no other call and changes nothing in the manager. *)
Theorem getQuote_attempts
  {X : Type} `{Platform X} (sdk : Collaborators X)
  (params : QuoteParams) (st st' : State X) (r : Outcome Quote) :
  getQuote sdk params st = (r, st') ->
  untouched st st'
  /\ exists k, calls st' = calls st ++ replicate k (CallGetQuote params)
               /\ (k <= Z.to_nat (default 3%Z (config_maxRetries (this st))))%nat
               /\ (forall quote, r = Return quote -> (0 < k)%nat).
Proof.
  intros Hrun. unfold getQuote in Hrun.
  by apply retry_configured_untouched in Hrun.
Qed.

Lemma getQuote_attempts_witness :
  exists st',
    untouched Sim.idle st'
    /\ exists k, calls st' = calls Sim.idle ++ replicate k (CallGetQuote (Sim.swap "1"))
                 /\ (k <= Z.to_nat (default 3%Z (config_maxRetries (this Sim.idle))))%nat
                 /\ (forall quote : Quote,
                       Throw Sim.unavailable = Return quote -> (0 < k)%nat).
Proof.
  exists (snd (getQuote
                 (Sim.scripted (fun _ => Throw Sim.unavailable)
                    (fun _ => Return "0xorder") (fun _ => Return "pending")
                    (fun _ => Return []) (fun _ => Return tt) (fun _ => Return tt))
                 (Sim.swap "1") Sim.idle)).
  apply (getQuote_attempts
           (Sim.scripted (fun _ => Throw Sim.unavailable) (fun _ => Return "0xorder")
              (fun _ => Return "pending") (fun _ => Return [])
              (fun _ => Return tt) (fun _ => Return tt))
           (Sim.swap "1") Sim.idle _ (Throw Sim.unavailable)).
  vm_compute. reflexivity.
Defined.

Lemma secret_at_outside (stored : list string) (i : Z) :
  i < 0 \/ Z.of_nat (length stored) <= i -> secret_at stored i = None.
Proof.
  intros [Hneg|Hbig]; unfold secret_at.
  - apply Z.ltb_lt in Hneg. by rewrite Hneg.
  - destruct (i <? 0); [reflexivity|]. apply lookup_ge_None. lia.
Qed.

(** X19. A ready fill whose index is outside the stored secrets (negative,
    or at least their number) is not skipped: [undefined] is submitted as
    its secret, and if the service accepts that, a fill record with that
    index is appended to the stored order. *)
Theorem fill_index_outside_secrets
  {X : Type} `{Platform X} (sdk : Collaborators X)
  (orderHash : string) (st : State X) (stored : list string)
  (fill : ReadyFill) (x1 : X) :
  orderSecrets (this st) !! orderHash = Some stored ->
  ready_idx fill < 0 \/ Z.of_nat (length stored) <= ready_idx fill ->
  sdk_getReadyToAcceptSecretFills sdk orderHash (ext st) = (Return [fill], x1) ->
  exists st',
    processOrderFills sdk orderHash st = (Return tt, st')
    /\ calls st' = calls st ++ [CallGetReadyToAcceptSecretFills orderHash;
                                CallSubmitSecret orderHash None]
    /\ (forall order x2,
          activeOrders (this st) !! orderHash = Some order ->
          sdk_submitSecret sdk orderHash None x1 = (Return tt, x2) ->
          exists order',
            activeOrders (this st') !! orderHash = Some order'
            /\ map idx (fills order') = map idx (fills order) ++ [ready_idx fill]).
Proof.
  intros Hstored Houtside Hready.
  unfold processOrderFills, bind, gets, try_catch, call.
  rewrite Hstored, Hready. change (0 <? length [fill])%nat with true. cbv iota.
  cbn [process_fills]. unfold bind, ret, process_fill, try_catch, bind, call, gets, modify.
  cbn [ext calls timers next_timer this].
  rewrite (secret_at_outside stored (ready_idx fill) Houtside).
  destruct (sdk_submitSecret sdk orderHash None x1) as [[[]|e] x2] eqn:Hsubmit.
  - cbn [ext calls timers next_timer this].
    destruct (activeOrders (this st) !! orderHash) as [order|] eqn:Horder.
    + eexists. split; [reflexivity|]. cbn. split; [by rewrite <- app_assoc|].
      intros order' x2' [= <-] _. eexists.
      rewrite lookup_alter_eq, Horder. split; [reflexivity|].
      cbn. by rewrite map_app.
    + eexists. split; [reflexivity|]. cbn. split; [by rewrite <- app_assoc|].
      intros ? ? [=].
  - eexists. split; [reflexivity|]. cbn. split; [by rewrite <- app_assoc|].
    intros ? ? _ [=].
Qed.

Lemma fill_index_outside_secrets_witness :
  exists st',
    processOrderFills
      (Sim.service "pending"
         [{| ready_idx := 5; ready_amount := None; ready_txHash := None;
             ready_resolver := None |}] (Return tt))
      "0xorder" (Sim.monitoring PENDING []) = (Return tt, st')
    /\ calls st' = calls (Sim.monitoring PENDING [])
                   ++ [CallGetReadyToAcceptSecretFills "0xorder";
                       CallSubmitSecret "0xorder" None]
    /\ (forall order x2,
          activeOrders (this (Sim.monitoring PENDING [])) !! "0xorder" = Some order ->
          sdk_submitSecret
            (Sim.service "pending"
               [{| ready_idx := 5; ready_amount := None; ready_txHash := None;
                   ready_resolver := None |}] (Return tt))
            "0xorder" None (Sim.after 1) = (Return tt, x2) ->
          exists order',
            activeOrders (this st') !! "0xorder" = Some order'
            /\ map idx (fills order') = map idx (fills order) ++ [5]).
Proof.
  apply (fill_index_outside_secrets
           (Sim.service "pending"
              [{| ready_idx := 5; ready_amount := None; ready_txHash := None;
                  ready_resolver := None |}] (Return tt))
           "0xorder" (Sim.monitoring PENDING []) ["0x" +:+ Sim.hex64 0]
           {| ready_idx := 5; ready_amount := None; ready_txHash := None;
              ready_resolver := None |} (Sim.after 1)).
  - reflexivity.
  - right. cbn. lia.
  - reflexivity.
Defined.

(** X20. Starting the monitoring of an order that is already monitored
    registers the new interval over the old one without clearing it: after
    that, [stopOrderMonitoring] clears only the new interval, and the old
    one stays live while no interval is registered for the order any more,
    so a further [stopOrderMonitoring] changes nothing. *)
Theorem restarted_monitoring_leaks_interval
  {X : Type} (orderHash : string) (st : State X) (id0 : Timeout) :
  pollingIntervals (this st) !! orderHash = Some id0 ->
  timers st !! id0 = Some orderHash ->
  id0 <> next_timer st ->
  exists st1 st2,
    startOrderMonitoring orderHash st = (Return tt, st1)
    /\ stopOrderMonitoring orderHash st1 = (Return tt, st2)
    /\ pollingIntervals (this st2) !! orderHash = None
    /\ timers st2 !! id0 = Some orderHash
    /\ stopOrderMonitoring orderHash st2 = (Return tt, st2).
Proof.
  intros Hreg Hlive Hfresh.
  eexists _, _. split; [reflexivity|].
  split; [unfold stopOrderMonitoring, bind, gets; cbn; rewrite lookup_insert_eq;
          reflexivity|].
  cbn. split; [apply lookup_delete_eq|].
  split.
  - rewrite lookup_delete_ne by congruence. by rewrite lookup_insert_ne by congruence.
  - unfold stopOrderMonitoring, bind, gets. cbn. by rewrite lookup_delete_eq.
Qed.

Lemma restarted_monitoring_leaks_interval_witness :
  exists st1 st2,
    startOrderMonitoring "0xorder" (Sim.monitoring PENDING []) = (Return tt, st1)
    /\ stopOrderMonitoring "0xorder" st1 = (Return tt, st2)
    /\ pollingIntervals (this st2) !! "0xorder" = None
    /\ timers st2 !! 0%nat = Some "0xorder"
    /\ stopOrderMonitoring "0xorder" st2 = (Return tt, st2).
Proof.
  apply (restarted_monitoring_leaks_interval "0xorder" (Sim.monitoring PENDING [])
           0%nat).
  - reflexivity.
  - reflexivity.
  - cbn. lia.
Defined.

(** X21. [cancelOrder] on a stored order whose source chain has no adapter
    in the manager throws "No adapter for source chain" without calling any
    collaborator; the order keeps its status and its monitoring. *)
Theorem cancelOrder_without_adapter
  {X : Type} `{Platform X} (sdk : Collaborators X)
  (orderHash : string) (st : State X) (order : UniversalOrder) :
  activeOrders (this st) !! orderHash = Some order ->
  adapters (this st) !! srcChain order = None ->
  cancelOrder sdk orderHash st
  = (Throw (JSError ("No adapter for source chain: "
                     +:+ ChainId_toString (srcChain order))), st).
Proof.
  intros Horder Hnone. unfold cancelOrder, bind, gets. by rewrite Horder, Hnone.
Qed.

Lemma cancelOrder_without_adapter_witness :
  cancelOrder (Sim.service "pending" [] (Return tt)) "0xorder"
    (with_this (fun m => {| adapters := ∅; activeOrders := activeOrders m;
                            orderSecrets := orderSecrets m;
                            pollingIntervals := pollingIntervals m;
                            config_maxRetries := config_maxRetries m |})
               (Sim.monitoring PENDING []))
  = (Throw (JSError "No adapter for source chain: 42161"),
     with_this (fun m => {| adapters := ∅; activeOrders := activeOrders m;
                            orderSecrets := orderSecrets m;
                            pollingIntervals := pollingIntervals m;
                            config_maxRetries := config_maxRetries m |})
               (Sim.monitoring PENDING [])).
Proof.
  apply (cancelOrder_without_adapter (Sim.service "pending" [] (Return tt))
           "0xorder" _ (Sim.order "0xorder" PENDING [])).
  - reflexivity.
  - reflexivity.
Defined.

(** The public operations that change the store, and a firing of an
    order's interval. *)
Inductive Operation : Type :=
| CreateOrder (params : QuoteParams)
| Tick (orderHash : string)
| CancelOrder (orderHash : string).

(** The state after an operation, whether it returned or threw. *)
Definition after_operation {X} `{Platform X} (sdk : Collaborators X)
  (st : State X) (op : Operation) : State X :=
  match op with
  | CreateOrder params => snd (createOrder sdk params st)
  | Tick orderHash => snd (tick sdk orderHash st)
  | CancelOrder orderHash => snd (cancelOrder sdk orderHash st)
  end.

(** The statuses a stored order can have. *)
Definition stored_status (s : OrderStatus) : Prop :=
  s = PENDING \/ s = EXECUTED \/ s = CANCELLED.

(** Every stored order is stored under its own hash, has one of the three
    statuses, and carries the secrets that are stored under its hash. *)
Definition store_consistent {X} (st : State X) : Prop :=
  forall h o,
    activeOrders (this st) !! h = Some o ->
    orderHash o = h /\ stored_status (status o)
    /\ secrets o = orderSecrets (this st) !! h.

Lemma orderHash_append_fills new o : orderHash (append_fills new o) = orderHash o.
Proof.
  revert o. induction new as [|f new IH]; intros o; [reflexivity|].
  change (append_fills (f :: new) o) with (append_fills new (push_fill f o)).
  by rewrite IH.
Qed.

Lemma secrets_append_fills new o : secrets (append_fills new o) = secrets o.
Proof.
  revert o. induction new as [|f new IH]; intros o; [reflexivity|].
  change (append_fills (f :: new) o) with (append_fills new (push_fill f o)).
  by rewrite IH.
Qed.

Section Invariant.
Context {X : Type} `{Platform X}.
Variable sdk : Collaborators X.

(** What [cancelOrder] does to the store. *)
Lemma cancelOrder_store orderHash (st : State X) :
  orderSecrets (this (snd (cancelOrder sdk orderHash st))) = orderSecrets (this st)
  /\ (activeOrders (this (snd (cancelOrder sdk orderHash st)))
      = activeOrders (this st)
      \/ activeOrders (this (snd (cancelOrder sdk orderHash st)))
         = alter (set_status CANCELLED) orderHash (activeOrders (this st))).
Proof.
  unfold cancelOrder, bind, gets, try_catch, call.
  destruct (activeOrders (this st) !! orderHash) as [order|]; [|by split; [|left]].
  destruct (adapters (this st) !! srcChain order) as [adapter|]; [|by split; [|left]].
  destruct (adapter_cancelOrder sdk adapter orderHash (ext st)) as [[[]|e] x'].
  - unfold assign_status, modify. rewrite stopOrderMonitoring_run. cbn [snd].
    rewrite stopped_activeOrders, stopped_orderSecrets. split; [reflexivity|by right].
  - by split; [|left].
Qed.

Lemma store_consistent_after (st : State X) (op : Operation) :
  store_consistent st -> store_consistent (after_operation sdk st op).
Proof.
  intros Hinv. destruct op as [params|orderHash|orderHash]; unfold after_operation.
  - destruct (createOrder sdk params st) as [[h|e] st'] eqn:Hrun;
      apply createOrder_effect in Hrun as [_ Heffect]; cbn.
    + destruct Heffect as (order & stored & Horders & Hsecrets & _ & _ & _ & _ & _
                           & Hhash & Hstatus & _ & _ & _ & _ & _ & Hcarried & _).
      intros k o. rewrite Horders, Hsecrets.
      destruct (decide (h = k)) as [<-|Hne].
      * rewrite !lookup_insert_eq. intros [= <-].
        split; [exact Hhash|]. split; [by left|exact Hcarried].
      * rewrite !lookup_insert_ne by done. apply Hinv.
    + destruct Heffect as (Hthis & _). intros k o. rewrite Hthis. apply Hinv.
  - destruct (tick_others_kept sdk orderHash st)
      as (st' & Hrun & Hothers & Habsent & _ & Hsecrets & _).
    rewrite Hrun. cbn. intros k o Hk. rewrite Hsecrets.
    destruct (decide (k = orderHash)) as [->|Hne].
    + destruct (activeOrders (this st) !! orderHash) as [o0|] eqn:Hbefore.
      * destruct (tick_effect sdk orderHash st o0 Hbefore)
          as (st2 & s' & new & Hrun2 & Hlook & _ & Hs & _).
        rewrite Hrun in Hrun2. injection Hrun2 as <-.
        rewrite Hlook in Hk. injection Hk as <-.
        destruct (Hinv orderHash o0 Hbefore) as (Hhash & Hstatus & Hcarried).
        rewrite orderHash_append_fills, status_append_fills, secrets_append_fills.
        cbn [fusionUtils.orderHash status secrets set_status].
        split; [exact Hhash|]. split; [|exact Hcarried].
        destruct Hs as [->|[[->| ->] _]];
          [exact Hstatus|right; by left|right; by right].
      * rewrite (Habsent eq_refl) in Hk. discriminate.
    + rewrite Hothers in Hk by done. by apply Hinv.
  - destruct (cancelOrder_store orderHash st) as [Hsecrets [Hsame|Hcancelled]].
    + intros k o. rewrite Hsecrets, Hsame. apply Hinv.
    + intros k o. rewrite Hsecrets, Hcancelled.
      destruct (decide (k = orderHash)) as [->|Hne].
      * rewrite lookup_alter_eq.
        destruct (activeOrders (this st) !! orderHash) as [o0|] eqn:Hbefore;
          [|discriminate].
        intros [= <-]. destruct (Hinv orderHash o0 Hbefore) as (Hhash & _ & Hcarried).
        split; [exact Hhash|]. split; [right; by right|exact Hcarried].
      * rewrite lookup_alter_ne by done. apply Hinv.
Qed.

End Invariant.

(** X22. Through any sequence of [createOrder], [cancelOrder] and ticks,
    every stored order stays stored under its own hash, carries the secrets
    stored under that hash, and has status PENDING, EXECUTED or CANCELLED:
    the manager never stores an order as CREATED and never moves one to
    PARTIALLY_FILLED, EXPIRED or FAILED. *)
Theorem store_stays_consistent
  {X : Type} `{Platform X} (sdk : Collaborators X)
  (st : State X) (ops : list Operation) :
  store_consistent st ->
  store_consistent (foldl (after_operation sdk) st ops).
Proof.
  revert st. induction ops as [|op ops IH]; intros st Hinv; [exact Hinv|].
  cbn. apply IH. by apply store_consistent_after.
Qed.

Lemma store_stays_consistent_witness :
  store_consistent
    (foldl (after_operation (Sim.reversing [Sim.ready0])) Sim.idle
           [CreateOrder (Sim.swap "1000000"); Tick "0xorder";
            CancelOrder "0xorder"; Tick "0xorder"]).
Proof.
  apply (store_stays_consistent (Sim.reversing [Sim.ready0]) Sim.idle).
  intros h o Hlook. cbn in Hlook. rewrite lookup_empty in Hlook. discriminate.
Defined.

End ManagerMore.

(** * orders/fusionOrders.ts: construction, initialisation and shutdown *)

Module fusionOrders_lifecycle.
Import fusionUtils fusionOrders.

(** [ChainConfig], as far as the manager fills it in. *)
Record ChainConfig : Type := {
  rpcUrl : string;
  privateKey : option string;
  contractAddresses : list (string * string)
}.

(** The adapter methods the manager calls besides [cancelOrder], over the
    state of the outside world.  The adapter classes are not among the
    embedded sources. *)
Record AdapterMethods (X : Type) : Type := {
  adapter_connect : AdapterRef -> ChainConfig -> M X unit;
  adapter_disconnect : AdapterRef -> M X unit;
  adapter_approveAsset : AdapterRef -> UniversalAsset -> string -> string -> M X string
}.
Arguments adapter_connect {X}.
Arguments adapter_disconnect {X}.
Arguments adapter_approveAsset {X}.

(** The process: the exported registry singleton and one manager. *)
Record Process (X : Type) : Type := {
  registry : ChainAdapterFactory.World;
  manager : State X
}.
Arguments registry {X}.
Arguments manager {X}.

Section Lifecycle.
Context {X : Type} `{Platform X}.
Variable adapterMethods : AdapterMethods X.

Definition on_registry {A} (c : M ChainAdapterFactory.World A) : M (Process X) A :=
  fun p =>
    let '(r, w') := c (registry p) in (r, {| registry := w'; manager := manager p |}).

Definition on_manager {A} (c : M (State X) A) : M (Process X) A :=
  fun p =>
    let '(r, st') := c (manager p) in (r, {| registry := registry p; manager := st' |}).

(** A call to an adapter method: it runs on the outside world. *)
Definition adapter_call {A} (f : M X A) : M (State X) A :=
  fun st => let '(r, x') := f (ext st) in (r, with_ext (fun _ => x') st).

Definition with_adapters
  (f : gmap ChainId AdapterRef -> gmap ChainId AdapterRef) (m : Manager) : Manager :=
  {| adapters := f (adapters m); activeOrders := activeOrders m;
     orderSecrets := orderSecrets m; pollingIntervals := pollingIntervals m;
     config_maxRetries := config_maxRetries m |}.

(** The fields the constructor sets (fusionOrders.ts, lines 51-64).
    [maxRetries] is the property of the configuration passed in: [None] if
    the object has no such property, [Some v] if it has one with value [v]
    (which may be [undefined]); the spread lets it override the default 3. *)
Definition new_manager (maxRetries : option (option Z)) : Manager :=
  {| adapters := ∅; activeOrders := ∅; orderSecrets := ∅; pollingIntervals := ∅;
     config_maxRetries := match maxRetries with
                          | None => Some 3
                          | Some v => v
                          end |}.

(** The body of the loop of [initializeAdapters] for one entry. *)
Definition initialize_adapter (chainId : ChainId) (chainConfig : ChainConfig)
  : M (Process X) unit :=
  try_catch
    (adapter <- on_registry (ChainAdapterFactory.createAdapter chainId) ;;
     on_manager (adapter_call (adapter_connect adapterMethods adapter chainConfig)) ;;;
     on_manager (modify (with_this (with_adapters (insert chainId adapter)))))
    (fun error => ret tt).

(** [initializeAdapters] (lines 78-89), run to its end.  [chainConfigs] is
    the entries of [this.config.chainConfigs] in iteration order. *)
Fixpoint initializeAdapters (chainConfigs : list (ChainId * ChainConfig))
  : M (Process X) unit :=
  match chainConfigs with
  | [] => ret tt
  | (chainId, chainConfig) :: rest =>
      initialize_adapter chainId chainConfig ;;;
      initializeAdapters rest
  end.

(** The first loop of [cleanup]: [stopOrderMonitoring] for the listed
    orders. *)
Fixpoint stop_all (orderHashes : list string) : M (State X) unit :=
  match orderHashes with
  | [] => ret tt
  | orderHash :: rest => stopOrderMonitoring orderHash ;;; stop_all rest
  end.

(** The second loop of [cleanup]: disconnect each adapter, logging failures. *)
Fixpoint disconnect_all (connected : list (ChainId * AdapterRef)) : M (State X) unit :=
  match connected with
  | [] => ret tt
  | (chainId, adapter) :: rest =>
      try_catch (adapter_call (adapter_disconnect adapterMethods adapter))
                (fun error => ret tt) ;;;
      disconnect_all rest
  end.

(** [cleanup] (lines 355-374).  [connected] is the entries of
    [this.adapters] in iteration (insertion) order, which the [gmap] does not
    record.  The registered intervals are stopped in the order of
    [map_to_list]; stopping has no effect outside the manager and the
    timers, so that order does not show. *)
Definition cleanup (connected : list (ChainId * AdapterRef)) : M (State X) unit :=
  registered <- gets (fun st => (map_to_list (pollingIntervals (this st))).*1) ;;
  stop_all registered ;;;
  disconnect_all connected ;;;
  modify (with_this (fun m =>
    {| adapters := ∅; activeOrders := ∅; orderSecrets := ∅;
       pollingIntervals := pollingIntervals m;
       config_maxRetries := config_maxRetries m |})).

(** [approveToken] (lines 327-350); the default of [amount] is the caller's
    business. *)
Definition approveToken (chainId : ChainId) (tokenAddress spenderAddress amount : string)
  : M (State X) unit :=
  adapter <- gets (fun st => adapters (this st) !! chainId) ;;
  match adapter with
  | None => throw (JSError ("No adapter for chain: " +:+ ChainId_toString chainId))
  | Some adapter =>
      let asset := {| chainId := chainId; address := tokenAddress;
                      symbol := "TOKEN"; decimals := 18; standard := ERC20 |} in
      txResult <- adapter_call
                    (adapter_approveAsset adapterMethods adapter asset
                                          spenderAddress amount) ;;
      ret tt
  end.

End Lifecycle.

(** One entry of [config.chains] of [createFusionOrderManager]. *)
Record ChainEntry : Type := {
  ce_chainId : ChainId;
  ce_rpcUrl : string;
  ce_contractAddresses : option (list (string * string))
}.

(** [map.set(key, value)] on a [Map] kept as its entries in insertion
    order: an existing key keeps its place. *)
Fixpoint Map_set {V} (key : ChainId) (value : V) (entries : list (ChainId * V))
  : list (ChainId * V) :=
  match entries with
  | [] => [(key, value)]
  | (k, v) :: rest =>
      if decide (k = key) then (k, value) :: rest
      else (k, v) :: Map_set key value rest
  end.

(** The [chainConfigs] map built by [createFusionOrderManager]
    (lines 390-398). *)
Definition chainConfigs_of (privateKey : string) (chains : list ChainEntry)
  : list (ChainId * ChainConfig) :=
  foldl (fun entries chain =>
           Map_set (ce_chainId chain)
             {| rpcUrl := ce_rpcUrl chain; privateKey := Some privateKey;
                contractAddresses := default [] (ce_contractAddresses chain) |}
             entries)
        [] chains.

End fusionOrders_lifecycle.

Module LifecycleFacts.
Import fusionUtils fusionOrders fusionOrders_lifecycle ManagerFacts.

#[local] Arguments stopOrderMonitoring : simpl never.
#[local] Arguments checkOrderStatus : simpl never.
#[local] Arguments processOrderFills : simpl never.

(** A registry in which nothing is cached and every registered factory is an
    arrow function. *)
Definition only_arrows (w : ChainAdapterFactory.World) : Prop :=
  ChainAdapterFactory.instances (ChainAdapterFactory.this w) = ∅
  /\ forall key cls,
      ChainAdapterFactory.adapters (ChainAdapterFactory.this w) !! key = Some cls ->
      exists body, cls = ChainAdapterFactory.ArrowFunction body.

(** A manager that has just been constructed, in an outside world [x]. *)
Definition constructed {X} (x : X) (maxRetries : option (option Z)) : State X :=
  {| ext := x; calls := []; timers := ∅; next_timer := 0%nat;
     this := new_manager maxRetries |}.

(** What initialisation leaves alone in the manager. *)
Definition only_adapters_changed {X} (st st' : State X) : Prop :=
  activeOrders (this st') = activeOrders (this st)
  /\ orderSecrets (this st') = orderSecrets (this st)
  /\ pollingIntervals (this st') = pollingIntervals (this st)
  /\ config_maxRetries (this st') = config_maxRetries (this st)
  /\ timers st' = timers st /\ next_timer st' = next_timer st
  /\ calls st' = calls st.

Section Facts.
Context {X : Type} `{Platform X}.
Variable adapterMethods : AdapterMethods X.

Lemma createAdapter_only_arrows chainId w :
  only_arrows w ->
  exists e, ChainAdapterFactory.createAdapter chainId w = (Throw e, w).
Proof.
  intros [Hempty Harrows]. unfold ChainAdapterFactory.createAdapter.
  rewrite Hempty, lookup_empty.
  destruct (ChainAdapterFactory.adapters (ChainAdapterFactory.this w)
            !! ChainId_toString chainId) as [cls|] eqn:Hcls; [|eauto].
  destruct (Harrows _ _ Hcls) as [body ->]. cbn. destruct w. eauto.
Qed.

Lemma createAdapter_instances chainId w r w' :
  ChainAdapterFactory.createAdapter chainId w = (r, w') ->
  (forall key a,
      ChainAdapterFactory.instances (ChainAdapterFactory.this w) !! key = Some a ->
      ChainAdapterFactory.instances (ChainAdapterFactory.this w') !! key = Some a)
  /\ (forall a, r = Return a ->
                ChainAdapterFactory.instances (ChainAdapterFactory.this w')
                !! ChainId_toString chainId = Some a).
Proof.
  unfold ChainAdapterFactory.createAdapter.
  destruct (ChainAdapterFactory.instances (ChainAdapterFactory.this w)
            !! ChainId_toString chainId) as [cached|] eqn:Hc.
  { intros [= <- <-]. split; [auto|]. by intros a [= <-]. }
  destruct (ChainAdapterFactory.adapters (ChainAdapterFactory.this w)
            !! ChainId_toString chainId) as [cls|].
  2:{ intros [= <- <-]. split; [auto|discriminate]. }
  destruct (ChainAdapterFactory.new_ cls (ChainAdapterFactory.heap w))
    as [[a|e] heap'].
  - intros [= <- <-]. cbn. split.
    + intros key a' Hkey.
      destruct (decide (ChainId_toString chainId = key)) as [<-|Hne]; [congruence|].
      by rewrite lookup_insert_ne.
    + intros a' [= <-]. apply lookup_insert_eq.
  - intros [= <- <-]. cbn. split; [auto|discriminate].
Qed.

(** One entry of the configuration: the loop body returns; either nothing
    changes in the manager, or the adapter the registry returned (and holds
    in its cache) is stored under the chain id as given. *)
Lemma initialize_adapter_effect chainId chainConfig (p : Process X) :
  exists p',
    initialize_adapter adapterMethods chainId chainConfig p = (Return tt, p')
    /\ only_adapters_changed (manager p) (manager p')
    /\ (forall key a,
          ChainAdapterFactory.instances (ChainAdapterFactory.this (registry p)) !! key
          = Some a ->
          ChainAdapterFactory.instances (ChainAdapterFactory.this (registry p')) !! key
          = Some a)
    /\ (adapters (this (manager p')) = adapters (this (manager p))
        \/ exists a,
            adapters (this (manager p')) = <[chainId := a]> (adapters (this (manager p)))
            /\ ChainAdapterFactory.instances (ChainAdapterFactory.this (registry p'))
               !! ChainId_toString chainId = Some a).
Proof.
  unfold initialize_adapter, try_catch, bind, on_registry, on_manager.
  destruct (ChainAdapterFactory.createAdapter chainId (registry p))
    as [[a|e] w'] eqn:Hcreate;
    apply createAdapter_instances in Hcreate as [Hmono Hcached].
  - cbn [registry manager]. unfold adapter_call.
    destruct (adapter_connect adapterMethods a chainConfig (ext (manager p)))
      as [[[]|e] x'].
    + eexists. split; [reflexivity|]. cbn.
      split; [by repeat split|]. split; [exact Hmono|].
      right. exists a. split; [reflexivity|by apply Hcached].
    + eexists. split; [reflexivity|]. cbn.
      split; [by repeat split|]. split; [exact Hmono|by left].
  - eexists. split; [reflexivity|]. cbn.
    split; [by repeat split|]. split; [exact Hmono|by left].
Qed.

Lemma only_adapters_changed_trans (st1 st2 st3 : State X) :
  only_adapters_changed st1 st2 -> only_adapters_changed st2 st3 ->
  only_adapters_changed st1 st3.
Proof.
  intros (? & ? & ? & ? & ? & ? & ?) (? & ? & ? & ? & ? & ? & ?).
  repeat split; congruence.
Qed.

Lemma initializeAdapters_effect chainConfigs :
  forall p : Process X,
    exists p',
      initializeAdapters adapterMethods chainConfigs p = (Return tt, p')
      /\ only_adapters_changed (manager p) (manager p')
      /\ (forall key a,
            ChainAdapterFactory.instances (ChainAdapterFactory.this (registry p)) !! key
            = Some a ->
            ChainAdapterFactory.instances (ChainAdapterFactory.this (registry p')) !! key
            = Some a)
      /\ (forall chainId a,
            adapters (this (manager p')) !! chainId = Some a ->
            adapters (this (manager p)) !! chainId = Some a
            \/ (chainId ∈ chainConfigs.*1
                /\ ChainAdapterFactory.instances
                     (ChainAdapterFactory.this (registry p'))
                   !! ChainId_toString chainId = Some a)).
Proof.
  induction chainConfigs as [|[chainId chainConfig] rest IH]; intros p.
  - exists p. split; [reflexivity|]. split; [by repeat split|]. split; [auto|auto].
  - destruct (initialize_adapter_effect chainId chainConfig p)
      as (p1 & Hrun1 & Hsame1 & Hmono1 & Hadapters1).
    destruct (IH p1) as (p2 & Hrun2 & Hsame2 & Hmono2 & Hadapters2).
    exists p2. split; [cbn [initializeAdapters]; unfold bind; by rewrite Hrun1|].
    split; [exact (only_adapters_changed_trans _ _ _ Hsame1 Hsame2)|].
    split; [auto|].
    intros k a Hk. destruct (Hadapters2 k a Hk) as [Hbefore|[Hin Hinst]].
    + destruct Hadapters1 as [Heq|(a1 & Heq & Hinst1)].
      * left. by rewrite <- Heq.
      * rewrite Heq in Hbefore.
        apply lookup_insert_Some in Hbefore as [[<- <-]|[_ Hbefore]]; [|by left].
        right. split; [cbn; apply list_elem_of_here|]. by apply Hmono2.
    + right. split; [cbn; by apply list_elem_of_further|exact Hinst].
Qed.

(** The whole loop is the loop over a first part, then over the rest. *)
Lemma initializeAdapters_app before rest :
  forall p : Process X,
    initializeAdapters adapterMethods (before ++ rest) p
    = initializeAdapters adapterMethods rest
        (snd (initializeAdapters adapterMethods before p)).
Proof.
  induction before as [|[chainId chainConfig] before' IH]; intros p; [reflexivity|].
  cbn [app initializeAdapters]. unfold bind.
  destruct (initialize_adapter_effect chainId chainConfig p) as (p1 & -> & _).
  apply IH.
Qed.

(** Entries for other chains leave the adapter stored for a chain alone. *)
Lemma initializeAdapters_other_chains chainConfigs chainId :
  forall p : Process X,
    chainId ∉ chainConfigs.*1 ->
    adapters (this (manager (snd (initializeAdapters adapterMethods chainConfigs p))))
    !! chainId
    = adapters (this (manager p)) !! chainId.
Proof.
  induction chainConfigs as [|[k chainConfig] rest IH]; intros p Hnotin; [reflexivity|].
  cbn [initializeAdapters]. unfold bind.
  destruct (initialize_adapter_effect k chainConfig p)
    as (p1 & -> & _ & _ & Hadapters).
  cbn in Hnotin. apply not_elem_of_cons in Hnotin as [Hne Hnotin].
  rewrite (IH p1 Hnotin).
  destruct Hadapters as [->|(a & -> & _)]; [reflexivity|].
  by apply lookup_insert_ne.
Qed.

(** What one entry stores, by what the registry and the adapter answer. *)
Definition connected_adapter (chainId : ChainId) (chainConfig : ChainConfig)
  (p : Process X) : option AdapterRef :=
  match ChainAdapterFactory.createAdapter chainId (registry p) with
  | (Return a, _) =>
      match adapter_connect adapterMethods a chainConfig (ext (manager p)) with
      | (Return _, _) => Some a
      | (Throw _, _) => None
      end
  | (Throw _, _) => None
  end.

Lemma initialize_adapter_stores chainId chainConfig (p : Process X) :
  adapters (this (manager (snd (initialize_adapter adapterMethods chainId chainConfig p))))
  !! chainId
  = match connected_adapter chainId chainConfig p with
    | Some a => Some a
    | None => adapters (this (manager p)) !! chainId
    end.
Proof.
  unfold initialize_adapter, connected_adapter, try_catch, bind, on_registry, on_manager.
  destruct (ChainAdapterFactory.createAdapter chainId (registry p)) as [[a|e] w'];
    [|reflexivity].
  cbn [registry manager]. unfold adapter_call.
  destruct (adapter_connect adapterMethods a chainConfig (ext (manager p)))
    as [[[]|e] x']; [|reflexivity].
  cbn. apply lookup_insert_eq.
Qed.

Lemma initializeAdapters_entry before chainId chainConfig rest (p : Process X) :
  NoDup (before ++ (chainId, chainConfig) :: rest).*1 ->
  adapters
    (this (manager (snd (initializeAdapters adapterMethods
                           (before ++ (chainId, chainConfig) :: rest) p))))
  !! chainId
  = match connected_adapter chainId chainConfig
            (snd (initializeAdapters adapterMethods before p)) with
    | Some a => Some a
    | None => adapters (this (manager p)) !! chainId
    end.
Proof.
  rewrite fmap_app, fmap_cons. cbn [fst].
  intros Hdistinct. apply NoDup_app in Hdistinct as (_ & Hbefore & Hrest).
  apply NoDup_cons in Hrest as [Hrest _].
  assert (Hnot_before : chainId ∉ before.*1).
  { intros Hin. apply (Hbefore chainId Hin). apply list_elem_of_here. }
  rewrite initializeAdapters_app. cbn [initializeAdapters]. unfold bind.
  set (p0 := snd (initializeAdapters adapterMethods before p)).
  pose proof (initialize_adapter_stores chainId chainConfig p0) as Hstored.
  destruct (initialize_adapter_effect chainId chainConfig p0) as (p1 & Hrun & _).
  rewrite Hrun in Hstored |- *. cbn [snd] in Hstored.
  rewrite (initializeAdapters_other_chains rest chainId p1 Hrest), Hstored.
  unfold p0. by rewrite (initializeAdapters_other_chains before chainId p Hnot_before).
Qed.

Lemma initializeAdapters_only_arrows chainConfigs :
  forall p : Process X,
    only_arrows (registry p) ->
    initializeAdapters adapterMethods chainConfigs p = (Return tt, p).
Proof.
  induction chainConfigs as [|[chainId chainConfig] rest IH]; intros p Harrows;
    [reflexivity|].
  cbn [initializeAdapters]. unfold bind, initialize_adapter, try_catch, bind, on_registry.
  destruct (createAdapter_only_arrows chainId (registry p) Harrows) as [e ->].
  cbn. replace {| registry := registry p; manager := manager p |} with p
    by (by destruct p).
  by apply IH.
Qed.

Lemma exported_registry_only_arrows :
  only_arrows ChainAdapterFactory.chainAdapterFactory.
Proof.
  split; [reflexivity|].
  intros key cls Hcls.
  unfold ChainAdapterFactory.chainAdapterFactory, ChainAdapterFactory.constructor,
    ChainAdapterFactory.registerDefaultAdapters, bind,
    ChainAdapterFactory.registerAdapter in Hcls.
  cbn in Hcls.
  repeat (apply lookup_insert_Some in Hcls as [[_ <-]|[_ Hcls]]; [eauto|]).
  rewrite lookup_empty in Hcls. discriminate.
Qed.

End Facts.

(** X23. [initializeAdapters], run to its end, never throws.  An adapter
    it stores is stored under a chain id of the configuration, exactly as
    written there, and is the instance the registry holds in its cache for
    the string form of that id.  Orders, secrets, intervals and the call log
    are untouched, and no instance cached in the registry is replaced.  The
    chain ids of the configuration being distinct (they are the keys of a
    [Map]), every entry is processed, in the state the entries before it
    have left, whether or not those succeeded: if the registry returns an
    adapter for its chain and that adapter connects, the manager ends with
    that adapter stored under the chain id; if not, the chain is skipped and
    the manager ends with what it had for that chain before. *)
Theorem initializeAdapters_connects
  {X : Type} `{Platform X} (adapterMethods : AdapterMethods X)
  (chainConfigs : list (ChainId * ChainConfig)) (p : Process X) :
  exists p',
    initializeAdapters adapterMethods chainConfigs p = (Return tt, p')
    /\ only_adapters_changed (manager p) (manager p')
    /\ (forall key a,
          ChainAdapterFactory.instances (ChainAdapterFactory.this (registry p)) !! key
          = Some a ->
          ChainAdapterFactory.instances (ChainAdapterFactory.this (registry p')) !! key
          = Some a)
    /\ (forall chainId a,
          adapters (this (manager p')) !! chainId = Some a ->
          adapters (this (manager p)) !! chainId = Some a
          \/ (chainId ∈ chainConfigs.*1
              /\ ChainAdapterFactory.instances
                   (ChainAdapterFactory.this (registry p'))
                 !! ChainId_toString chainId = Some a))
    /\ (NoDup chainConfigs.*1 ->
        forall before chainId chainConfig rest,
          chainConfigs = before ++ (chainId, chainConfig) :: rest ->
          adapters (this (manager p')) !! chainId
          = match connected_adapter adapterMethods chainId chainConfig
                    (snd (initializeAdapters adapterMethods before p)) with
            | Some a => Some a
            | None => adapters (this (manager p)) !! chainId
            end).
Proof.
  destruct (initializeAdapters_effect adapterMethods chainConfigs p)
    as (p' & Hrun & Hsame & Hmono & Hadapters).
  exists p'. split_and!; [done..|].
  intros Hdistinct before chainId chainConfig rest ->.
  pose proof (initializeAdapters_entry adapterMethods before chainId chainConfig rest p
                Hdistinct) as Hentry.
  by rewrite Hrun in Hentry.
Qed.

(** A registry where Polygon has its default factory, an arrow function,
    and chain 1 a class; an adapter double whose [connect] returns. *)
Definition obliging : AdapterMethods Sim.World :=
  {| adapter_connect := fun _ _ => Sim.answer (fun _ => Return tt);
     adapter_disconnect := fun _ => Sim.answer (fun _ => Return tt);
     adapter_approveAsset := fun _ _ _ _ => Sim.answer (fun _ => Return "0xtx") |}.

Definition public_node : ChainConfig :=
  {| rpcUrl := "https://rpc.example"; privateKey := Some "0xkey";
     contractAddresses := [] |}.

Definition starting : Process Sim.World :=
  {| registry := SimRegistry.with_mainnet; manager := constructed Sim.start None |}.

Lemma initializeAdapters_connects_witness :
  exists p',
    initializeAdapters obliging [(CNum 137, public_node); (CNum 1, public_node)] starting
    = (Return tt, p')
    /\ adapters (this (manager p')) !! CNum 137 = None
    /\ adapters (this (manager p')) !! CNum 1 = Some 0%nat.
Proof.
  destruct (initializeAdapters_connects obliging
              [(CNum 137, public_node); (CNum 1, public_node)] starting)
    as (p' & Hrun & _ & _ & _ & Hentries).
  exists p'. split; [exact Hrun|].
  assert (Hdistinct : NoDup [(CNum 137, public_node); (CNum 1, public_node)].*1)
    by (cbn; apply NoDup_cons; split;
        [intros Hin; apply list_elem_of_singleton in Hin; discriminate
        |apply NoDup_singleton]).
  split.
  - exact (Hentries Hdistinct [] (CNum 137) public_node [(CNum 1, public_node)] eq_refl).
  - exact (Hentries Hdistinct [(CNum 137, public_node)] (CNum 1) public_node [] eq_refl).
Defined.

(** X24. With the registry as the module exports it, where every default
    factory is an arrow function, initialisation connects to no chain,
    whatever the configuration: it returns with the process unchanged, the
    manager has no adapter, and every [createOrder] on it throws
    "Unsupported chain pair" without any call. *)
Theorem exported_registry_connects_no_chain
  {X : Type} `{Platform X} (adapterMethods : AdapterMethods X)
  (sdk : Collaborators X) (chainConfigs : list (ChainId * ChainConfig))
  (maxRetries : option (option Z)) (x : X) (params : QuoteParams) :
  initializeAdapters adapterMethods chainConfigs
    {| registry := ChainAdapterFactory.chainAdapterFactory;
       manager := constructed x maxRetries |}
  = (Return tt, {| registry := ChainAdapterFactory.chainAdapterFactory;
                   manager := constructed x maxRetries |})
  /\ createOrder sdk params (constructed x maxRetries)
     = (Throw (JSError ("Unsupported chain pair: "
                        +:+ ChainId_toString (srcChainId params) +:+ " → "
                        +:+ ChainId_toString (dstChainId params))),
        constructed x maxRetries).
Proof.
  split.
  - apply initializeAdapters_only_arrows. apply exported_registry_only_arrows.
  - unfold createOrder, bind, gets. cbn [this constructed new_manager adapters].
    rewrite lookup_empty.
    rewrite (bool_decide_eq_false_2 (is_Some None)) by (by intros [? ?]).
    reflexivity.
Qed.

Section Shutdown.
Context {X : Type} `{Platform X}.
Variable adapterMethods : AdapterMethods X.

(** Stopping the monitoring of the listed orders returns, unregisters them,
    clears the intervals that were registered for them, revives none, and
    touches nothing else. *)
Lemma stop_all_effect (orderHashes : list string) :
  forall st : State X,
    exists st',
      stop_all orderHashes st = (Return tt, st')
      /\ ext st' = ext st /\ calls st' = calls st
      /\ adapters (this st') = adapters (this st)
      /\ activeOrders (this st') = activeOrders (this st)
      /\ orderSecrets (this st') = orderSecrets (this st)
      /\ config_maxRetries (this st') = config_maxRetries (this st)
      /\ (forall h, pollingIntervals (this st') !! h
                    = if decide (h ∈ orderHashes) then None
                      else pollingIntervals (this st) !! h)
      /\ (forall id h, timers st' !! id = Some h -> timers st !! id = Some h)
      /\ (forall h id, h ∈ orderHashes ->
                       pollingIntervals (this st) !! h = Some id ->
                       timers st' !! id = None).
Proof.
  induction orderHashes as [|h0 rest IH]; intros st.
  - exists st. split; [reflexivity|]. split_and!; try reflexivity.
    + auto.
    + intros h id Hin. by apply elem_of_nil in Hin.
  - cbn [stop_all]. unfold bind. rewrite stopOrderMonitoring_run.
    destruct (IH (stopped h0 st))
      as (st' & Hrun & Hext & Hcalls & Had & Hor & Hse & Hcf & Hpoll & Hshrink & Hdead).
    exists st'. split; [exact Hrun|].
    assert (Hstep_timers : forall id h, timers (stopped h0 st) !! id = Some h ->
                                        timers st !! id = Some h).
    { intros id h. unfold stopped.
      destruct (pollingIntervals (this st) !! h0) as [id0|]; [|done].
      cbn. intros Hl. by apply lookup_delete_Some in Hl as [_ Hl]. }
    assert (Hstep_poll : forall h, pollingIntervals (this (stopped h0 st)) !! h
                                   = if decide (h = h0) then None
                                     else pollingIntervals (this st) !! h).
    { intros h. unfold stopped.
      destruct (pollingIntervals (this st) !! h0) as [id0|] eqn:Hid0; cbn.
      - destruct (decide (h = h0)) as [->|Hne];
          [apply lookup_delete_eq|by apply lookup_delete_ne].
      - destruct (decide (h = h0)) as [->|Hne]; [exact Hid0|reflexivity]. }
    split_and!.
    + rewrite Hext. unfold stopped.
      by destruct (pollingIntervals (this st) !! h0).
    + rewrite Hcalls. unfold stopped.
      by destruct (pollingIntervals (this st) !! h0).
    + rewrite Had. unfold stopped.
      by destruct (pollingIntervals (this st) !! h0).
    + by rewrite Hor, stopped_activeOrders.
    + by rewrite Hse, stopped_orderSecrets.
    + rewrite Hcf. unfold stopped.
      by destruct (pollingIntervals (this st) !! h0).
    + intros h. rewrite Hpoll, Hstep_poll.
      destruct (decide (h ∈ rest)) as [Hin|Hnotin].
      * rewrite decide_True; [reflexivity|by apply list_elem_of_further].
      * destruct (decide (h = h0)) as [->|Hne].
        -- rewrite decide_True; [reflexivity|apply list_elem_of_here].
        -- rewrite decide_False; [reflexivity|].
           intros Hin. apply elem_of_cons in Hin as [?|?]; done.
    + intros id h Hl. apply Hstep_timers. by apply Hshrink.
    + intros h id Hin Hreg.
      destruct (decide (h = h0)) as [->|Hne].
      * destruct (timers st' !! id) as [h'|] eqn:Hlive; [|reflexivity].
        apply Hshrink in Hlive. unfold stopped in Hlive. rewrite Hreg in Hlive.
        cbn in Hlive. by rewrite lookup_delete_eq in Hlive.
      * apply elem_of_cons in Hin as [?|Hin]; [done|].
        apply (Hdead h id Hin). rewrite Hstep_poll. by rewrite decide_False.
Qed.

Lemma disconnect_all_effect (connected : list (ChainId * AdapterRef)) :
  forall st : State X,
    exists st',
      disconnect_all adapterMethods connected st = (Return tt, st')
      /\ this st' = this st /\ timers st' = timers st
      /\ next_timer st' = next_timer st /\ calls st' = calls st.
Proof.
  induction connected as [|[chainId adapter] rest IH]; intros st.
  - exists st. by split_and!.
  - cbn [disconnect_all]. unfold bind, try_catch, adapter_call.
    destruct (adapter_disconnect adapterMethods adapter (ext st)) as [[[]|e] x'];
      cbn;
      destruct (IH (with_ext (fun _ => x') st)) as (st' & -> & Hframe);
      exists st'; (split; [reflexivity|exact Hframe]).
Qed.

End Shutdown.

(** X25. [cleanup] never throws, even if every disconnection fails.  After
    it the manager has no adapter, no order, no secret and no registered
    interval; every interval that was registered is dead and none is
    revived; a tick that still fires for any order makes no call and
    changes nothing. *)
Theorem cleanup_clears_everything
  {X : Type} `{Platform X} (adapterMethods : AdapterMethods X)
  (connected : list (ChainId * AdapterRef)) (st : State X) :
  exists st',
    cleanup adapterMethods connected st = (Return tt, st')
    /\ adapters (this st') = ∅
    /\ activeOrders (this st') = ∅
    /\ orderSecrets (this st') = ∅
    /\ pollingIntervals (this st') = ∅
    /\ (forall h id, pollingIntervals (this st) !! h = Some id ->
                     timers st' !! id = None)
    /\ (forall id h, timers st' !! id = Some h -> timers st !! id = Some h)
    /\ (forall sdk orderHash, tick sdk orderHash st' = (Return tt, st')).
Proof.
  unfold cleanup, bind, gets.
  destruct (stop_all_effect (map_to_list (pollingIntervals (this st))).*1 st)
    as (st1 & -> & _ & _ & _ & _ & _ & _ & Hpoll & Hshrink & Hdead).
  destruct (disconnect_all_effect adapterMethods connected st1)
    as (st2 & -> & Hthis & Htimers & _ & _).
  eexists. split; [reflexivity|]. cbn. rewrite Hthis, Htimers.
  assert (Hregistered : forall h id, pollingIntervals (this st) !! h = Some id ->
                                     h ∈ (map_to_list (pollingIntervals (this st))).*1).
  { intros h id Hreg. apply list_elem_of_fmap. exists (h, id).
    split; [reflexivity|]. by apply elem_of_map_to_list. }
  split_and!; try reflexivity.
  - apply map_eq. intros h. rewrite lookup_empty, Hpoll.
    destruct (decide (h ∈ (map_to_list (pollingIntervals (this st))).*1))
      as [_|Hnotin]; [reflexivity|].
    destruct (pollingIntervals (this st) !! h) as [id|] eqn:Hreg; [|reflexivity].
    destruct Hnotin. by apply (Hregistered h id).
  - intros h id Hreg. apply (Hdead h id); [by apply (Hregistered h id)|exact Hreg].
  - exact Hshrink.
Qed.

End LifecycleFacts.

(** * interfaces/IChainAdapter.ts: [BaseChainAdapter] *)

Module BaseChainAdapter.
Import fusionOrders_lifecycle.

(** The fields of an adapter object that the base class declares or reads.
    [chainName] is abstract in the base class: a subclass sets it. *)
Record BaseChainAdapter : Type := {
  chainName : string;
  config : option ChainConfig;
  connected : bool
}.

(** The field initialisers: [config] is left undefined, [connected] is
    [false]. *)
Definition new_ (name : string) : BaseChainAdapter :=
  {| chainName := name; config := None; connected := false |}.

Definition set_config (c : option ChainConfig) (a : BaseChainAdapter) : BaseChainAdapter :=
  {| chainName := chainName a; config := c; connected := connected a |}.

Definition set_connected (b : bool) (a : BaseChainAdapter) : BaseChainAdapter :=
  {| chainName := chainName a; config := config a; connected := b |}.

(** [connect] *)
Definition connect (c : ChainConfig) : M BaseChainAdapter unit :=
  modify (set_config (Some c)) ;;;
  modify (set_connected true).

(** [disconnect] *)
Definition disconnect : M BaseChainAdapter unit :=
  modify (set_connected false) ;;;
  modify (set_config None).

(** [isConnected] *)
Definition isConnected : M BaseChainAdapter bool := gets connected.

(** [ensureConnected]; a configuration object is truthy. *)
Definition ensureConnected : M BaseChainAdapter unit :=
  a <- gets (fun a => a) ;;
  if negb (connected a) || negb (bool_decide (is_Some (config a)))
  then throw (JSError ("Chain adapter for " +:+ chainName a +:+ " is not connected"))
  else ret tt.

End BaseChainAdapter.

Module AdapterConnectionFacts.
Import fusionOrders_lifecycle BaseChainAdapter.

(** The two public operations that change the connection. *)
Inductive Operation : Type :=
| Connect (c : ChainConfig)
| Disconnect.

Definition perform (op : Operation) : M BaseChainAdapter unit :=
  match op with
  | Connect c => connect c
  | Disconnect => disconnect
  end.

Fixpoint perform_all (ops : list Operation) : M BaseChainAdapter unit :=
  match ops with
  | [] => ret tt
  | op :: rest => perform op ;;; perform_all rest
  end.

Lemma perform_all_app ops op a :
  perform_all (ops ++ [op]) a
  = match perform_all ops a with
    | (Return _, a') => perform op a'
    | (Throw e, a') => (Throw e, a')
    end.
Proof.
  revert a. induction ops as [|op0 rest IH]; intros a; cbn.
  - unfold bind. by destruct (perform op a) as [[[]|e] a'].
  - unfold bind. destruct (perform op0 a) as [[[]|e] a']; [apply IH|reflexivity].
Qed.

(** X26. An adapter of the base class, after any sequence of [connect] and
    [disconnect] calls since its creation: it is connected exactly if the
    last call was a [connect], it then holds the configuration of that
    call and [ensureConnected] returns; otherwise (no call yet, or a
    [disconnect] last) it holds no configuration and [ensureConnected]
    throws the error that names the chain. *)
Theorem connection_follows_last_operation (name : string) (ops : list Operation) :
  exists a,
    perform_all ops (new_ name) = (Return tt, a)
    /\ chainName a = name
    /\ match last ops with
       | Some (Connect c) =>
           config a = Some c
           /\ isConnected a = (Return true, a)
           /\ ensureConnected a = (Return tt, a)
       | _ =>
           config a = None
           /\ isConnected a = (Return false, a)
           /\ ensureConnected a
              = (Throw (JSError ("Chain adapter for " +:+ name +:+ " is not connected")), a)
       end.
Proof.
  induction ops as [|op ops IH] using rev_ind.
  - exists (new_ name). by split_and!.
  - destruct IH as (a & Hrun & Hname & _).
    rewrite perform_all_app, Hrun, last_snoc.
    destruct op as [c|]; cbn; eexists; (split; [reflexivity|]); cbn;
      (split; [exact Hname|]); split_and!; try reflexivity.
    unfold ensureConnected, bind, gets. cbn. by rewrite Hname.
Qed.

End AdapterConnectionFacts.

(** * core/OrderBuilder.ts *)

Module OrderBuilder.

(** [Partial<Order>] (interfaces/Order.ts): every property may be absent. *)
Record Order : Type := {
  id : option string;
  fromToken : option string;
  toToken : option string;
  fromAmount : option string;
  toAmount : option string;
  makerAddress : option string;
  deadline : option Z;
  signature : option string
}.

(** The object literal of the field initialiser [order = {}]. *)
Definition empty_object : Order :=
  {| id := None; fromToken := None; toToken := None; fromAmount := None;
     toAmount := None; makerAddress := None; deadline := None; signature := None |}.

Definition set_id (v : option string) (o : Order) : Order :=
  {| id := v; fromToken := fromToken o; toToken := toToken o;
     fromAmount := fromAmount o; toAmount := toAmount o;
     makerAddress := makerAddress o; deadline := deadline o;
     signature := signature o |}.

Definition set_fromToken (v : option string) (o : Order) : Order :=
  {| id := id o; fromToken := v; toToken := toToken o;
     fromAmount := fromAmount o; toAmount := toAmount o;
     makerAddress := makerAddress o; deadline := deadline o;
     signature := signature o |}.

Definition set_toToken (v : option string) (o : Order) : Order :=
  {| id := id o; fromToken := fromToken o; toToken := v;
     fromAmount := fromAmount o; toAmount := toAmount o;
     makerAddress := makerAddress o; deadline := deadline o;
     signature := signature o |}.

Definition set_fromAmount (v : option string) (o : Order) : Order :=
  {| id := id o; fromToken := fromToken o; toToken := toToken o;
     fromAmount := v; toAmount := toAmount o;
     makerAddress := makerAddress o; deadline := deadline o;
     signature := signature o |}.

Definition set_toAmount (v : option string) (o : Order) : Order :=
  {| id := id o; fromToken := fromToken o; toToken := toToken o;
     fromAmount := fromAmount o; toAmount := v;
     makerAddress := makerAddress o; deadline := deadline o;
     signature := signature o |}.

Definition set_makerAddress (v : option string) (o : Order) : Order :=
  {| id := id o; fromToken := fromToken o; toToken := toToken o;
     fromAmount := fromAmount o; toAmount := toAmount o;
     makerAddress := v; deadline := deadline o;
     signature := signature o |}.

Definition set_deadline (v : option Z) (o : Order) : Order :=
  {| id := id o; fromToken := fromToken o; toToken := toToken o;
     fromAmount := fromAmount o; toAmount := toAmount o;
     makerAddress := makerAddress o; deadline := v;
     signature := signature o |}.

(** An order object is known by its identity: its position in the heap, in
    allocation order. *)
Definition OrderRef : Type := nat.

Record World (X : Type) : Type := {
  heap : list Order;
  ext : X
}.
Arguments heap {X}.
Arguments ext {X}.

(** The builder holds a reference to its order object (and its connector,
    which is a parameter below). *)
Record OrderBuilder : Type := {
  order : OrderRef
}.

(** Truthiness of an optional string and of an optional number. *)
Definition truthy_string (v : option string) : bool :=
  match v with
  | Some s => bool_decide (s <> "")
  | None => false
  end.

Definition truthy_number (v : option Z) : bool :=
  match v with
  | Some n => bool_decide (n <> 0)
  | None => false
  end.

Section Builder.
Context {X : Type} `{Platform X}.

(** [this.connector.getAddress()], on the outside world. *)
Variable connector_getAddress : M X string.

Definition connector_call {A} (f : M X A) : M (World X) A :=
  fun w => let '(r, x') := f (ext w) in (r, {| heap := heap w; ext := x' |}).

(** [new OrderBuilder(connector)]: the field initialiser allocates the
    order object. *)
Definition constructor : M (World X) OrderBuilder :=
  fun w =>
    (Return {| order := length (heap w) |},
     {| heap := heap w ++ [empty_object]; ext := ext w |}).

(** Reading [this.order], and assigning to one of its properties. *)
Definition read (r : OrderRef) : M (World X) Order :=
  fun w =>
    match heap w !! r with
    | Some o => (Return o, w)
    | None => (Throw (JSTypeError "Cannot read properties of undefined"), w)
    end.

Definition assign (r : OrderRef) (f : Order -> Order) : M (World X) unit :=
  fun w =>
    match heap w !! r with
    | Some o => (Return tt, {| heap := <[r := f o]> (heap w); ext := ext w |})
    | None => (Throw (JSTypeError "Cannot set properties of undefined"), w)
    end.

(** [from] (lines 9-13). *)
Definition from (this : OrderBuilder) (token amount : string)
  : M (World X) OrderBuilder :=
  assign (order this) (set_fromToken (Some token)) ;;;
  assign (order this) (set_fromAmount (Some amount)) ;;;
  ret this.

(** [to] (lines 15-18). *)
Definition to (this : OrderBuilder) (token : string) : M (World X) OrderBuilder :=
  assign (order this) (set_toToken (Some token)) ;;;
  ret this.

(** [withDeadline] (lines 20-23). *)
Definition withDeadline (this : OrderBuilder) (d : Z) : M (World X) OrderBuilder :=
  assign (order this) (set_deadline (Some d)) ;;;
  ret this.

(** [build] (lines 25-42).  The value returned is [this.order] itself. *)
Definition build (this : OrderBuilder) : M (World X) OrderRef :=
  o <- read (order this) ;;
  if negb (truthy_string (fromToken o)) || negb (truthy_string (fromAmount o))
     || negb (truthy_string (toToken o))
  then throw (JSError "Incomplete order: from, to, and amount are required.")
  else
    address <- connector_call connector_getAddress ;;
    assign (order this) (set_makerAddress (Some address)) ;;;
    o <- read (order this) ;;
    now <- gets (fun w => Date_now (ext w)) ;;
    assign (order this)
           (set_id (Some ("order_" +:+ default "undefined" (makerAddress o)
                          +:+ "_" +:+ JS.Number_toString now))) ;;;
    o <- read (order this) ;;
    (if negb (truthy_number (deadline o))
     then now <- gets (fun w => Date_now (ext w)) ;;
          assign (order this) (set_deadline (Some (now / 1000 + 3600)))
     else ret tt) ;;;
    assign (order this) (set_toAmount (Some "0")) ;;;
    ret (order this).

End Builder.
End OrderBuilder.

Module OrderBuilderFacts.
Import OrderBuilder.

(** A builder in use: some time after [from] and [to]. *)
Definition getAddress : M Sim.World string := Sim.answer (fun _ => Return "0xMaker").

Definition prepared : OrderBuilder * World Sim.World :=
  match (this <- constructor ;;
         from this "USDC" "1000000" ;;;
         to this "XTZ") {| heap := []; ext := Sim.start |} with
  | (Return this, w) => (this, w)
  | (Throw _, w) => ({| order := 0%nat |}, w)
  end.

Section Facts.
Context {X : Type} `{Platform X}.
Variable connector_getAddress : M X string.

(** The object a successful [build] leaves where [o] was. *)
Definition built (o : Order) (address : string) (now : Z) : Order :=
  {| id := Some ("order_" +:+ address +:+ "_" +:+ JS.Number_toString now);
     fromToken := fromToken o; toToken := toToken o;
     fromAmount := fromAmount o; toAmount := Some "0";
     makerAddress := Some address;
     deadline := if truthy_number (deadline o) then deadline o
                 else Some (now / 1000 + 3600);
     signature := signature o |}.

Lemma build_run this (w : World X) o :
  heap w !! order this = Some o ->
  build connector_getAddress this w
  = if truthy_string (fromToken o) && truthy_string (fromAmount o)
       && truthy_string (toToken o)
    then match connector_getAddress (ext w) with
         | (Return address, x1) =>
             (Return (order this),
              {| heap := <[order this := built o address (Date_now x1)]> (heap w);
                 ext := x1 |})
         | (Throw e, x1) => (Throw e, {| heap := heap w; ext := x1 |})
         end
    else (Throw (JSError "Incomplete order: from, to, and amount are required."), w).
Proof.
  intros Ho. unfold build, bind at 1, read at 1. rewrite Ho.
  destruct (truthy_string (fromToken o)); [|reflexivity].
  destruct (truthy_string (fromAmount o)); [|reflexivity].
  destruct (truthy_string (toToken o)); [|reflexivity].
  cbn [negb orb andb]. unfold bind at 1, connector_call.
  destruct (connector_getAddress (ext w)) as [[address|e] x1]; [|reflexivity].
  assert (Hlen : (order this < length (heap w))%nat) by by eapply lookup_lt_Some.
  unfold bind, assign, read, gets, ret. cbn [heap ext].
  rewrite Ho. cbn [heap ext].
  repeat (rewrite list_lookup_insert_eq by (by rewrite ?length_insert);
          cbn [heap ext makerAddress deadline set_id set_makerAddress default]).
  unfold built.
  destruct (truthy_number (deadline o)) eqn:Hd; cbn [negb heap ext].
  all: repeat (rewrite list_lookup_insert_eq by (by rewrite ?length_insert);
               cbn [heap ext]).
  all: rewrite ?list_insert_insert_eq; reflexivity.
Qed.

(** What a successful [build] did. *)
Lemma build_returns this (w : World X) r w1 :
  build connector_getAddress this w = (Return r, w1) ->
  exists o address x1,
    heap w !! order this = Some o
    /\ connector_getAddress (ext w) = (Return address, x1)
    /\ r = order this
    /\ w1 = {| heap := <[order this := built o address (Date_now x1)]> (heap w);
               ext := x1 |}.
Proof.
  destruct (heap w !! order this) as [o|] eqn:Ho.
  - rewrite (build_run this w o Ho).
    destruct (truthy_string (fromToken o) && truthy_string (fromAmount o)
              && truthy_string (toToken o)); [|discriminate].
    destruct (connector_getAddress (ext w)) as [[address|e] x1]; [|discriminate].
    intros [= <- <-]. by exists o, address, x1.
  - unfold build, bind at 1, read at 1. rewrite Ho. discriminate.
Qed.

(** The setter calls of the fluent interface. *)
Inductive Setter : Type :=
| From (token amount : string)
| To (token : string)
| WithDeadline (d : Z).

Definition call_setter (this : OrderBuilder) (s : Setter) : M (World X) OrderBuilder :=
  match s with
  | From token amount => from this token amount
  | To token => to this token
  | WithDeadline d => withDeadline this d
  end.

(** [this.s1(...).s2(...)...]: each call is made on the builder the
    previous one returned. *)
Fixpoint chain (this : OrderBuilder) (setters : list Setter) : M (World X) OrderBuilder :=
  match setters with
  | [] => ret this
  | s :: rest => this' <- call_setter this s ;; chain this' rest
  end.

(** The object a chain of setter calls leaves, from the object [o]. *)
Definition apply_setter (o : Order) (s : Setter) : Order :=
  match s with
  | From token amount => set_fromAmount (Some amount) (set_fromToken (Some token) o)
  | To token => set_toToken (Some token) o
  | WithDeadline d => set_deadline (Some d) o
  end.

Lemma call_setter_effect this s (w : World X) o :
  heap w !! order this = Some o ->
  call_setter this s w
  = (Return this, {| heap := <[order this := apply_setter o s]> (heap w); ext := ext w |}).
Proof.
  intros Ho.
  assert (Hlen : (order this < length (heap w))%nat) by by eapply lookup_lt_Some.
  destruct s; cbn; unfold from, to, withDeadline, bind, assign, ret; rewrite Ho;
    cbn [heap ext]; rewrite ?list_lookup_insert_eq by done;
    rewrite ?list_insert_insert_eq; reflexivity.
Qed.

Lemma chain_effect this setters :
  forall (w : World X) o,
    heap w !! order this = Some o ->
    chain this setters w
    = (Return this,
       {| heap := <[order this := foldl apply_setter o setters]> (heap w);
          ext := ext w |}).
Proof.
  induction setters as [|s rest IH]; intros w o Ho.
  - cbn. unfold ret. rewrite list_insert_id by done. by destruct w.
  - cbn [chain foldl]. unfold bind. rewrite (call_setter_effect this s w o Ho).
    assert (Hlen : (order this < length (heap w))%nat) by by eapply lookup_lt_Some.
    rewrite (IH _ (apply_setter o s)) by (cbn; by rewrite list_lookup_insert_eq).
    cbn [heap ext]. by rewrite list_insert_insert_eq.
Qed.

(** The last [from] and the last [to] of a chain of calls decide. *)
Definition last_from (setters : list Setter) : option (string * string) :=
  last (omap (fun s => match s with From t a => Some (t, a) | _ => None end) setters).

Definition last_to (setters : list Setter) : option string :=
  last (omap (fun s => match s with To t => Some t | _ => None end) setters).

Definition complete (setters : list Setter) : bool :=
  truthy_string (fst <$> last_from setters)
  && truthy_string (snd <$> last_from setters)
  && truthy_string (last_to setters).

Lemma foldl_apply_setter_fields setters :
  forall o,
    fromToken (foldl apply_setter o setters)
    = from_option (fun p => Some (fst p)) (fromToken o) (last_from setters)
    /\ fromAmount (foldl apply_setter o setters)
       = from_option (fun p => Some (snd p)) (fromAmount o) (last_from setters)
    /\ toToken (foldl apply_setter o setters)
       = from_option Some (toToken o) (last_to setters).
Proof.
  unfold last_from, last_to.
  induction setters as [|s rest IH] using rev_ind; intros o; [done|].
  rewrite foldl_snoc, !omap_app. destruct (IH o) as (IH1 & IH2 & IH3).
  destruct s; cbn; rewrite ?app_nil_r, ?last_snoc; cbn; auto.
Qed.

End Facts.

(** [new OrderBuilder(connector).s1(...)...sn(...).build()] *)
Definition build_new
  {X : Type} `{Platform X} (connector_getAddress : M X string)
  (setters : list Setter) : M (World X) OrderRef :=
  this <- constructor ;;
  this <- chain this setters ;;
  build connector_getAddress this.

(** X27. A new builder, after any chain of [from], [to] and [withDeadline]
    calls: if the last [from] and the last [to] did not both give non-empty
    strings (or there was none), [build] throws the incomplete-order error
    without consulting the connector; otherwise it returns the builder's
    order object if the connector gives an address and throws what the
    connector throws if it does not. *)
Theorem build_needs_from_and_to
  {X : Type} `{Platform X} (connector_getAddress : M X string)
  (setters : list Setter) (w : World X) :
  if complete setters
  then match connector_getAddress (ext w) with
       | (Return address, x1) =>
           exists o,
             build_new connector_getAddress setters w
             = (Return (length (heap w)), {| heap := heap w ++ [o]; ext := x1 |})
             /\ makerAddress o = Some address /\ toAmount o = Some "0"
       | (Throw e, x1) =>
           build_new connector_getAddress setters w
           = (Throw e, {| heap := heap w ++ [foldl apply_setter empty_object setters];
                          ext := x1 |})
       end
  else build_new connector_getAddress setters w
       = (Throw (JSError "Incomplete order: from, to, and amount are required."),
          {| heap := heap w ++ [foldl apply_setter empty_object setters];
             ext := ext w |}).
Proof.
  set (o := foldl apply_setter empty_object setters).
  assert (Hnew : (heap w ++ [empty_object]) !! length (heap w) = Some empty_object)
    by (by rewrite lookup_app_r, Nat.sub_diag by done).
  assert (Ho : (heap w ++ [o]) !! length (heap w) = Some o)
    by (by rewrite lookup_app_r, Nat.sub_diag by done).
  assert (Hrun : build_new connector_getAddress setters w
                 = build connector_getAddress {| order := length (heap w) |}
                         {| heap := heap w ++ [o]; ext := ext w |}).
  { unfold build_new, bind, constructor.
    rewrite (chain_effect {| order := length (heap w) |} setters _ empty_object)
      by exact Hnew.
    cbn [heap ext order].
    by rewrite insert_app_r_alt, Nat.sub_diag by done. }
  rewrite Hrun, (build_run connector_getAddress _ _ o) by exact Ho.
  destruct (foldl_apply_setter_fields setters empty_object) as (Hft & Hfa & Htt).
  fold o in Hft, Hfa, Htt. cbn [fromToken fromAmount toToken empty_object] in Hft, Hfa, Htt.
  assert (Hcomplete : complete setters
                      = truthy_string (fromToken o) && truthy_string (fromAmount o)
                        && truthy_string (toToken o)).
  { unfold complete. rewrite Hft, Hfa, Htt.
    by destruct (last_from setters) as [[??]|], (last_to setters). }
  rewrite Hcomplete. cbn [heap ext order].
  destruct (truthy_string (fromToken o) && truthy_string (fromAmount o)
            && truthy_string (toToken o)); [|reflexivity].
  destruct (connector_getAddress (ext w)) as [[address|e] x1]; [|reflexivity].
  exists (built o address (Date_now x1)).
  by rewrite insert_app_r_alt, Nat.sub_diag by done.
Qed.

Section Reuse.
Context {X : Type} `{Platform X}.
Variable connector_getAddress : M X string.

(** X28. The order that [build] returns is the builder's own object, not a
    copy: setter calls made on the builder afterwards change it. *)
Theorem built_order_follows_later_setters
  (this : OrderBuilder) (w : World X) (r : OrderRef) (w1 : World X)
  (setters : list Setter) :
  build connector_getAddress this w = (Return r, w1) ->
  exists o1 w2,
    heap w1 !! r = Some o1
    /\ chain this setters w1 = (Return this, w2)
    /\ heap w2 !! r = Some (foldl apply_setter o1 setters).
Proof.
  intros Hbuild.
  destruct (build_returns connector_getAddress this w r w1 Hbuild)
    as (o & address & x1 & Ho & _ & -> & ->).
  assert (Hlen : (order this < length (heap w))%nat) by by eapply lookup_lt_Some.
  eexists _, _. split; [cbn; by apply list_lookup_insert_eq|].
  split.
  - apply chain_effect. cbn. by apply list_lookup_insert_eq.
  - cbn. apply list_lookup_insert_eq. by rewrite length_insert.
Qed.

(** X29. A builder that was given no deadline (or the deadline 0) takes the
    default, one hour after the clock, at its first [build] only.  A second
    [build], whatever the clock then shows, returns the same object with a
    new id and the deadline of the first. *)
Theorem rebuilt_order_keeps_first_deadline
  (this : OrderBuilder) (w : World X) (o : Order) (r1 : OrderRef) (w1 : World X)
  (x' : X) (r2 : OrderRef) (w2 : World X) :
  heap w !! order this = Some o ->
  truthy_number (deadline o) = false ->
  build connector_getAddress this w = (Return r1, w1) ->
  Date_now (ext w1) / 1000 + 3600 <> 0 ->
  build connector_getAddress this {| heap := heap w1; ext := x' |} = (Return r2, w2) ->
  r2 = r1
  /\ exists o2 address,
       heap w2 !! r1 = Some o2
       /\ deadline o2 = Some (Date_now (ext w1) / 1000 + 3600)
       /\ id o2 = Some ("order_" +:+ address +:+ "_"
                        +:+ JS.Number_toString (Date_now (ext w2))).
Proof.
  intros Ho Hnone Hfirst Hnonzero Hsecond.
  destruct (build_returns connector_getAddress this w r1 w1 Hfirst)
    as (o' & address1 & x1 & Ho' & _ & -> & ->).
  assert (o' = o) as -> by congruence.
  assert (Hlen : (order this < length (heap w))%nat) by by eapply lookup_lt_Some.
  destruct (build_returns connector_getAddress this _ r2 w2 Hsecond)
    as (o1 & address2 & x2 & Ho1 & _ & -> & ->).
  cbn [heap ext] in *. rewrite list_lookup_insert_eq in Ho1 by done.
  injection Ho1 as <-.
  split; [reflexivity|]. eexists _, address2. split_and!.
  - apply list_lookup_insert_eq. by rewrite length_insert.
  - cbn [deadline built] in *. rewrite Hnone in *.
    cbn [truthy_number]. by rewrite bool_decide_true.
  - reflexivity.
Qed.

End Reuse.

Lemma built_order_follows_later_setters_witness :
  exists o1 w2,
    heap (snd (build getAddress (fst prepared) (snd prepared))) !! 0%nat = Some o1
    /\ chain (fst prepared) [From "DAI" "5"; WithDeadline 1]
             (snd (build getAddress (fst prepared) (snd prepared)))
       = (Return (fst prepared), w2)
    /\ heap w2 !! 0%nat = Some (foldl apply_setter o1 [From "DAI" "5"; WithDeadline 1]).
Proof.
  apply (built_order_follows_later_setters getAddress (fst prepared) (snd prepared)).
  vm_compute. reflexivity.
Defined.

Lemma rebuilt_order_keeps_first_deadline_witness :
  0%nat = 0%nat
  /\ exists o2 address,
       heap (snd (build getAddress (fst prepared)
                    {| heap := heap (snd (build getAddress (fst prepared) (snd prepared)));
                       ext := elapse 7200000 Sim.start |})) !! 0%nat = Some o2
       /\ deadline o2 = Some 1700003600
       /\ id o2 = Some ("order_" +:+ address +:+ "_" +:+ JS.Number_toString 1700007200000).
Proof.
  refine (rebuilt_order_keeps_first_deadline getAddress (fst prepared) (snd prepared)
           {| id := None; fromToken := Some "USDC"; toToken := Some "XTZ";
              fromAmount := Some "1000000"; toAmount := None; makerAddress := None;
              deadline := None; signature := None |}
           0%nat (snd (build getAddress (fst prepared) (snd prepared)))
           (elapse 7200000 Sim.start) 0%nat
           (snd (build getAddress (fst prepared)
                   {| heap := heap (snd (build getAddress (fst prepared) (snd prepared)));
                      ext := elapse 7200000 Sim.start |})) _ _ _ _ _).
  - reflexivity.
  - reflexivity.
  - vm_compute. reflexivity.
  - vm_compute. discriminate.
  - vm_compute. reflexivity.
Defined.

End OrderBuilderFacts.
